(** * Verification of [src/lib/hexo/post.ts]

    A shallow embedding of the post module: the escaping and restoring of
    tags and code blocks by [PostRenderEscape], the preparation and the
    merge of front matter, and [create], [publish] and [render] as programs
    over the calls they make to the site and to the file system.

    JavaScript strings are sequences of UTF-16 code units: a string is a
    [list N], one number per code unit, so that [str[i]], [str.length] and the
    character classes of the regular expressions mean here what they mean in
    the source. *)

From Stdlib Require Import NArith ZArith Ascii String List DecimalNat Lia.
From stdpp Require Import base option list strings gmap.

Set Default Proof Using "Type".
Local Open Scope N_scope.

(** ** Strings *)

Abbreviation jsstring := (list N).

(** [lit "abc"] is the JavaScript string literal ['abc'] (ASCII only). *)
Definition lit (s : string) : jsstring :=
  map N_of_ascii (list_ascii_of_string s).

Arguments lit : simpl never.

Definition LBRACE : N := 123.      (* left brace *)
Definition RBRACE : N := 125.      (* right brace *)
Definition HASH : N := 35.         (* # *)
Definition PERCENT : N := 37.      (* % *)
Definition DQUOTE : N := 34.       (* double quote *)
Definition BACKSLASH : N := 92.    (* backslash *)
Definition SLASH : N := 47.        (* / *)
Definition LT : N := 60.           (* < *)
Definition GT : N := 62.           (* > *)
Definition AMP : N := 38.          (* & *)
Definition DASH : N := 45.         (* - *)
Definition NEWLINE : N := 10.      (* line feed *)
Definition RETURN : N := 13.       (* carriage return *)
Definition OBJ : N := 65532.       (* U+FFFC, the delimiter inside placeholders *)

(** [nextChar === c], where [nextChar] is [undefined] past the end. *)
Definition is_char (c : N) (o : option N) : bool :=
  match o with
  | Some x => x =? c
  | None => false
  end.

(** [s.startsWith(p)], returning what follows the prefix. *)
Fixpoint strip_prefix (p s : jsstring) : option jsstring :=
  match p with
  | [] => Some s
  | c :: p' =>
      match s with
      | [] => None
      | d :: s' => if d =? c then strip_prefix p' s' else None
      end
  end.

Definition startsWith (s p : jsstring) : bool :=
  match strip_prefix p s with Some _ => true | None => false end.

(** [s.includes(p)]: [p] occurs at some position of [s]. *)
Fixpoint includes (s p : jsstring) : bool :=
  startsWith s p ||
  match s with
  | [] => false
  | _ :: s' => includes s' p
  end.

(** The longest prefix of [s] whose characters satisfy [f], and the rest. *)
Fixpoint span (f : N → bool) (s : jsstring) : jsstring * jsstring :=
  match s with
  | [] => ([], [])
  | c :: s' =>
      if f c then let '(a, b) := span f s' in (c :: a, b) else ([], s)
  end.

(** ** Numbers in template literals

    [`${n}`] for a non-negative integer [n] is its decimal representation
    without leading zeros. *)

Fixpoint uint_chars (d : Decimal.uint) : jsstring :=
  match d with
  | Decimal.Nil => []
  | Decimal.D0 d => 48 :: uint_chars d
  | Decimal.D1 d => 49 :: uint_chars d
  | Decimal.D2 d => 50 :: uint_chars d
  | Decimal.D3 d => 51 :: uint_chars d
  | Decimal.D4 d => 52 :: uint_chars d
  | Decimal.D5 d => 53 :: uint_chars d
  | Decimal.D6 d => 54 :: uint_chars d
  | Decimal.D7 d => 55 :: uint_chars d
  | Decimal.D8 d => 56 :: uint_chars d
  | Decimal.D9 d => 57 :: uint_chars d
  end.

Definition numberToString (n : nat) : jsstring :=
  uint_chars (Nat.to_uint n).

(** [\d] without the unicode flag: the ten ASCII digits. *)
Definition isDigit (c : N) : bool := (48 <=? c) && (c <=? 57).

(** Reading a run of digits back as a decimal number. *)
Fixpoint chars_uint (s : jsstring) : option Decimal.uint :=
  match s with
  | [] => Some Decimal.Nil
  | c :: s' =>
      d ← chars_uint s';
      if c =? 48 then Some (Decimal.D0 d)
      else if c =? 49 then Some (Decimal.D1 d)
      else if c =? 50 then Some (Decimal.D2 d)
      else if c =? 51 then Some (Decimal.D3 d)
      else if c =? 52 then Some (Decimal.D4 d)
      else if c =? 53 then Some (Decimal.D5 d)
      else if c =? 54 then Some (Decimal.D6 d)
      else if c =? 55 then Some (Decimal.D7 d)
      else if c =? 56 then Some (Decimal.D8 d)
      else if c =? 57 then Some (Decimal.D9 d)
      else None
  end.

(** ** The escape table

    [stored] is an array of strings in which restoration overwrites a
    consumed slot with [null]: [None] is [null], an index past the end reads
    as [undefined]. *)

Abbreviation table := (list (option jsstring)).

(** [PostRenderEscape.escapeContent]: [cache.push(str)] returns the new
    length, so the placeholder carries the old one. *)
Definition escapeContent (cache : table) (flag : jsstring) (s : jsstring)
  : jsstring * table :=
  (lit "<!--" ++ flag ++ [OBJ] ++ numberToString (length cache) ++ lit "-->",
   cache ++ [Some s]).

(** ** The tag pre-check

    [/\{[^{}]+\}|\{#[^\}\#]+\}|\{%[^\%]+\}%/g.test(str)], on a regular
    expression object created by the call, so that the search starts at
    index 0.  Each alternative is matched at the head of a suffix. *)

(** [\{[^{}]+\}] *)
Definition match_braced (s : jsstring) : bool :=
  match s with
  | c :: r =>
      (c =? LBRACE) &&
      let '(run, r') := span (λ x, negb (x =? LBRACE) && negb (x =? RBRACE)) r in
      negb (bool_decide (run = [])) && is_char RBRACE (head r')
  | [] => false
  end.

(** [\{#[^\}\#]+\}] *)
Definition match_hash (s : jsstring) : bool :=
  match strip_prefix [LBRACE; HASH] s with
  | Some r =>
      let '(run, r') := span (λ x, negb (x =? RBRACE) && negb (x =? HASH)) r in
      negb (bool_decide (run = [])) && is_char RBRACE (head r')
  | None => false
  end.

(** [\{%[^\%]+\}%]: the greedy run stops before the first [%]; the match
    backtracks by one character to find [}] last in the run. *)
Definition match_percent (s : jsstring) : bool :=
  match strip_prefix [LBRACE; PERCENT] s with
  | Some r =>
      let '(run, r') := span (λ x, negb (x =? PERCENT)) r in
      match reverse run with
      | last :: before =>
          negb (bool_decide (before = [])) && (last =? RBRACE)
          && is_char PERCENT (head r')
      | [] => false
      end
  | None => false
  end.

Definition match_tag (s : jsstring) : bool :=
  match_braced s || match_hash s || match_percent s.

Fixpoint swigTagRegex_test (s : jsstring) : bool :=
  match_tag s ||
  match s with
  | [] => false
  | _ :: s' => swigTagRegex_test s'
  end.

(** ** The scanner of [escapeAllSwigTags] *)

Inductive State := PLAINTEXT | SWIG_VAR | SWIG_COMMENT | SWIG_TAG.

Global Instance State_eq_dec : EqDecision State.
Proof. solve_decision. Defined.

(** The variables of the loop: [currentState], [currentBuffer], [output]
    and [this.stored]. *)
Record scanner := Scanner {
  currentState : State;
  currentBuffer : jsstring;
  output : list jsstring;
  stored : table;
}.

(** [output.push(PostRenderEscape.escapeContent(this.stored, 'swig', s))],
    back in plain text with an empty buffer. *)
Definition push_escaped (σ : scanner) (s : jsstring) : scanner :=
  let '(placeholder, cache) := escapeContent (stored σ) (lit "swig") s in
  Scanner PLAINTEXT [] (output σ ++ [placeholder]) cache.

(** The two branches on [isFullTag] in the [SWIG_TAG] case. *)
Definition close_block_tag (isFullTag : bool) (σ : scanner) : scanner :=
  if isFullTag
  then push_escaped σ (lit "{%" ++ currentBuffer σ ++ lit "%}")
  else push_escaped σ (lit "{%" ++ currentBuffer σ ++ lit "%}").

(** One iteration of the [for] loop: the body of the [switch] on
    [currentState], for [char = str[i]] and [nextChar = str[i + 1]].  The
    boolean tells whether the body ran [i++].  The four states are all the
    values of the enumeration, so that the [default] case is never taken. *)
Definition step_with (isFull : jsstring → bool)
    (σ : scanner) (char : N) (nextChar : option N) : scanner * bool :=
  let 'Scanner st buf out cache := σ in
  match st with
  | PLAINTEXT =>
      if char =? LBRACE then
        if is_char LBRACE nextChar then (Scanner SWIG_VAR buf out cache, true)
        else if is_char HASH nextChar then (Scanner SWIG_COMMENT buf out cache, true)
        else if is_char PERCENT nextChar then (Scanner SWIG_TAG [] out cache, true)
        else (Scanner st buf (out ++ [[char]]) cache, false)
      else (Scanner st buf (out ++ [[char]]) cache, false)
  | SWIG_VAR =>
      if (char =? RBRACE) && is_char RBRACE nextChar
      then (push_escaped σ (lit "{{" ++ buf ++ lit "}}"), true)
      else (Scanner st (buf ++ [char]) out cache, false)
  | SWIG_COMMENT =>
      if (char =? HASH) && is_char RBRACE nextChar
      then (Scanner PLAINTEXT [] out cache, true)
      else (σ, false)
  | SWIG_TAG =>
      if (char =? PERCENT) && is_char RBRACE nextChar
      then (close_block_tag (isFull buf) σ, true)
      else (Scanner st (buf ++ [char]) out cache, false)
  end.

(** The loop over [i], on the text from index [i] on. *)
Fixpoint scan_with (isFull : jsstring → bool) (σ : scanner) (rest : jsstring)
  : scanner :=
  match rest with
  | [] => σ
  | char :: tl =>
      let '(σ', skip) := step_with isFull σ char (head tl) in
      if skip
      then scan_with isFull σ' (match tl with [] => tl | _ :: tl' => tl' end)
      else scan_with isFull σ' tl
  end.

(** [str.includes(`end${currentBuffer}`)] *)
Definition isFullTag (text buf : jsstring) : bool :=
  includes text (lit "end" ++ buf).

Definition scan (text : jsstring) := scan_with (isFullTag text).

(** The loop from [i = 0], with the fresh [output], state and buffer. *)
Definition scanAll (text : jsstring) (cache : table) : scanner :=
  scan text (Scanner PLAINTEXT [] [] cache) text.

(** [output.join('')] *)
Definition join (out : list jsstring) : jsstring := concat out.

(** [escapeAllSwigTags]: the text returned and the table afterwards. *)
Definition escapeAllSwigTags (text : jsstring) (cache : table)
  : jsstring * table :=
  if negb (swigTagRegex_test text) then (text, cache)
  else let σ := scanAll text cache in (join (output σ), stored σ).

(** ** Restoration *)

Inductive error :=
  | AssertionError
  | TypeError
  | Error (message : jsstring).

Inductive outcome (A : Type) :=
  | Returned (a : A)
  | Thrown (e : error).
Arguments Returned {A} a.
Arguments Thrown {A} e.

(** Code that reads and mutates [this.stored] and may throw. *)
Definition M (A : Type) : Type := table → outcome A * table.

Global Instance M_ret : MRet M := λ A a cache, (Returned a, cache).
Global Instance M_bind : MBind M := λ A B f m cache,
  match m cache with
  | (Returned a, cache') => f a cache'
  | (Thrown e, cache') => (Thrown e, cache')
  end.

Global Instance uint_eq_dec : EqDecision Decimal.uint := Decimal.uint_eq_dec.

(** [cache[index]] for [index] a string of digits, as the replacer receives
    it: an element of the array when the string is the canonical decimal
    form of a number, and [undefined] (no such property) otherwise, as for
    a string of digits with a leading zero.  Both [undefined] and [null]
    read as [None]. *)
Definition arrayIndex (index : jsstring) : option nat :=
  d ← chars_uint index;
  if decide (Decimal.unorm d = d) then Some (Nat.of_uint d) else None.

Definition property (cache : table) (index : jsstring) : option jsstring :=
  i ← arrayIndex index; mjoin (cache !! i).

(** [cache[index] = null]; the assertion before it lets only indices of
    elements through. *)
Definition set_null (cache : table) (index : jsstring) : table :=
  match arrayIndex index with
  | Some i => <[i := None]> cache
  | None => cache
  end.

(** [assert(v)]: [undefined], [null] and the empty string are falsy. *)
Definition truthy (v : option jsstring) : bool :=
  match v with
  | Some (_ :: _) => true
  | _ => false
  end.

(** [PostRenderEscape.restoreContent(cache)], applied to the captured
    digits. *)
Definition restoreContent (index : jsstring) : M jsstring := λ cache,
  let value := property cache index in
  if truthy value
  then (Returned (default [] value), set_null cache index)
  else (Thrown AssertionError, cache).

(** [(?:<|&lt;)] and [(?:>|&gt;)] *)
Definition match_open (s : jsstring) : option jsstring :=
  match strip_prefix (lit "<") s with
  | Some r => Some r
  | None => strip_prefix (lit "&lt;") s
  end.

Definition match_close (s : jsstring) : option jsstring :=
  match strip_prefix (lit ">") s with
  | Some r => Some r
  | None => strip_prefix (lit "&gt;") s
  end.

(** [/(?:<|&lt;)!--flag\uFFFC(\d+)--(?:>|&gt;)/] at the head of [s]: the
    captured digits and the text after the match.  The digits are followed
    by a dash, so that the greedy [\d+] never gives a digit back. *)
Definition match_placeholder (flag s : jsstring)
  : option (jsstring * jsstring) :=
  r ← match_open s;
  r ← strip_prefix (lit "!--" ++ flag ++ [OBJ]) r;
  let '(index, r) := span isDigit r in
  if bool_decide (index = []) then None
  else
    r ← strip_prefix (lit "--") r;
    r ← match_close r;
    Some (index, r).

(** [str.replace(regex, restoreContent(cache))] for a global [regex]: every
    match, from left to right, is replaced by what the replacer returns; the
    search resumes after the match.  [fuel] bounds the number of
    iterations; the length of the text is enough. *)
Fixpoint replace_fuel (fuel : nat) (flag s : jsstring) : M jsstring :=
  match fuel, s with
  | O, _ | _, [] => mret []
  | S fuel, c :: tl =>
      match match_placeholder flag s with
      | Some (index, rest) =>
          value ← restoreContent index;
          r ← replace_fuel fuel flag rest;
          mret (value ++ r)
      | None =>
          r ← replace_fuel fuel flag tl;
          mret (c :: r)
      end
  end.

Definition replace_placeholders (flag s : jsstring) : M jsstring :=
  replace_fuel (length s) flag s.

(** The two patterns of the module, [rSwigPlaceHolder] and
    [rCodeBlockPlaceHolder], differ by the flag. *)
Definition rSwigPlaceHolder : jsstring → option (jsstring * jsstring) :=
  match_placeholder (lit "swig").
Definition rCodeBlockPlaceHolder : jsstring → option (jsstring * jsstring) :=
  match_placeholder (lit "code").

Definition restoreAllSwigTags (s : jsstring) : M jsstring :=
  replace_placeholders (lit "swig") s.

Definition restoreCodeBlocks (s : jsstring) : M jsstring :=
  replace_placeholders (lit "code") s.

(** ** Conditions on a text *)

(** The text contains a match of the placeholder pattern. *)
Fixpoint has_placeholder (flag s : jsstring) : bool :=
  match match_placeholder flag s with Some _ => true | None => false end ||
  match s with
  | [] => false
  | _ :: s' => has_placeholder flag s'
  end.

(** What the scanner has read of the tag it is in. *)
Definition opened (st : State) (buf : jsstring) : jsstring :=
  match st with
  | PLAINTEXT => []
  | SWIG_VAR => lit "{{" ++ buf
  | SWIG_COMMENT => lit "{#"
  | SWIG_TAG => lit "{%" ++ buf
  end.

(** The scanner is in a comment at some iteration over [rest], or when the
    loop ends, having started from [σ]. *)
Fixpoint in_comment (isFull : jsstring → bool) (σ : scanner) (rest : jsstring)
  : bool :=
  bool_decide (currentState σ = SWIG_COMMENT) ||
  match rest with
  | [] => false
  | char :: tl =>
      let '(σ', skip) := step_with isFull σ char (head tl) in
      if skip
      then in_comment isFull σ' (match tl with [] => tl | _ :: tl' => tl' end)
      else in_comment isFull σ' tl
  end.

(** The scanner, started in state [st], finds no comment tag in [s]. *)
Definition comment_free (st : State) (s : jsstring) : Prop :=
  in_comment (λ _, false) (Scanner st [] [] []) s = false.

(** The scanner finds a comment tag in [text]. *)
Definition has_comment (text : jsstring) : bool :=
  in_comment (isFullTag text) (Scanner PLAINTEXT [] [] []) text.

(** Every tag that the scanner enters in [text] is closed: the loop ends in
    plain text. *)
Definition tags_closed (text : jsstring) : bool :=
  bool_decide (currentState (scanAll text []) = PLAINTEXT).

Definition has_opener (s : jsstring) : bool :=
  includes s (lit "{{") || includes s (lit "{#") || includes s (lit "{%").

(** ** Auxiliary definitions *)

(** A scanner state with [out] in front of its output. *)
Definition with_output (out : list jsstring) (σ : scanner) : scanner :=
  Scanner (currentState σ) (currentBuffer σ) (out ++ output σ) (stored σ).

(** The text of a match: one of the two openers, the fixed part, the
    digits, two dashes and one of the two closers. *)
Definition placeholder_text (op flag index cl : jsstring) : jsstring :=
  op ++ (lit "!--" ++ flag ++ [OBJ]) ++ index ++ lit "--" ++ cl.

(** Characters that occur in a match only in first position. *)
Definition safe (c : N) : Prop := c ≠ LBRACE ∧ c ≠ LT.

(** The placeholder of slot [n], as [escapeContent] prints it. *)
Definition swig_placeholder (n : nat) : jsstring :=
  lit "<!--" ++ lit "swig" ++ [OBJ] ++ numberToString n ++ lit "-->".

(** ** Values and objects *)

(** The JavaScript values that metadata holds.  A [moment] and a [Date] are
    known by their instant; an object or array of another kind by a
    reference. *)
Inductive value :=
  | VUndefined
  | VNull
  | VBool (b : bool)
  | VNumber (n : Z)
  | VString (s : jsstring)
  | VMoment (t : Z)
  | VDate (t : Z)
  | VObject (ref : N).

Global Instance value_eq_dec : EqDecision value.
Proof. solve_decision. Defined.

(** An object used as a record of named properties. *)
Abbreviation object := (gmap jsstring value).

(** [o[key]], [undefined] when the object has no such property. *)
Definition get (o : object) (key : jsstring) : value :=
  default VUndefined (o !! key).

(** [!!v] *)
Definition value_truthy (v : value) : bool :=
  match v with
  | VUndefined | VNull => false
  | VBool b => b
  | VNumber n => negb (n =? 0)%Z
  | VString s => negb (bool_decide (s = []))
  | VMoment _ | VDate _ | VObject _ => true
  end.

(** [a || b] *)
Definition value_or (a b : value) : value :=
  if value_truthy a then a else b.

(** [v == null] *)
Definition nullish (v : value) : bool :=
  match v with
  | VUndefined | VNull => true
  | _ => false
  end.

(** What [yfmSplit] returns. *)
Record Splitted := {
  separator : jsstring;
  prefixSeparator : bool;
  split_data : jsstring;
  split_content : jsstring;
}.

(** What the module takes from its libraries and from the site: [moment],
    [path], [hexo-util], [hexo-front-matter], [js-yaml], [JSON] and
    [ctx.config]. *)
Class Collaborators := {
  (** [moment.utc(t).format('YYYY-MM-DD HH:mm:ss')] *)
  formatUTC : Z → jsstring;
  (** [moment(v)] for a truthy [v] *)
  momentOf : value → Z;
  (** [v.toString()] for a value that is neither a string, [undefined] nor
      [null] *)
  valueToString : value → jsstring;
  (** [s.toLowerCase()] *)
  toLowerCase : jsstring → jsstring;
  (** [slugize(s, { transform })] *)
  slugize : jsstring → value → jsstring;
  (** [path.join], [path.extname], [path.basename] *)
  path_join : jsstring → jsstring → jsstring;
  extname : jsstring → jsstring;
  basename : jsstring → jsstring;
  (** [ctx.config] and [ctx.source_dir] *)
  filename_case : value;
  default_layout : value;
  post_asset_folder : bool;
  syntax_highlighter : bool;
  source_dir : jsstring;
  (** [hexo-front-matter]: [split], [parse] and [stringify]; [JSON.parse]
      and the [load] of [js-yaml], whose result is an object or nothing *)
  yfmSplit : option jsstring → outcome Splitted;
  yfmParse : jsstring → object;
  yfmStringify : option object → bool → jsstring;
  JSON_parse : jsstring → outcome (option object);
  yaml_load : jsstring → outcome (option object);
  (** [ctx.render.getOutput(source)], and [ctx.render.renderer.get(ext)]
      with its [disableNunjucks] as a boolean, when there is a renderer *)
  getOutput : value → jsstring;
  rendererGet : value → option bool;
}.

(** ** Front matter *)

Definition preservedKeys : list jsstring :=
  [lit "title"; lit "slug"; lit "path"; lit "layout"; lit "date"; lit "content"].

(** The replacement of every double quote in [item] by a backslash and a
    double quote. *)
Fixpoint escape_quotes (item : jsstring) : jsstring :=
  match item with
  | [] => []
  | c :: item' =>
      (if c =? DQUOTE then [BACKSLASH; DQUOTE] else [c]) ++ escape_quotes item'
  end.

(** The template literal around it: the item between two double quotes. *)
Definition quoted (item : jsstring) : jsstring :=
  [DQUOTE] ++ escape_quotes item ++ [DQUOTE].

(** The condition under which [prepareFrontMatter] quotes a string. *)
Definition must_quote (jsonMode : bool) (item : jsstring) : bool :=
  jsonMode || includes item (lit ":") || startsWith item (lit "#")
  || startsWith item (lit "!!")
  || includes item (lit "{") || includes item (lit "}")
  || includes item (lit "[") || includes item (lit "]")
  || includes item (lit "'") || includes item [DQUOTE].

Section FrontMatter.
Context `{Collaborators}.

(** The body of the loop of [prepareFrontMatter], for one entry. *)
Definition prepareItem (jsonMode : bool) (item : value) : value :=
  match item with
  | VMoment t => VString (formatUTC t)
  | VDate t => VString (formatUTC t)
  | VString s => if must_quote jsonMode s then VString (quoted s) else item
  | _ => item
  end.

(** [prepareFrontMatter(data, jsonMode)]: every entry of [data] is
    replaced by its prepared form; the keys do not change. *)
Definition prepareFrontMatter (data : object) (jsonMode : bool) : object :=
  prepareItem jsonMode <$> data.
End FrontMatter.

(** The names of the properties of [Object.prototype], which an object
    built by an object literal, by [JSON.parse] or by the [load] of [js-yaml]
    inherits. *)
Definition objectPrototype : list jsstring :=
  [lit "constructor"; lit "__defineGetter__"; lit "__defineSetter__";
   lit "hasOwnProperty"; lit "__lookupGetter__"; lit "__lookupSetter__";
   lit "isPrototypeOf"; lit "propertyIsEnumerable"; lit "toString";
   lit "valueOf"; lit "__proto__"; lit "toLocaleString"].

(** [o[key]] for a key that is computed: the own property of [o] when it has
    one, else the property that [o] inherits from [Object.prototype], which
    is a function or, for [__proto__], the prototype itself, that is, an
    object; [undefined] when there is neither.  ([get] is for the property
    names that the module writes out, none of which is inherited.) *)
Definition get_inherited (o : object) (key : jsstring) : value :=
  match o !! key with
  | Some v => v
  | None => if bool_decide (key ∈ objectPrototype) then VObject 0 else VUndefined
  end.

(** The merge step of [_renderScaffold]:
    [Object.keys(data).filter(key => !preservedKeys.includes(key) &&
    obj[key] == null).forEach(key => { obj[key] = data[key]; })]. *)
Definition merge_keys (obj data : object) : list jsstring :=
  List.filter
    (λ key, negb (bool_decide (key ∈ preservedKeys))
            && nullish (get_inherited obj key))
    (map_to_list data).*1.

Definition mergeMetadata (obj data : object) : object :=
  foldl (λ o key, <[key := get data key]> o) obj (merge_keys obj data).



(** ** Programs

    The asynchronous functions of [Post] are chains of promises over calls
    to the file system, the hooks, the scaffolds, the tag engine and the
    renderer.  A program is the tree of those calls: the chain is [bind],
    a rejection or an exception is [Throw].  Where the source starts two
    promises and waits for both ([Promise.all]), the program performs them
    in the order in which they are started. *)

(** [{ path, content }], the result of [create] and [publish]. *)
Record Result := { path : jsstring; content : jsstring }.

(** The first argument of [ctx.render.render]: [text], [path] and
    [engine]; [toString] is always [true].  The second argument, when there
    is one, is [data.markdown] with the flag that [highlight] was set to
    [null]. *)
Record RenderOptions := {
  text : value;
  render_path : option jsstring;
  render_engine : value;
}.

Inductive op : Type → Type :=
  (* hexo-fs *)
  | ListDir (dir : jsstring) : op (list jsstring)
  | ReadFile (file : jsstring) : op jsstring
  | WriteFile (file data : jsstring) : op unit
  | Exists (file : jsstring) : op bool
  | Mkdirs (dir : jsstring) : op unit
  | Unlink (file : jsstring) : op unit
  | CopyDir (src dest : jsstring) : op unit
  | Rmdir (dir : jsstring) : op unit
  (* ctx.execFilter *)
  | NewPostPath (data : object) (replace : bool) : op jsstring
  | BeforePostRender (data : object) : op object
  | AfterPostRender (data : object) : op object
  (* ctx.scaffold.get, ctx.extend.tag.render, ctx.emit, moment() *)
  | ScaffoldGet (layout : value) : op (option jsstring)
  | TagRender (template : jsstring) (locals : object) : op jsstring
  | Emit (event : jsstring) (result : Result) : op unit
  | Now : op Z
  (* ctx.render: the renderer up to onRenderEnd, and after it *)
  | Render (data : RenderOptions) (options : option (value * bool))
      : op jsstring
  | RenderEnd (data : RenderOptions) (ended : jsstring) : op jsstring
  | LogDebug (message : jsstring) (source : option jsstring) : op unit.

Inductive prog (A : Type) : Type :=
  | Ret (a : A)
  | Throw (e : error)
  | Do (X : Type) (o : op X) (k : X → prog A).
Arguments Ret {A} a.
Arguments Throw {A} e.
Arguments Do {A X} o k.

Fixpoint prog_bind {A B} (f : A → prog B) (m : prog A) : prog B :=
  match m with
  | Ret a => f a
  | Throw e => Throw e
  | Do o k => Do o (λ x, prog_bind f (k x))
  end.

Global Instance prog_ret : MRet prog := λ A a, Ret a.
Global Instance prog_mbind : MBind prog := λ A B f m, prog_bind f m.

(** A call, awaited. *)
Definition call {X} (o : op X) : prog X := Do o Ret.

(** A synchronous step that may throw. *)
Definition lift {A} (r : outcome A) : prog A :=
  match r with
  | Returned a => Ret a
  | Thrown e => Throw e
  end.

(** Running a program in a world that answers the calls: the outcome, the
    world afterwards and the calls performed, in order.  A call that fails
    rejects the chain with its error. *)
Inductive performed := Performed (X : Type) (o : op X).
Arguments Performed {X} o.

Section Run.
Context {W : Type} (perform : ∀ X, op X → W → outcome X * W).

Fixpoint run {A} (p : prog A) (w : W) : outcome A * W * list performed :=
  match p with
  | Ret a => (Returned a, w, [])
  | Throw e => (Thrown e, w, [])
  | Do o k =>
      match perform _ o w with
      | (Returned x, w') =>
          let '(r, w'', trace) := run (k x) w' in
          (r, w'', Performed o :: trace)
      | (Thrown e, w') => (Thrown e, w', [Performed o])
      end
  end.
End Run.

(** The calls that write to the file system. *)
Definition is_write (c : performed) : bool :=
  match c with
  | Performed (WriteFile _ _) | Performed (Mkdirs _) | Performed (Unlink _)
  | Performed (CopyDir _ _) | Performed (Rmdir _) => true
  | _ => false
  end.

(** ** Code blocks *)

Definition CODE_OPEN : jsstring := lit "<hexoPostRenderCodeBlock>".
Definition CODE_CLOSE : jsstring := lit "</hexoPostRenderCodeBlock>".

(** The text up to the first closing marker, and the text after it. *)
Fixpoint until_close (s : jsstring) : option (jsstring * jsstring) :=
  match strip_prefix CODE_CLOSE s with
  | Some rest => Some ([], rest)
  | None =>
      match s with
      | [] => None
      | c :: s' => '(inner, rest) ← until_close s'; Some (c :: inner, rest)
      end
  end.

(** [rHexoPostRenderEscape] at the head of [s]: the lazy group takes one
    character and then as few as reach a closing marker. *)
Definition rHexoPostRenderEscape (s : jsstring) : option (jsstring * jsstring) :=
  r ← strip_prefix CODE_OPEN s;
  match r with
  | [] => None
  | c :: r' => '(inner, rest) ← until_close r'; Some (c :: inner, rest)
  end.

Fixpoint escapeCodeBlocks_fuel (fuel : nat) (s : jsstring) (cache : table)
  : jsstring * table :=
  match fuel, s with
  | O, _ | _, [] => ([], cache)
  | S fuel, c :: tl =>
      match rHexoPostRenderEscape s with
      | Some (inner, rest) =>
          let '(placeholder, cache) := escapeContent cache (lit "code") inner in
          let '(r, cache) := escapeCodeBlocks_fuel fuel rest cache in
          (placeholder ++ r, cache)
      | None =>
          let '(r, cache) := escapeCodeBlocks_fuel fuel tl cache in
          (c :: r, cache)
      end
  end.

(** [escapeCodeBlocks]; the length of the text is fuel enough. *)
Definition escapeCodeBlocks (s : jsstring) (cache : table) : jsstring * table :=
  escapeCodeBlocks_fuel (length s) s cache.

(** ** The post module *)

Section Post.
Context `{Collaborators}.

(** [v.toString()] *)
Definition toString_method (v : value) : outcome jsstring :=
  match v with
  | VUndefined | VNull => Thrown TypeError
  | VString s => Returned s
  | _ => Returned (valueToString v)
  end.

(** [v.toLowerCase()], a method of strings only *)
Definition toLowerCase_method (v : value) : outcome jsstring :=
  match v with
  | VString s => Returned (toLowerCase s)
  | _ => Thrown TypeError
  end.

(** [`${v}`] *)
Definition template (v : value) : jsstring :=
  match v with
  | VString s => s
  | _ => valueToString v
  end.

(** A method of strings called on [v] *)
Definition as_string (v : value) : outcome jsstring :=
  match v with
  | VString s => Returned s
  | _ => Thrown TypeError
  end.

Definition removeExtname (s : jsstring) : jsstring :=
  take (length s - length (extname s)) s.

Definition createAssetFolder (file : jsstring) (assetFolder : bool)
  : prog unit :=
  if negb assetFolder then Ret tt
  else
    let target := removeExtname file in
    if bool_decide (basename target = lit "index") then Ret tt
    else
      exist ← call (Exists target);
      if negb exist then call (Mkdirs target) else Ret tt.

Definition _getScaffold (layout : value) : prog (option jsstring) :=
  result ← call (ScaffoldGet layout);
  match result with
  | Some _ => Ret result
  | None => call (ScaffoldGet (VString (lit "normal")))
  end.

Definition _renderScaffold (data : object) : prog jsstring :=
  scaffold ← _getScaffold (get data (lit "layout"));
  splitted ← lift (yfmSplit scaffold);
  let jsonMode := startsWith (separator splitted) (lit ";") in
  let frontMatter := prepareFrontMatter data jsonMode in
  frontMatter ← call (TagRender (split_data splitted) frontMatter);
  (* Parse front-matter *)
  obj ← lift (if jsonMode
              then JSON_parse (lit "{" ++ frontMatter ++ lit "}")
              else yaml_load frontMatter);
  obj ← match obj with
        | Some o => Ret (Some (mergeMetadata o data))
        | None =>
            (* [obj[key]] on [undefined] or [null] *)
            if forallb (λ key, bool_decide (key ∈ preservedKeys))
                 (map_to_list data).*1
            then Ret None else Throw TypeError
        end;
  (* Prepend the separator *)
  let content :=
    (if prefixSeparator splitted then separator splitted ++ [NEWLINE] else [])
    ++ yfmStringify obj jsonMode
    ++ split_content splitted in
  if value_truthy (get data (lit "content"))
  then Ret (content ++ [NEWLINE] ++ template (get data (lit "content")))
  else Ret content.

Definition create (data : object) (replace : bool) : prog Result :=
  slug ← lift (toString_method
                 (value_or (get data (lit "slug")) (get data (lit "title"))));
  let data := <[lit "slug" := VString (slugize slug filename_case)]> data in
  layout ← lift (toLowerCase_method
                   (value_or (get data (lit "layout")) default_layout));
  let data := <[lit "layout" := VString layout]> data in
  date ← (if value_truthy (get data (lit "date"))
          then Ret (momentOf (get data (lit "date")))
          else call Now);
  let data := <[lit "date" := VMoment date]> data in
  (* Get the post path *)
  file ← call (NewPostPath data replace);
  content ← _renderScaffold data;
  let result := {| path := file; content := content |} in
  (* Write content to file *)
  _ ← call (WriteFile file content);
  (* Create asset folder *)
  _ ← createAssetFolder file post_asset_folder;
  _ ← call (Emit (lit "new") result);
  Ret result.

(** [new RegExp(`^${escapeRegExp(slug)}(?:[^\/\\]+)`).test(item)]: the
    item starts with the slug, taken literally, and goes on with a
    character that is neither a slash nor a backslash. *)
Definition draft_regex_test (slug item : jsstring) : bool :=
  match strip_prefix slug item with
  | Some (c :: _) => negb (c =? SLASH) && negb (c =? BACKSLASH)
  | _ => false
  end.

Definition not_found_message (slug : jsstring) : jsstring :=
  lit "Draft " ++ [DQUOTE] ++ slug ++ [DQUOTE] ++ lit " does not exist.".

Definition publish (data : object) (replace : bool) : prog Result :=
  let data :=
    if bool_decide (get data (lit "layout") = VString (lit "draft"))
    then <[lit "layout" := VString (lit "post")]> data else data in
  let draftDir := path_join source_dir (lit "_drafts") in
  slug ← lift (toString_method (get data (lit "slug")));
  let slug := slugize slug filename_case in
  let data := <[lit "slug" := VString slug]> data in
  layout ← lift (toLowerCase_method
                   (value_or (get data (lit "layout")) default_layout));
  let data := <[lit "layout" := VString layout]> data in
  (* Find the draft *)
  list ← call (ListDir draftDir);
  match List.find (draft_regex_test slug) list with
  | None => Throw (Error (not_found_message slug))
  | Some item =>
      (* Read the content *)
      let src := path_join draftDir item in
      content ← call (ReadFile src);
      (* Create post *)
      let data := yfmParse content ∪ data in
      let data := <[lit "content" := get data (lit "_content")]> data in
      let data := <[lit "_content" := VUndefined]> data in
      post ← create data replace;
      (* Remove the original draft file *)
      _ ← call (Unlink src);
      if negb post_asset_folder then Ret post
      else
        (* Copy assets *)
        let assetSrc := removeExtname src in
        let assetDest := removeExtname (path post) in
        exist ← call (Exists assetSrc);
        if negb exist then Ret post
        else
          _ ← call (CopyDir assetSrc assetDest);
          _ ← call (Rmdir assetSrc);
          Ret post
  end.

(** [if (source)]: a path that is not the empty string. *)
Definition source_given (source : option jsstring) : bool :=
  match source with
  | Some (_ :: _) => true
  | _ => false
  end.

(** The [promise] that [render] starts from, or nothing when neither
    [data.content] nor [source] gives the content. *)
Definition render_promise (source : option jsstring) (data : object)
  : option (prog value) :=
  if negb (nullish (get data (lit "content")))
  then Some (Ret (get data (lit "content")))
  else if source_given source
  then
    (* Read content from files *)
    Some (content ← call (ReadFile (default [] source));
          Ret (VString content))
  else None.

Definition render (source : option jsstring) (data : object) : prog object :=
  let ext :=
    value_or (get data (lit "engine"))
      (VString (if source_given source
                then extname (default [] source) else [])) in
  match render_promise source data with
  | None => Throw (Error (lit "No input file or string!"))
  | Some promise =>
      let isPost :=
        negb (value_truthy (get data (lit "source")))
        || bool_decide (getOutput (get data (lit "source"))
                          ∈ [lit "html"; lit "htm"]) in
      if negb isPost then
        content ← promise;
        let data := <[lit "content" := content]> data in
        _ ← call (LogDebug (lit "Rendering file: %s") source);
        let options := {| text := get data (lit "content");
                          render_path := source;
                          render_engine := get data (lit "engine") |} in
        content ← call (Render options None);
        content ← call (RenderEnd options content);
        Ret (<[lit "content" := VString content]> data)
      else
        (* disable Nunjucks when the renderer specify that. *)
        let disableNunjucks :=
          if negb (value_truthy ext) then ext
          else match rendererGet ext with
               | None => VUndefined
               | Some b => VBool b
               end in
        (* front-matter overrides renderer's option *)
        let disableNunjucks :=
          match get data (lit "disableNunjucks") with
          | VBool b => VBool b
          | _ => disableNunjucks
          end in
        let cacheObj : table := [] in
        content ← promise;
        let data := <[lit "content" := content]> data in
        (* Run before_post_render filters *)
        data ← call (BeforePostRender data);
        content ← lift (as_string (get data (lit "content")));
        let '(content, cacheObj) := escapeCodeBlocks content cacheObj in
        (* Escape all Nunjucks/Swig tags *)
        let '(content, cacheObj) :=
          if bool_decide (disableNunjucks = VBool false)
          then escapeAllSwigTags content cacheObj
          else (content, cacheObj) in
        let data := <[lit "content" := VString content]> data in
        _ ← call (LogDebug (lit "Rendering post: %s") source);
        (* Render with markdown or other renderer *)
        let options := {| text := get data (lit "content");
                          render_path := source;
                          render_engine := get data (lit "engine") |} in
        content ← call (Render options
                          (Some (get data (lit "markdown"),
                                 negb syntax_highlighter)));
        (* onRenderEnd: replace cache data with real contents *)
        match restoreAllSwigTags content cacheObj with
        | (Thrown e, _) => Throw e
        | (Returned content, cacheObj) =>
            let data := <[lit "content" := VString content]> data in
            content ← (if value_truthy disableNunjucks
                       then Ret content
                       else call (TagRender content data));
            content ← call (RenderEnd options content);
            match restoreCodeBlocks content cacheObj with
            | (Thrown e, _) => Throw e
            | (Returned content, _) =>
                let data := <[lit "content" := VString content]> data in
                (* Run after_post_render filters *)
                call (AfterPostRender data)
            end
        end
  end.
End Post.

(** ** Calls of a program *)

(** Every call that a program can perform satisfies [P]. *)
Fixpoint calls_satisfy (P : performed → Prop) {A} (p : prog A) : Prop :=
  match p with
  | Ret _ | Throw _ => True
  | Do o k => P (Performed o) ∧ ∀ x, calls_satisfy P (k x)
  end.

(** The calls that read a file. *)
Definition is_read_file (c : performed) : bool :=
  match c with
  | Performed (ReadFile _) => true
  | _ => false
  end.

(** The error of [render] without input. *)
Definition no_input : error := Error (lit "No input file or string!").

(** ** Notions for the further properties *)

(** The text with the markers of every code block removed, as
    [str.replace(rHexoPostRenderEscape, '$1')] computes it. *)
Fixpoint unwrapCodeBlocks_fuel (fuel : nat) (s : jsstring) : jsstring :=
  match fuel, s with
  | O, _ | _, [] => []
  | S fuel, c :: tl =>
      match rHexoPostRenderEscape s with
      | Some (inner, rest) => inner ++ unwrapCodeBlocks_fuel fuel rest
      | None => c :: unwrapCodeBlocks_fuel fuel tl
      end
  end.

Definition unwrapCodeBlocks (s : jsstring) : jsstring :=
  unwrapCodeBlocks_fuel (length s) s.

(** The placeholder of slot [n] for a code block. *)
Definition code_placeholder (n : nat) : jsstring :=
  lit "<!--" ++ lit "code" ++ [OBJ] ++ numberToString n ++ lit "-->".

(** What restoration may do to a table: the length is kept, and a slot
    either keeps its value or goes from a non-empty string to [null]. *)
Definition consumed_from (cache cache' : table) : Prop :=
  length cache' = length cache
  ∧ ∀ i, cache' !! i = cache !! i
         ∨ (cache' !! i = Some None
            ∧ ∃ v, cache !! i = Some (Some v) ∧ v ≠ []).

(** The part of the text that the scanner has buffered. *)
Definition buffered (st : State) (buf : jsstring) : jsstring :=
  match st with
  | SWIG_VAR | SWIG_TAG => opened st buf
  | _ => []
  end.

(** The file that a call writes, with what is written. *)
Definition written (c : performed) : option (jsstring * jsstring) :=
  match c with
  | Performed (WriteFile file data) => Some (file, data)
  | _ => None
  end.

(** The calls that delete or move what is on the file system. *)
Definition is_removal (c : performed) : bool :=
  match c with
  | Performed (Unlink _) | Performed (CopyDir _ _) | Performed (Rmdir _) => true
  | _ => false
  end.

(** The calls that read the file system. *)
Definition is_read (c : performed) : bool :=
  match c with
  | Performed (ReadFile _) | Performed (ListDir _) => true
  | _ => false
  end.

(** The hooks of rendering, [before_post_render] and [after_post_render]. *)
Definition is_hook (c : performed) : bool :=
  match c with
  | Performed (BeforePostRender _) | Performed (AfterPostRender _) => true
  | _ => false
  end.

(** The calls of the tag engine. *)
Definition is_tag_render (c : performed) : bool :=
  match c with
  | Performed (TagRender _ _) => true
  | _ => false
  end.

(** The text that a call hands to the renderer. *)
Definition rendered_text (c : performed) : option value :=
  match c with
  | Performed (Render data _) => Some (text data)
  | _ => None
  end.


(** ** A site and a world for examples *)

(** Collaborators that do as little as possible: slugs and layouts are
    taken as they are, paths are joined with a slash. *)
Definition example_site : Collaborators := {|
  formatUTC := λ _, lit "2013-01-02 03:04:05";
  momentOf := λ _, 0%Z;
  valueToString := λ _, [];
  toLowerCase := λ s, s;
  slugize := λ s _, s;
  path_join := λ a b, a ++ [SLASH] ++ b;
  extname := λ _, [];
  basename := λ s, s;
  filename_case := VNumber 0;
  default_layout := VString (lit "post");
  post_asset_folder := false;
  syntax_highlighter := true;
  source_dir := lit "source";
  yfmSplit := λ _, Thrown TypeError;
  yfmParse := λ _, ∅;
  yfmStringify := λ _ _, [];
  JSON_parse := λ _, Returned None;
  yaml_load := λ _, Returned None;
  getOutput := λ _, lit "html";
  rendererGet := λ _, None;
|}.

(** A world whose drafts directory holds one file, and in which every other
    call fails. *)
Definition example_perform (X : Type) (o : op X) (w : unit)
  : outcome X * unit :=
  match o in op X return outcome X * unit with
  | ListDir _ => (Returned [lit "hello-world.md"], w)
  | _ => (Thrown (Error (lit "not available")), w)
  end.

(** The text from the last occurrence of [c] on. *)
Fixpoint last_from (c : N) (s : jsstring) : option jsstring :=
  match s with
  | [] => None
  | x :: s' =>
      match last_from c s' with
      | Some r => Some r
      | None => if x =? c then Some s else None
      end
  end.

(** A site with an asset folder for each post, whose scaffolds are split
    and parsed by stand-ins for the libraries. *)
Definition blog_site : Collaborators := {|
  formatUTC := λ _, lit "2013-01-02 03:04:05";
  momentOf := λ _, 0%Z;
  valueToString := λ _, [];
  toLowerCase := λ s, s;
  slugize := λ s _, s;
  path_join := λ a b, a ++ [SLASH] ++ b;
  extname := λ s, default [] (last_from 46 s);
  basename := λ s, match last_from SLASH s with Some (_ :: r) => r | _ => s end;
  filename_case := VNumber 0;
  default_layout := VString (lit "post");
  post_asset_folder := true;
  syntax_highlighter := false;
  source_dir := lit "source";
  yfmSplit := λ scaffold,
    match scaffold with
    | Some s => Returned {| separator := lit "---"; prefixSeparator := false;
                            split_data := s; split_content := lit "---" |}
    | None => Thrown TypeError
    end;
  yfmParse := λ content, {[ lit "_content" := VString content ]};
  yfmStringify := λ obj _,
    match obj with Some _ => lit "title: x" ++ [NEWLINE] | None => [] end;
  JSON_parse := λ _, Returned (Some ∅);
  yaml_load := λ frontMatter,
    if bool_decide (frontMatter = []) then Returned None else Returned (Some ∅);
  getOutput := λ source,
    if bool_decide (source = VString (lit "css/style.styl"))
    then lit "css" else lit "html";
  rendererGet := λ _, Some false;
|}.

(** A world in which every call succeeds: two drafts, no asset folder yet,
    hooks and engines that return what they are given. *)
Definition blog_perform (X : Type) (o : op X) (w : unit) : outcome X * unit :=
  match o in op X return outcome X * unit with
  | ListDir _ => (Returned [lit "hello-world-2.md"; lit "hello-world.md"], w)
  | ReadFile _ => (Returned (lit "draft text"), w)
  | WriteFile _ _ | Mkdirs _ | Unlink _ | CopyDir _ _ | Rmdir _ => (Returned tt, w)
  | Exists _ => (Returned false, w)
  | NewPostPath data _ =>
      (Returned (lit "source/_posts/"
                 ++ match get data (lit "slug") with VString s => s | _ => [] end
                 ++ lit ".md"), w)
  | BeforePostRender data | AfterPostRender data => (Returned data, w)
  | ScaffoldGet layout =>
      (Returned (if bool_decide (layout = VString (lit "empty")) then Some []
                 else if bool_decide (layout = VString (lit "missing")) then None
                 else Some (lit "title: {{ title }}")), w)
  | TagRender template _ => (Returned template, w)
  | Emit _ _ | LogDebug _ _ => (Returned tt, w)
  | Now => (Returned 0%Z, w)
  | Render data _ =>
      (Returned match text data with VString s => s | _ => [] end, w)
  | RenderEnd _ ended => (Returned ended, w)
  end.

(** * Properties *)

(** ** The definitions on examples *)

Example escapeAllSwigTags_example :
  escapeAllSwigTags (lit "a {{ b }} {% c %} {# d #} {e}") []
  = (lit "a " ++ swig_placeholder 0 ++ lit " " ++ swig_placeholder 1
     ++ lit "  {e}",
     [Some (lit "{{ b }}"); Some (lit "{% c %}")]).
Proof. reflexivity. Qed.

Example restoreAllSwigTags_example :
  restoreAllSwigTags
    (lit "<p>&lt;!--swig" ++ [OBJ] ++ lit "1--&gt; " ++ swig_placeholder 0
     ++ lit "</p>")
    [Some (lit "{{ b }}"); Some (lit "{% c %}")]
  = (Returned (lit "<p>{% c %} {{ b }}</p>"), [None; None]).
Proof. reflexivity. Qed.

Example swigTagRegex_examples :
  swigTagRegex_test (lit "{{}}") = false
  ∧ swigTagRegex_test (lit "{{x}}") = true
  ∧ swigTagRegex_test (lit "plain {x} text") = true
  ∧ match_hash (lit "{#a#}") = false
  ∧ match_hash (lit "{#a}") = true
  ∧ match_percent (lit "{%a%}") = false
  ∧ match_percent (lit "{%a}%") = true
  ∧ match_braced (lit "{%a%}") = true.
Proof. repeat split; reflexivity. Qed.

Example escapeCodeBlocks_example :
  escapeCodeBlocks
    (lit "x<hexoPostRenderCodeBlock>{{ y }}</hexoPostRenderCodeBlock>z") []
  = (lit "x<!--code" ++ [OBJ] ++ lit "0-->z", [Some (lit "{{ y }}")]).
Proof. reflexivity. Qed.

Example draft_regex_test_examples :
  draft_regex_test (lit "my-post") (lit "my-post.md") = true
  ∧ draft_regex_test (lit "my-post") (lit "my-post-2.md") = true
  ∧ draft_regex_test (lit "my-post") (lit "my-post") = false
  ∧ draft_regex_test (lit "my-post") (lit "my-post/index.md") = false
  ∧ draft_regex_test (lit "my-post") (lit "other.md") = false.
Proof. repeat split; reflexivity. Qed.

Ltac unfold_chars :=
  unfold LBRACE, RBRACE, HASH, PERCENT, DQUOTE, BACKSLASH, SLASH, LT, GT, AMP,
    DASH, NEWLINE, RETURN, OBJ in *.

(** Literals are evaluated to their code units before a proof inspects
    them. *)
Ltac eval_lits :=
  repeat match goal with
  | |- context [lit ?s] =>
      let v := eval vm_compute in (lit s) in change (lit s) with v
  | H : context [lit ?s] |- _ =>
      let v := eval vm_compute in (lit s) in change (lit s) with v in H
  end.

(** ** Strings *)

Lemma strip_prefix_app p s : strip_prefix p (p ++ s) = Some s.
Proof.
  induction p as [|c p IH]; simpl; [done|].
  by rewrite N.eqb_refl.
Qed.

Lemma strip_prefix_Some p s r : strip_prefix p s = Some r → s = p ++ r.
Proof.
  revert s; induction p as [|c p IH]; intros s; simpl.
  - congruence.
  - destruct s as [|d s]; [done|].
    destruct (N.eqb_spec d c); [|done].
    intros H; apply IH in H; by subst.
Qed.

Lemma span_app_eq f s a b : span f s = (a, b) → s = a ++ b.
Proof.
  revert a b; induction s as [|c s IH]; intros a b; simpl.
  - by intros [= <- <-].
  - destruct (f c).
    + destruct (span f s) as [a' b'].
      intros [= <- <-]. simpl. f_equal. by apply IH.
    + by intros [= <- <-].
Qed.

Lemma span_Forall f s a b : span f s = (a, b) → Forall (λ c, f c = true) a.
Proof.
  revert a b; induction s as [|c s IH]; intros a b; simpl.
  - intros [= <- <-]. constructor.
  - destruct (f c) eqn:Hc.
    + destruct (span f s) as [a' b'].
      intros [= <- <-]. constructor; [done|]. by eapply IH.
    + intros [= <- <-]. constructor.
Qed.

Lemma span_stop f s a b :
  span f s = (a, b) → match b with [] => True | c :: _ => f c = false end.
Proof.
  revert a b; induction s as [|c s IH]; intros a b; simpl.
  - by intros [= <- <-].
  - destruct (f c) eqn:Hc.
    + destruct (span f s) as [a' b'].
      intros [= <- <-]. by eapply IH.
    + by intros [= <- <-].
Qed.

Lemma span_app f a b :
  Forall (λ c, f c = true) a →
  match b with [] => True | c :: _ => f c = false end →
  span f (a ++ b) = (a, b).
Proof.
  intros Ha Hb. induction Ha as [|c a Hc Ha IH]; simpl.
  - destruct b as [|c b]; simpl; [done|]. by rewrite Hb.
  - by rewrite Hc, IH.
Qed.

Lemma startsWith_app p r : startsWith (p ++ r) p = true.
Proof. unfold startsWith. by rewrite strip_prefix_app. Qed.

Lemma includes_app_r a s p : includes s p = true → includes (a ++ s) p = true.
Proof.
  intros Hs. induction a as [|c a IH]; [done|].
  cbn [app includes]. rewrite IH. apply orb_true_r.
Qed.

Lemma includes_middle a p b : includes (a ++ p ++ b) p = true.
Proof.
  apply includes_app_r. destruct (p ++ b) eqn:E;
    cbn [includes]; rewrite <- E, startsWith_app; done.
Qed.

Lemma join_singletons (s : jsstring) : join (map (λ c, [c]) s) = s.
Proof. unfold join. induction s as [|c s IH]; simpl; by f_equal. Qed.

Lemma join_app (a b : list jsstring) : join (a ++ b) = join a ++ join b.
Proof. apply concat_app. Qed.

(** ** The scanner on text without openers *)

Lemma includes_cons_false c s p :
  includes (c :: s) p = false →
  startsWith (c :: s) p = false ∧ includes s p = false.
Proof. simpl. intros H. by apply orb_false_elim in H. Qed.

Lemma has_opener_cons c s :
  has_opener (c :: s) = false →
  has_opener s = false
  ∧ (c = LBRACE →
     is_char LBRACE (head s) = false ∧ is_char HASH (head s) = false
     ∧ is_char PERCENT (head s) = false).
Proof.
  unfold has_opener. eval_lits. intros H.
  apply orb_false_elim in H as [H H3]. apply orb_false_elim in H as [H1 H2].
  apply includes_cons_false in H1 as [S1 ->], H2 as [S2 ->], H3 as [S3 ->].
  split; [done|]. intros ->.
  destruct s as [|d s]; [done|].
  unfold startsWith in *. simpl in *.
  unfold_chars. by destruct (d =? 123), (d =? 35), (d =? 37).
Qed.

Lemma scan_with_plain isFull (s : jsstring) buf out cache :
  has_opener s = false →
  scan_with isFull (Scanner PLAINTEXT buf out cache) s
  = Scanner PLAINTEXT buf (out ++ map (λ c, [c]) s) cache.
Proof.
  revert out; induction s as [|c s IH]; intros out Hno; simpl.
  - by rewrite app_nil_r.
  - apply has_opener_cons in Hno as [Hs Hnext].
    destruct (N.eqb_spec c LBRACE) as [->|Hc].
    + destruct Hnext as (-> & -> & ->); [done|].
      rewrite IH by done. by rewrite <- app_assoc.
    + rewrite IH by done. by rewrite <- app_assoc.
Qed.

(** C3: on a text with none of the openers [{{], [{#] and [{%],
    [escapeAllSwigTags] returns the text itself and leaves the escape table
    as it was: no placeholder is introduced and nothing is appended. *)
Theorem escapeAllSwigTags_no_opener (text : jsstring) (cache : table) :
  has_opener text = false →
  escapeAllSwigTags text cache = (text, cache).
Proof.
  intros Hno. unfold escapeAllSwigTags.
  destruct (swigTagRegex_test text); simpl; [|done].
  unfold scanAll, scan. rewrite scan_with_plain by done. simpl.
  by rewrite join_singletons.
Qed.

Lemma escapeAllSwigTags_no_opener_witness :
  has_opener (lit "a {b} c: 100% }}") = false
  ∧ swigTagRegex_test (lit "a {b} c: 100% }}") = true
  ∧ escapeAllSwigTags (lit "a {b} c: 100% }}") [Some (lit "x")]
    = (lit "a {b} c: 100% }}", [Some (lit "x")]).
Proof.
  split; [reflexivity|]. split; [reflexivity|].
  apply (escapeAllSwigTags_no_opener (lit "a {b} c: 100% }}")). reflexivity.
Defined.

(** ** The check for a balancing end tag *)

(** The loop advances by one or by two characters: induction on the text
    that follows both. *)
Lemma skip_ind (P : jsstring → Prop) :
  P [] →
  (∀ c tl, P tl → P (match tl with [] => tl | _ :: tl' => tl' end) → P (c :: tl)) →
  ∀ s, P s.
Proof.
  intros Hnil Hcons s.
  cut (P s ∧ P (match s with [] => s | _ :: tl' => tl' end)); [tauto|].
  induction s as [|c s [IH1 IH2]]; [done|].
  split; [by apply Hcons|done].
Qed.

Lemma close_block_tag_eq b1 b2 σ : close_block_tag b1 σ = close_block_tag b2 σ.
Proof. by destruct b1, b2. Qed.

Lemma step_with_eq f g σ char nextChar :
  step_with f σ char nextChar = step_with g σ char nextChar.
Proof.
  destruct σ as [[] buf out cache]; simpl; try done.
  by rewrite (close_block_tag_eq (f buf) (g buf)).
Qed.

Lemma scan_with_eq f g s : ∀ σ, scan_with f σ s = scan_with g σ s.
Proof.
  induction s as [|c tl IH1 IH2] using skip_ind; intros σ; simpl; [done|].
  rewrite (step_with_eq f g).
  destruct (step_with g σ c (head tl)) as [σ' []]; [apply IH2|apply IH1].
Qed.

(** C8: when the scanner closes a block tag, the action taken when the text
    contains [end] followed by the buffered tag text is the action taken when
    it does not.  In both cases the buffered text, between [{%] and [%}]
    again, is appended to the table, the placeholder flagged [swig] that
    carries the index of that new entry is appended to the output, the
    buffer is emptied and the scanner is back in plain text; this is what
    the step of the scanner does on [%}] inside a block tag, whatever the
    check for a balancing end tag answers.  The same holds of the whole
    scan: whatever the check answers, [escapeAllSwigTags] computes the same
    output and the same table. *)
Theorem isFullTag_no_effect :
  (∀ σ, close_block_tag true σ = close_block_tag false σ)
  ∧ (∀ (answer : bool) σ,
       close_block_tag answer σ
       = Scanner PLAINTEXT []
           (output σ
            ++ [lit "<!--swig" ++ [OBJ]
                ++ numberToString (length (stored σ)) ++ lit "-->"])
           (stored σ ++ [Some (lit "{%" ++ currentBuffer σ ++ lit "%}")]))
  ∧ (∀ (answer : jsstring → bool) buf out cache,
       step_with answer (Scanner SWIG_TAG buf out cache) PERCENT (Some RBRACE)
       = (Scanner PLAINTEXT []
            (out ++ [lit "<!--swig" ++ [OBJ]
                     ++ numberToString (length cache) ++ lit "-->"])
            (cache ++ [Some (lit "{%" ++ buf ++ lit "%}")]), true))
  ∧ (∀ (answer : jsstring → bool) text cache,
       scan_with answer (Scanner PLAINTEXT [] [] cache) text
       = scanAll text cache).
Proof.
  split; [|split; [|split]].
  - intros σ. apply close_block_tag_eq.
  - by intros [] σ.
  - intros answer buf out cache.
    cbn [step_with]. change (PERCENT =? PERCENT) with true.
    cbn [is_char andb]. change (RBRACE =? RBRACE) with true. cbn iota.
    by destruct (answer buf).
  - intros answer text cache. apply scan_with_eq.
Qed.

(** ** Structure of a scan *)

Lemma step_with_out f st buf out cache char nextChar :
  step_with f (Scanner st buf out cache) char nextChar
  = let '(σ, skip) := step_with f (Scanner st buf [] cache) char nextChar in
    (with_output out σ, skip).
Proof.
  destruct st; simpl; unfold with_output, close_block_tag, push_escaped; simpl;
    repeat match goal with |- context [if ?b then _ else _] => destruct b end;
    simpl; by rewrite ?app_nil_r.
Qed.

Lemma scan_with_cons f σ c tl :
  scan_with f σ (c :: tl)
  = let '(σ', skip) := step_with f σ c (head tl) in
    if skip
    then scan_with f σ' (match tl with [] => tl | _ :: tl' => tl' end)
    else scan_with f σ' tl.
Proof. done. Qed.

(** The output is only appended to. *)
Lemma scan_with_out f s : ∀ st buf out cache,
  scan_with f (Scanner st buf out cache) s
  = with_output out (scan_with f (Scanner st buf [] cache) s).
Proof.
  induction s as [|c tl IH1 IH2] using skip_ind; intros st buf out cache.
  - unfold with_output; simpl. by rewrite app_nil_r.
  - rewrite !scan_with_cons, step_with_out.
    destruct (step_with f (Scanner st buf [] cache) c (head tl))
      as [[st' buf' out' cache'] skip].
    destruct skip; unfold with_output at 1; simpl.
    + rewrite (IH2 st' buf' (out ++ out')), (IH2 st' buf' out').
      unfold with_output; simpl. by rewrite app_assoc.
    + rewrite (IH1 st' buf' (out ++ out')), (IH1 st' buf' out').
      unfold with_output; simpl. by rewrite app_assoc.
Qed.

Lemma last_cons_ne {A} (x : A) (c : A) (l : list A) :
  last (c :: l) ≠ Some x → last l ≠ Some x.
Proof. destruct l as [|d l]; [done|]. by rewrite last_cons_cons. Qed.

(** A prefix that the scanner leaves in plain text, and that does not end
    on a brace still waiting for its second character, is scanned the same
    way whatever follows it. *)
Lemma scan_with_app f pre : ∀ σ X,
  currentState (scan_with f σ pre) = PLAINTEXT →
  last pre ≠ Some LBRACE →
  scan_with f σ (pre ++ X) = scan_with f (scan_with f σ pre) X.
Proof.
  induction pre as [|c tl IH1 IH2] using skip_ind; intros σ X Hst Hlast; [done|].
  rewrite <- app_comm_cons, !scan_with_cons. rewrite scan_with_cons in Hst.
  destruct tl as [|d tl'].
  - simpl in *. destruct σ as [[] buf out cache]; simpl in *.
    + destruct (N.eqb_spec c LBRACE) as [->|Hc]; [done|]. done.
    + destruct (c =? RBRACE); simpl in *; done.
    + destruct (c =? HASH); simpl in *; done.
    + destruct (c =? PERCENT); simpl in *; done.
  - cbn [app hd_error] in *.
    destruct (step_with f σ c (Some d)) as [σ' []].
    + apply IH2; [done|]. by do 2 apply last_cons_ne in Hlast.
    + apply IH1; [done|]. by apply last_cons_ne in Hlast.
Qed.

Lemma step_plain f buf out cache c n :
  step_with f (Scanner PLAINTEXT buf out cache) c n
  = if c =? LBRACE then
      if is_char LBRACE n then (Scanner SWIG_VAR buf out cache, true)
      else if is_char HASH n then (Scanner SWIG_COMMENT buf out cache, true)
      else if is_char PERCENT n then (Scanner SWIG_TAG [] out cache, true)
      else (Scanner PLAINTEXT buf (out ++ [[c]]) cache, false)
    else (Scanner PLAINTEXT buf (out ++ [[c]]) cache, false).
Proof. done. Qed.

Lemma step_var f buf out cache c n :
  step_with f (Scanner SWIG_VAR buf out cache) c n
  = if (c =? RBRACE) && is_char RBRACE n
    then (push_escaped (Scanner SWIG_VAR buf out cache)
            (lit "{{" ++ buf ++ lit "}}"), true)
    else (Scanner SWIG_VAR (buf ++ [c]) out cache, false).
Proof. done. Qed.

Lemma step_comment f buf out cache c n :
  step_with f (Scanner SWIG_COMMENT buf out cache) c n
  = if (c =? HASH) && is_char RBRACE n
    then (Scanner PLAINTEXT [] out cache, true)
    else (Scanner SWIG_COMMENT buf out cache, false).
Proof. done. Qed.

Lemma step_tag f buf out cache c n :
  step_with f (Scanner SWIG_TAG buf out cache) c n
  = if (c =? PERCENT) && is_char RBRACE n
    then (push_escaped (Scanner SWIG_TAG buf out cache)
            (lit "{%" ++ buf ++ lit "%}"), true)
    else (Scanner SWIG_TAG (buf ++ [c]) out cache, false).
Proof. simpl. unfold close_block_tag. by destruct (f buf). Qed.

(** In a comment the scanner emits nothing and stores nothing, up to the
    first [#}]. *)
Lemma scan_with_comment f c : ∀ buf out cache post,
  includes (c ++ [HASH]) (lit "#}") = false →
  scan_with f (Scanner SWIG_COMMENT buf out cache) (c ++ lit "#}" ++ post)
  = scan_with f (Scanner PLAINTEXT [] out cache) post.
Proof.
  induction c as [|x c IH]; intros buf out cache post Hc.
  - done.
  - rewrite <- app_comm_cons, scan_with_cons.
    apply includes_cons_false in Hc as [Hx Hc].
    assert (Hstay : (x =? HASH) && is_char RBRACE (head (c ++ lit "#}" ++ post))
                    = false).
    { destruct (N.eqb_spec x HASH) as [->|]; [simpl|done].
      destruct c as [|y c]; [done|]. simpl in *.
      unfold startsWith in Hx. eval_lits. simpl in Hx. unfold_chars.
      by destruct (y =? 125). }
    rewrite step_comment, Hstay. by apply IH.
Qed.

(** A variable tag or a block tag that is never closed emits nothing and
    stores nothing. *)
Lemma scan_with_unclosed_var f x : ∀ buf out cache,
  includes x (lit "}}") = false →
  scan_with f (Scanner SWIG_VAR buf out cache) x
  = Scanner SWIG_VAR (buf ++ x) out cache.
Proof.
  induction x as [|c x IH]; intros buf out cache Hx.
  - by rewrite app_nil_r.
  - rewrite scan_with_cons. apply includes_cons_false in Hx as [Hc Hx].
    assert (Hstay : (c =? RBRACE) && is_char RBRACE (head x) = false).
    { destruct (N.eqb_spec c RBRACE) as [->|]; [simpl|done].
      destruct x as [|y x]; [done|]. simpl.
      unfold startsWith in Hc. eval_lits. simpl in Hc. unfold_chars.
      by destruct (y =? 125). }
    rewrite step_var, Hstay, IH by done. by rewrite <- app_assoc.
Qed.

Lemma scan_with_unclosed_tag f x : ∀ buf out cache,
  includes x (lit "%}") = false →
  scan_with f (Scanner SWIG_TAG buf out cache) x
  = Scanner SWIG_TAG (buf ++ x) out cache.
Proof.
  induction x as [|c x IH]; intros buf out cache Hx.
  - by rewrite app_nil_r.
  - rewrite scan_with_cons. apply includes_cons_false in Hx as [Hc Hx].
    assert (Hstay : (c =? PERCENT) && is_char RBRACE (head x) = false).
    { destruct (N.eqb_spec c PERCENT) as [->|]; [simpl|done].
      destruct x as [|y x]; [done|]. simpl.
      unfold startsWith in Hc. eval_lits. simpl in Hc. unfold_chars.
      by destruct (y =? 125). }
    rewrite step_tag, Hstay, IH by done. by rewrite <- app_assoc.
Qed.

(** ** Placeholders *)

Lemma uint_chars_digits d : Forall (λ c, isDigit c = true) (uint_chars d).
Proof. induction d; simpl; constructor; done. Qed.

Lemma chars_uint_uint_chars d : chars_uint (uint_chars d) = Some d.
Proof. induction d; simpl; [done|..]; by rewrite IHd. Qed.

Lemma unorm_not_Nil d : Decimal.unorm d ≠ Decimal.Nil.
Proof. unfold Decimal.unorm. by destruct (Decimal.nzhead d). Qed.

Lemma to_uint_unorm n : Decimal.unorm (Nat.to_uint n) = Nat.to_uint n.
Proof. by rewrite <- Unsigned.to_of, Unsigned.of_to. Qed.

Lemma numberToString_digits n :
  Forall (λ c, isDigit c = true) (numberToString n).
Proof. apply uint_chars_digits. Qed.

Lemma numberToString_nonempty n : numberToString n ≠ [].
Proof.
  unfold numberToString. pose proof (unorm_not_Nil (Nat.to_uint n)) as H.
  rewrite to_uint_unorm in H. by destruct (Nat.to_uint n).
Qed.

(** The digits of a placeholder name the slot they were printed from. *)
Lemma arrayIndex_numberToString n : arrayIndex (numberToString n) = Some n.
Proof.
  unfold arrayIndex, numberToString. rewrite chars_uint_uint_chars. simpl.
  rewrite decide_True by apply to_uint_unorm.
  by rewrite Unsigned.of_to.
Qed.

Lemma match_open_Some s r :
  match_open s = Some r → ∃ op, (op = lit "<" ∨ op = lit "&lt;") ∧ s = op ++ r.
Proof.
  unfold match_open. destruct (strip_prefix (lit "<") s) as [r'|] eqn:H.
  - intros [= ->]. apply strip_prefix_Some in H. eauto.
  - intros H'. apply strip_prefix_Some in H'. eauto.
Qed.

Lemma match_close_Some s r :
  match_close s = Some r → ∃ cl, (cl = lit ">" ∨ cl = lit "&gt;") ∧ s = cl ++ r.
Proof.
  unfold match_close. destruct (strip_prefix (lit ">") s) as [r'|] eqn:H.
  - intros [= ->]. apply strip_prefix_Some in H. eauto.
  - intros H'. apply strip_prefix_Some in H'. eauto.
Qed.

Lemma match_open_app op r :
  op = lit "<" ∨ op = lit "&lt;" → match_open (op ++ r) = Some r.
Proof. by intros [-> | ->]. Qed.

Lemma match_close_app cl r :
  cl = lit ">" ∨ cl = lit "&gt;" → match_close (cl ++ r) = Some r.
Proof. by intros [-> | ->]. Qed.

Lemma match_placeholder_inv flag s index rest :
  match_placeholder flag s = Some (index, rest) →
  ∃ op cl,
    (op = lit "<" ∨ op = lit "&lt;") ∧ (cl = lit ">" ∨ cl = lit "&gt;")
    ∧ s = placeholder_text op flag index cl ++ rest
    ∧ index ≠ [] ∧ Forall (λ c, isDigit c = true) index.
Proof.
  unfold match_placeholder.
  destruct (match_open s) as [r1|] eqn:H1; [cbn|done].
  destruct (strip_prefix (lit "!--" ++ flag ++ [OBJ]) r1) as [r2|] eqn:H2;
    [cbn|done].
  destruct (span isDigit r2) as [ds r3] eqn:H3.
  case_bool_decide as Hds; [done|].
  destruct (strip_prefix (lit "--") r3) as [r4|] eqn:H4; [cbn|done].
  destruct (match_close r4) as [r5|] eqn:H5; [cbn|done].
  intros [= <- <-].
  apply match_open_Some in H1 as (op & Hop & ->).
  apply match_close_Some in H5 as (cl & Hcl & ->).
  apply strip_prefix_Some in H2 as ->. apply strip_prefix_Some in H4 as ->.
  pose proof (span_Forall _ _ _ _ H3). apply span_app_eq in H3 as ->.
  exists op, cl. repeat split; try done.
  unfold placeholder_text. by rewrite <- !app_assoc.
Qed.

Lemma match_placeholder_intro flag op cl index rest :
  (op = lit "<" ∨ op = lit "&lt;") → (cl = lit ">" ∨ cl = lit "&gt;") →
  index ≠ [] → Forall (λ c, isDigit c = true) index →
  match_placeholder flag (placeholder_text op flag index cl ++ rest)
  = Some (index, rest).
Proof.
  intros Hop Hcl Hne Hds. unfold match_placeholder, placeholder_text.
  rewrite <- !app_assoc, match_open_app by done. cbn [mbind option_bind].
  replace (lit "!--" ++ flag ++ [OBJ] ++ index ++ lit "--" ++ cl ++ rest)
    with ((lit "!--" ++ flag ++ [OBJ]) ++ index ++ lit "--" ++ cl ++ rest)
    by (by rewrite <- !app_assoc).
  rewrite strip_prefix_app. cbn [mbind option_bind].
  rewrite (span_app isDigit index) by done.
  rewrite bool_decide_eq_false_2 by done.
  rewrite strip_prefix_app. cbn [mbind option_bind].
  by rewrite match_close_app.
Qed.

(** The placeholder that [escapeContent] prints is matched whole, with the
    digits it was printed with. *)
Lemma match_placeholder_escaped flag n rest :
  match_placeholder flag
    ((lit "<!--" ++ flag ++ [OBJ] ++ numberToString n ++ lit "-->") ++ rest)
  = Some (numberToString n, rest).
Proof.
  rewrite <- (match_placeholder_intro flag (lit "<") (lit ">")
                (numberToString n) rest);
    auto using numberToString_nonempty, numberToString_digits.
  f_equal. unfold placeholder_text. by rewrite <- !app_assoc.
Qed.

Lemma match_placeholder_shorter flag s index rest :
  match_placeholder flag s = Some (index, rest) →
  (length rest < length s)%nat.
Proof.
  intros H. apply match_placeholder_inv in H as (op & cl & Hop & _ & -> & _).
  unfold placeholder_text. rewrite !length_app.
  destruct Hop as [-> | ->]; simpl; lia.
Qed.

(** Any fuel that covers the text gives the same replacement. *)
Lemma replace_fuel_enough flag f1 : ∀ f2 s cache,
  (length s ≤ f1)%nat → (length s ≤ f2)%nat →
  replace_fuel f1 flag s cache = replace_fuel f2 flag s cache.
Proof.
  induction f1 as [|f1 IH]; intros f2 s cache H1 H2.
  - destruct s; [|simpl in H1; lia]. by destruct f2.
  - destruct s as [|c tl]; [by destruct f2|].
    destruct f2 as [|f2]; [simpl in H2; lia|].
    simpl in H1, H2. cbn [replace_fuel].
    destruct (match_placeholder flag (c :: tl)) as [[index rest]|] eqn:Hm.
    + apply match_placeholder_shorter in Hm. simpl in Hm.
      unfold mbind, M_bind.
      destruct (restoreContent index cache) as [[value|e] cache']; [|done].
      by rewrite (IH f2) by lia.
    + unfold mbind, M_bind. by rewrite (IH f2) by lia.
Qed.

Lemma replace_placeholders_nil flag cache :
  replace_placeholders flag [] cache = (Returned [], cache).
Proof. done. Qed.

Lemma replace_placeholders_cons flag c tl cache :
  replace_placeholders flag (c :: tl) cache
  = match match_placeholder flag (c :: tl) with
    | Some (index, rest) =>
        (value ← restoreContent index;
         r ← replace_placeholders flag rest;
         mret (value ++ r)) cache
    | None =>
        (r ← replace_placeholders flag tl; mret (c :: r)) cache
    end.
Proof.
  unfold replace_placeholders. cbn [length replace_fuel].
  destruct (match_placeholder flag (c :: tl)) as [[index rest]|] eqn:Hm; [|done].
  apply match_placeholder_shorter in Hm. simpl in Hm.
  unfold mbind, M_bind.
  destruct (restoreContent index cache) as [[value|e] cache']; [|done].
  by rewrite (replace_fuel_enough flag (length tl) (length rest)) by lia.
Qed.

(** Where no placeholder matches, a character is copied. *)
Lemma replace_placeholders_copy flag c tl cache :
  match_placeholder flag (c :: tl) = None →
  replace_placeholders flag (c :: tl) cache
  = match replace_placeholders flag tl cache with
    | (Returned r, cache') => (Returned (c :: r), cache')
    | (Thrown e, cache') => (Thrown e, cache')
    end.
Proof. intros H. by rewrite replace_placeholders_cons, H. Qed.

Lemma digit_safe c : isDigit c = true → safe c.
Proof.
  unfold isDigit, safe, LBRACE, LT. intros H.
  apply andb_true_iff in H as [H1 H2].
  apply N.leb_le in H1, H2. lia.
Qed.

Lemma swig_safe : Forall safe (lit "swig").
Proof. repeat constructor; by vm_compute. Qed.

Lemma placeholder_text_safe op flag index cl :
  (op = lit "<" ∨ op = lit "&lt;") → (cl = lit ">" ∨ cl = lit "&gt;") →
  Forall safe flag → Forall (λ c, isDigit c = true) index →
  ∃ m M, placeholder_text op flag index cl = m :: M ∧ Forall safe M.
Proof.
  intros Hop Hcl Hflag Hds.
  assert (Hmid : Forall safe
            ((lit "!--" ++ flag ++ [OBJ]) ++ index ++ lit "--" ++ cl)).
  { repeat apply Forall_app_2; try done.
    - repeat constructor; by vm_compute.
    - repeat constructor; by vm_compute.
    - eapply Forall_impl; [done|]. apply digit_safe.
    - repeat constructor; by vm_compute.
    - destruct Hcl as [-> | ->]; repeat constructor; by vm_compute. }
  unfold placeholder_text. destruct Hop as [-> | ->].
  - eexists _, _. split; [done|]. done.
  - eexists AMP, (lit "lt;" ++ _). split; [done|].
    apply Forall_app_2; [|done]. repeat constructor; by vm_compute.
Qed.

Lemma push_escaped_eq st buf out cache s :
  push_escaped (Scanner st buf out cache) s
  = Scanner PLAINTEXT []
      (out ++ [lit "<!--" ++ lit "swig" ++ [OBJ]
               ++ numberToString (length cache) ++ lit "-->"])
      (cache ++ [Some s]).
Proof. done. Qed.

(** Whether the scanner meets a comment depends on the text and on the
    state it starts in only. *)
Lemma in_comment_indep f g s : ∀ st buf1 buf2 out1 out2 cache1 cache2,
  in_comment f (Scanner st buf1 out1 cache1) s
  = in_comment g (Scanner st buf2 out2 cache2) s.
Proof.
  induction s as [|c tl IH1 IH2] using skip_ind;
    intros st buf1 buf2 out1 out2 cache1 cache2; [done|].
  cbn [in_comment currentState]. f_equal.
  destruct st; rewrite ?step_plain, ?step_var, ?step_comment, ?step_tag;
    rewrite ?push_escaped_eq;
    repeat match goal with |- context [if ?b then _ else _] => destruct b end;
    auto.
Qed.

Lemma comment_free_state st s : comment_free st s → st ≠ SWIG_COMMENT.
Proof.
  unfold comment_free. intros H ->. by destruct s.
Qed.

Lemma comment_free_step st c tl f buf out cache :
  comment_free st (c :: tl) →
  let '(σ', skip) := step_with f (Scanner st buf out cache) c (head tl) in
  comment_free (currentState σ')
    (if skip then match tl with [] => tl | _ :: tl' => tl' end else tl).
Proof.
  unfold comment_free. cbn [in_comment]. intros H.
  apply orb_false_elim in H as [_ H].
  destruct st; rewrite ?step_plain, ?step_var, ?step_comment, ?step_tag in *;
    rewrite ?push_escaped_eq in *;
    repeat match goal with |- context [if ?b then _ else _] => destruct b end;
    cbn [currentState]; (etrans; [|exact H]); apply in_comment_indep.
Qed.

Lemma has_comment_free text : has_comment text = false → comment_free PLAINTEXT text.
Proof.
  unfold has_comment, comment_free. intros H. etrans; [|exact H].
  apply in_comment_indep.
Qed.

Lemma includes_cons_true c s p : includes s p = true → includes (c :: s) p = true.
Proof. intros H. cbn [includes]. rewrite H. apply orb_true_r. Qed.

(** A comment tag begins with the opener of comments. *)
Lemma in_comment_opener f s : ∀ st buf out cache,
  st ≠ SWIG_COMMENT →
  in_comment f (Scanner st buf out cache) s = true →
  includes s (lit "{#") = true.
Proof.
  induction s as [|c tl IH1 IH2] using skip_ind;
    intros st buf out cache Hst; cbn [in_comment currentState];
    rewrite bool_decide_eq_false_2 by done; cbn [orb]; [done|].
  assert (Htl2 : includes (match tl with [] => tl | _ :: tl' => tl' end)
                   (lit "{#") = true → includes (c :: tl) (lit "{#") = true).
  { intros H. apply includes_cons_true. destruct tl; [done|].
    by apply includes_cons_true. }
  assert (Hskip : ∀ st' buf' out' cache',
    st' ≠ SWIG_COMMENT →
    in_comment f (Scanner st' buf' out' cache')
      (match tl with [] => tl | _ :: tl' => tl' end) = true →
    includes (c :: tl) (lit "{#") = true) by eauto.
  assert (Hnext : ∀ st' buf' out' cache',
    st' ≠ SWIG_COMMENT →
    in_comment f (Scanner st' buf' out' cache') tl = true →
    includes (c :: tl) (lit "{#") = true) by eauto using includes_cons_true.
  destruct st; rewrite ?step_plain, ?step_var, ?step_tag, ?push_escaped_eq.
  - destruct (N.eqb_spec c LBRACE) as [->|]; [|by apply Hnext].
    destruct tl as [|d tl']; cbn [hd_error is_char]; [by apply Hnext|].
    destruct (N.eqb_spec d LBRACE) as [->|]; [by apply Hskip|].
    destruct (N.eqb_spec d HASH) as [->|]; [done|].
    destruct (N.eqb_spec d PERCENT) as [->|]; [by apply Hskip|by apply Hnext].
  - destruct ((c =? RBRACE) && is_char RBRACE (head tl));
      [by apply Hskip|by apply Hnext].
  - done.
  - destruct ((c =? PERCENT) && is_char RBRACE (head tl));
      [by apply Hskip|by apply Hnext].
Qed.

(** A text without the opener of comments has no comment tag. *)
Lemma has_comment_opener text :
  includes text (lit "{#") = false → has_comment text = false.
Proof.
  intros Hno. destruct (has_comment text) eqn:H; [|done].
  apply in_comment_opener in H; [congruence|done].
Qed.

(** Started inside a variable or block tag, the output is empty or begins
    with the placeholder of that tag. *)
Lemma tag_output_head f s : ∀ st buf cache,
  st = SWIG_VAR ∨ st = SWIG_TAG →
  match join (output (scan_with f (Scanner st buf [] cache) s)) with
  | [] => True
  | c :: _ => c = LT
  end.
Proof.
  induction s as [|c tl IH1 IH2] using skip_ind; intros st buf cache Hst; [done|].
  rewrite scan_with_cons. destruct Hst as [-> | ->].
  - rewrite step_var.
    destruct ((c =? RBRACE) && is_char RBRACE (head tl)).
    + rewrite push_escaped_eq, scan_with_out. cbn [with_output output].
      by rewrite app_nil_l, join_app.
    + apply IH1; auto.
  - rewrite step_tag.
    destruct ((c =? PERCENT) && is_char RBRACE (head tl)).
    + rewrite push_escaped_eq, scan_with_out. cbn [with_output output].
      by rewrite app_nil_l, join_app.
    + apply IH1; auto.
Qed.

(** Text free of [<] and of braces that begins the output, begins the
    input. *)
Lemma safe_prefix_of_output f M : ∀ r buf cache X,
  Forall safe M → comment_free PLAINTEXT r →
  join (output (scan_with f (Scanner PLAINTEXT buf [] cache) r)) = M ++ X →
  ∃ r', r = M ++ r'.
Proof.
  induction M as [|m M IH]; intros r buf cache X HM Hno Hout; [by exists r|].
  apply Forall_cons in HM as [[Hm1 Hm2] HM].
  destruct r as [|c tl]; [done|].
  pose proof (comment_free_step _ _ _ f buf [] cache Hno) as Hstep.
  rewrite scan_with_cons in Hout. rewrite step_plain in Hout, Hstep.
  assert (Hpush :
    comment_free PLAINTEXT tl →
    join (output (scan_with f (Scanner PLAINTEXT buf ([] ++ [[c]]) cache) tl))
    = (m :: M) ++ X → ∃ r', c :: tl = (m :: M) ++ r').
  { intros Htl. rewrite scan_with_out. cbn [with_output output].
    rewrite app_nil_l, join_app. intros [= -> Hjoin].
    apply IH in Hjoin as [r' ->]; [|done..]. by exists r'. }
  destruct (N.eqb_spec c LBRACE) as [->|Hne]; [|by apply Hpush].
  destruct tl as [|d tl']; [by apply Hpush|].
  cbn [hd_error is_char] in Hout, Hstep.
  destruct (N.eqb_spec d LBRACE) as [->|].
  { pose proof (tag_output_head f tl' SWIG_VAR buf cache (or_introl eq_refl))
      as Hhd.
    rewrite Hout in Hhd. done. }
  destruct (N.eqb_spec d HASH) as [->|].
  { by apply comment_free_state in Hstep. }
  destruct (N.eqb_spec d PERCENT) as [->|]; [|by apply Hpush].
  pose proof (tag_output_head f tl' SWIG_TAG [] cache (or_intror eq_refl))
    as Hhd.
  rewrite Hout in Hhd. done.
Qed.

(** A placeholder pattern that matches in the output at a copied character
    matches in the input at that character. *)
Lemma match_placeholder_transfer f flag c r buf cache :
  Forall safe flag → comment_free PLAINTEXT r →
  match_placeholder flag (c :: r) = None →
  match_placeholder flag
    (c :: join (output (scan_with f (Scanner PLAINTEXT buf [] cache) r)))
  = None.
Proof.
  intros Hflag Hno Hin.
  destruct (match_placeholder flag (c :: join _)) as [[index rest]|] eqn:Hm;
    [exfalso|done].
  apply match_placeholder_inv in Hm as (op & cl & Hop & Hcl & Heq & Hne & Hds).
  destruct (placeholder_text_safe op flag index cl) as (m & M & Htext & HM);
    [done..|].
  rewrite Htext in Heq. injection Heq as -> Hout.
  apply safe_prefix_of_output in Hout as [r' ->]; [|done..].
  rewrite app_comm_cons, <- Htext, match_placeholder_intro in Hin; done.
Qed.

(** ** Escaping, then restoring *)

Lemma has_placeholder_cons flag c s :
  has_placeholder flag (c :: s) = false →
  match_placeholder flag (c :: s) = None ∧ has_placeholder flag s = false.
Proof.
  cbn [has_placeholder]. intros H. apply orb_false_elim in H as [H ?].
  by destruct (match_placeholder flag (c :: s)).
Qed.

Lemma replace_placeholders_escaped flag n rest cache :
  replace_placeholders flag
    ((lit "<!--" ++ flag ++ [OBJ] ++ numberToString n ++ lit "-->") ++ rest)
    cache
  = (value ← restoreContent (numberToString n);
     r ← replace_placeholders flag rest;
     mret (value ++ r)) cache.
Proof.
  pose proof (match_placeholder_escaped flag n rest) as Hm.
  change (lit "<!--") with (LT :: lit "!--") in *.
  rewrite <- !app_comm_cons in *.
  by rewrite replace_placeholders_cons, Hm.
Qed.

(** Restoring the slot that holds a non-empty string returns the string and
    consumes the slot. *)
Lemma restoreContent_slot (pre : table) v rest :
  v ≠ [] →
  restoreContent (numberToString (length pre)) (pre ++ Some v :: rest)
  = (Returned v, pre ++ None :: rest).
Proof.
  intros Hv. unfold restoreContent, property, set_null.
  rewrite arrayIndex_numberToString. cbn [mbind option_bind].
  rewrite list_lookup_middle by done. cbn [mjoin option_join].
  destruct v as [|c v]; [done|]. cbn [truthy default].
  by rewrite insert_app_r_alt, Nat.sub_diag by lia.
Qed.

Lemma M_bind_returned {A B} (m : M A) (k : A → M B) cache a cache' :
  m cache = (Returned a, cache') → (m ≫= k) cache = k a cache'.
Proof. unfold mbind, M_bind. by intros ->. Qed.

(** The invariant of the round trip, from any state of the scanner but a
    comment: the entries appended by the scan are exactly those that
    restoring the output consumes, and restoring gives back the tag being
    read followed by the text still to scan. *)
Lemma scan_restore f s : ∀ st buf cache,
  (st = PLAINTEXT → buf = []) →
  has_placeholder (lit "swig") s = false →
  comment_free st s →
  currentState (scan_with f (Scanner st buf [] cache) s) = PLAINTEXT →
  ∃ news : list jsstring,
    stored (scan_with f (Scanner st buf [] cache) s) = cache ++ (Some <$> news)
    ∧ ∀ pre : table, length pre = length cache →
        replace_placeholders (lit "swig")
          (join (output (scan_with f (Scanner st buf [] cache) s)))
          (pre ++ (Some <$> news))
        = (Returned (opened st buf ++ s),
           pre ++ replicate (length news) None).
Proof.
  induction s as [|c tl IH1 IH2] using skip_ind;
    intros st buf cache Hbuf Hph Hno Hend.
  { simpl in Hend. subst st. exists []. split; [by rewrite app_nil_r|].
    intros pre _. by rewrite !app_nil_r. }
  apply has_placeholder_cons in Hph as [Hm Hph].
  pose proof (comment_free_state _ _ Hno) as Hst.
  pose proof (comment_free_step _ _ _ f buf [] cache Hno) as Hstep.
  assert (Hph2 : has_placeholder (lit "swig")
                   (match tl with [] => tl | _ :: tl' => tl' end) = false).
  { destruct tl; [done|]. by apply has_placeholder_cons in Hph as [_ ?]. }
  rewrite scan_with_cons in *.
  (* a character copied to the output *)
  assert (Hcopy :
    st = PLAINTEXT →
    comment_free PLAINTEXT tl →
    currentState (scan_with f (Scanner PLAINTEXT buf ([] ++ [[c]]) cache) tl)
      = PLAINTEXT →
    ∃ news : list jsstring,
      stored (scan_with f (Scanner PLAINTEXT buf ([] ++ [[c]]) cache) tl)
        = cache ++ (Some <$> news)
      ∧ ∀ pre : table, length pre = length cache →
          replace_placeholders (lit "swig")
            (join (output
               (scan_with f (Scanner PLAINTEXT buf ([] ++ [[c]]) cache) tl)))
            (pre ++ (Some <$> news))
          = (Returned (opened st buf ++ c :: tl),
             pre ++ replicate (length news) None)).
  { intros -> Htl Hend'. rewrite scan_with_out in *.
    cbn [with_output currentState output stored] in *.
    destruct (IH1 PLAINTEXT buf cache) as (news & Hstored & Hrestore);
      [done..|].
    exists news. split; [done|]. intros pre Hpre.
    rewrite app_nil_l, join_app. cbn [join concat app].
    rewrite replace_placeholders_copy
      by (apply match_placeholder_transfer; auto using swig_safe).
    by rewrite Hrestore. }
  destruct st; [|clear Hcopy..].
  - (* PLAINTEXT *)
    rewrite step_plain in *. specialize (Hbuf eq_refl) as ->.
    destruct (N.eqb_spec c LBRACE) as [->|Hne]; [|by apply Hcopy].
    destruct tl as [|d tl']; [by apply Hcopy|].
    cbn [hd_error is_char] in *.
    destruct (N.eqb_spec d LBRACE) as [->|].
    { destruct (IH2 SWIG_VAR [] cache) as (news & Hstored & Hrestore);
        [done..|].
      exists news. split; [done|]. intros pre Hpre. by rewrite Hrestore. }
    destruct (N.eqb_spec d HASH) as [->|].
    { by apply comment_free_state in Hstep. }
    destruct (N.eqb_spec d PERCENT) as [->|]; [|by apply Hcopy].
    destruct (IH2 SWIG_TAG [] cache) as (news & Hstored & Hrestore);
      [done..|].
    exists news. split; [done|]. intros pre Hpre. by rewrite Hrestore.
  - (* SWIG_VAR *)
    rewrite step_var in *.
    destruct ((c =? RBRACE) && is_char RBRACE (head tl)) eqn:Hclose.
    + apply andb_true_iff in Hclose as [Hc1 Hc2].
      apply N.eqb_eq in Hc1 as ->.
      destruct tl as [|d tl']; [done|]. cbn [hd_error is_char] in Hc2.
      apply N.eqb_eq in Hc2 as ->.
      rewrite push_escaped_eq, scan_with_out in *.
      cbn [with_output currentState output stored] in *.
      destruct (IH2 PLAINTEXT [] (cache ++ [Some (lit "{{" ++ buf ++ lit "}}")]))
        as (news & Hstored & Hrestore); [done..|].
      exists ((lit "{{" ++ buf ++ lit "}}") :: news).
      split; [by rewrite Hstored, <- app_assoc|].
      intros pre Hpre. rewrite app_nil_l, join_app.
      cbn [join concat]. rewrite app_nil_r, <- Hpre.
      rewrite replace_placeholders_escaped. cbn [fmap list_fmap].
      erewrite M_bind_returned; [|by apply restoreContent_slot].
      rewrite (cons_middle None pre), (app_assoc pre [None]).
      erewrite M_bind_returned;
        [|apply Hrestore; rewrite !length_app; simpl; lia].
      unfold mret, M_ret. cbn [opened length replicate].
      f_equal; [f_equal|]; by rewrite <- !app_assoc.
    + destruct (IH1 SWIG_VAR (buf ++ [c]) cache) as (news & Hstored & Hrestore);
        [done..|].
      exists news. split; [done|]. intros pre Hpre. rewrite Hrestore by done.
      cbn [opened]. by rewrite <- !app_assoc.
  - done.
  - (* SWIG_TAG *)
    rewrite step_tag in *.
    destruct ((c =? PERCENT) && is_char RBRACE (head tl)) eqn:Hclose.
    + apply andb_true_iff in Hclose as [Hc1 Hc2].
      apply N.eqb_eq in Hc1 as ->.
      destruct tl as [|d tl']; [done|]. cbn [hd_error is_char] in Hc2.
      apply N.eqb_eq in Hc2 as ->.
      rewrite push_escaped_eq, scan_with_out in *.
      cbn [with_output currentState output stored] in *.
      destruct (IH2 PLAINTEXT [] (cache ++ [Some (lit "{%" ++ buf ++ lit "%}")]))
        as (news & Hstored & Hrestore); [done..|].
      exists ((lit "{%" ++ buf ++ lit "%}") :: news).
      split; [by rewrite Hstored, <- app_assoc|].
      intros pre Hpre. rewrite app_nil_l, join_app.
      cbn [join concat]. rewrite app_nil_r, <- Hpre.
      rewrite replace_placeholders_escaped. cbn [fmap list_fmap].
      erewrite M_bind_returned; [|by apply restoreContent_slot].
      rewrite (cons_middle None pre), (app_assoc pre [None]).
      erewrite M_bind_returned;
        [|apply Hrestore; rewrite !length_app; simpl; lia].
      unfold mret, M_ret. cbn [opened length replicate].
      f_equal; [f_equal|]; by rewrite <- !app_assoc.
    + destruct (IH1 SWIG_TAG (buf ++ [c]) cache) as (news & Hstored & Hrestore);
        [done..|].
      exists news. split; [done|]. intros pre Hpre. rewrite Hrestore by done.
      cbn [opened]. by rewrite <- !app_assoc.
Qed.

(** The state the loop ends in depends on the text and on the state it
    starts in only. *)
Lemma scan_with_state f g s : ∀ st buf1 buf2 out1 out2 cache1 cache2,
  currentState (scan_with f (Scanner st buf1 out1 cache1) s)
  = currentState (scan_with g (Scanner st buf2 out2 cache2) s).
Proof.
  induction s as [|c tl IH1 IH2] using skip_ind;
    intros st buf1 buf2 out1 out2 cache1 cache2; [done|].
  rewrite !scan_with_cons.
  destruct st; rewrite ?step_plain, ?step_var, ?step_comment, ?step_tag;
    rewrite ?push_escaped_eq;
    repeat match goal with |- context [if ?b then _ else _] => destruct b end;
    auto.
Qed.

Lemma tags_closed_scan f text buf out cache :
  tags_closed text = true →
  currentState (scan_with f (Scanner PLAINTEXT buf out cache) text) = PLAINTEXT.
Proof.
  unfold tags_closed, scanAll, scan. intros H. apply bool_decide_eq_true in H.
  etrans; [|exact H]. apply scan_with_state.
Qed.

(** In plain text the buffer is empty. *)
Lemma scan_with_buffer f s : ∀ st buf out cache,
  (st = PLAINTEXT → buf = []) →
  currentState (scan_with f (Scanner st buf out cache) s) = PLAINTEXT →
  currentBuffer (scan_with f (Scanner st buf out cache) s) = [].
Proof.
  induction s as [|c tl IH1 IH2] using skip_ind; intros st buf out cache Hbuf.
  { simpl. auto. }
  rewrite !scan_with_cons.
  destruct st; rewrite ?step_plain, ?step_var, ?step_comment, ?step_tag;
    rewrite ?push_escaped_eq;
    repeat match goal with |- context [if ?b then _ else _] => destruct b end;
    first [apply IH1 | apply IH2]; auto; done.
Qed.

(** A text without placeholders is restored to itself, and the table is
    not touched. *)
Lemma replace_placeholders_none flag s cache :
  has_placeholder flag s = false →
  replace_placeholders flag s cache = (Returned s, cache).
Proof.
  induction s as [|c s IH]; intros H; [done|].
  apply has_placeholder_cons in H as [Hm H].
  by rewrite replace_placeholders_copy, IH.
Qed.

(** The scan of a whole text, restored. *)
Lemma scanAll_restore text cache :
  tags_closed text = true →
  has_comment text = false →
  has_placeholder (lit "swig") text = false →
  ∃ news : list jsstring,
    stored (scanAll text cache) = cache ++ (Some <$> news)
    ∧ restoreAllSwigTags (join (output (scanAll text cache)))
        (stored (scanAll text cache))
      = (Returned text, cache ++ replicate (length news) None).
Proof.
  intros Hclosed Hno Hph. unfold scanAll, scan.
  destruct (scan_restore (isFullTag text) text PLAINTEXT [] cache)
    as (news & Hstored & Hrestore);
    auto using tags_closed_scan, has_comment_free.
  exists news. split; [done|]. rewrite Hstored. by apply Hrestore.
Qed.

(** C1, as amended: for every text in which every tag the scanner enters is
    closed, in which it finds no comment tag, and which has no text of the
    form of a swig placeholder, restoring the result of [escapeAllSwigTags] with the table
    that the escape left gives the text back; the entries that the escape
    appended are the ones consumed, whatever the table held before.  This
    covers every such text with a variable tag. *)
Theorem escape_restore_roundtrip (text : jsstring) (cache : table) :
  tags_closed text = true →
  has_comment text = false →
  has_placeholder (lit "swig") text = false →
  ∃ (escaped : jsstring) (news : list jsstring),
    escapeAllSwigTags text cache = (escaped, cache ++ (Some <$> news))
    ∧ restoreAllSwigTags escaped (cache ++ (Some <$> news))
      = (Returned text, cache ++ replicate (length news) None).
Proof.
  intros Hclosed Hno Hph. unfold escapeAllSwigTags.
  destruct (swigTagRegex_test text); cbn [negb].
  - destruct (scanAll_restore text cache) as (news & Hstored & Hrestore);
      [done..|].
    exists (join (output (scanAll text cache))), news.
    rewrite <- Hstored. by split.
  - exists text, []. rewrite !app_nil_r. split; [done|].
    by apply replace_placeholders_none.
Qed.

Lemma escape_restore_roundtrip_witness :
  let text := lit "# {{ title }}{% if a %}<b>{{a}}</b>{% endif %} {x}" in
  includes text (lit "{{ title }}") = true
  ∧ ∃ (escaped : jsstring) (news : list jsstring),
      escapeAllSwigTags text [Some (lit "code")]
      = (escaped, [Some (lit "code")] ++ (Some <$> news))
      ∧ restoreAllSwigTags escaped ([Some (lit "code")] ++ (Some <$> news))
        = (Returned text, [Some (lit "code")] ++ replicate (length news) None).
Proof.
  split; [reflexivity|].
  apply (escape_restore_roundtrip
           (lit "# {{ title }}{% if a %}<b>{{a}}</b>{% endif %} {x}")
           [Some (lit "code")]); reflexivity.
Defined.

(** C1, as stated, fails on a text that also holds a comment: the variable
    tag comes back, the comment does not. *)
Lemma escape_restore_roundtrip_counterexample :
  let text := lit "{{x}}{#c#}" in
  includes text (lit "{{x}}") = true
  ∧ tags_closed text = true
  ∧ escapeAllSwigTags text []
    = (lit "<!--swig" ++ [OBJ] ++ lit "0-->", [Some (lit "{{x}}")])
  ∧ restoreAllSwigTags (lit "<!--swig" ++ [OBJ] ++ lit "0-->")
      [Some (lit "{{x}}")]
    = (Returned (lit "{{x}}"), [None])
  ∧ lit "{{x}}" ≠ text.
Proof. by vm_compute. Qed.

(** Text of the form of a placeholder is the other obstacle to the round
    trip: restoring takes it for a placeholder of the table. *)
Example escape_restore_placeholder_text :
  let text := lit "{{x}}<!--swig" ++ [OBJ] ++ lit "0-->" in
  tags_closed text = true
  ∧ has_comment text = false
  ∧ has_placeholder (lit "swig") text = true
  ∧ ∃ escaped cache,
      escapeAllSwigTags text [] = (escaped, cache)
      ∧ restoreAllSwigTags escaped cache = (Thrown AssertionError, [None]).
Proof. repeat split; try by vm_compute. by eexists _, _. Qed.

(** ** Comments *)

(** The scan of a text with a comment is the scan of the text without it. *)
Lemma scan_with_skip_comment f g pre c post cache :
  tags_closed pre = true → last pre ≠ Some LBRACE →
  includes (c ++ [HASH]) (lit "#}") = false →
  scan_with f (Scanner PLAINTEXT [] [] cache)
    (pre ++ lit "{#" ++ c ++ lit "#}" ++ post)
  = scan_with g (Scanner PLAINTEXT [] [] cache) (pre ++ post).
Proof.
  intros Hclosed Hlast Hc.
  rewrite (scan_with_eq f g).
  rewrite (scan_with_app g pre _ (lit "{#" ++ c ++ lit "#}" ++ post)),
    (scan_with_app g pre _ post) by auto using tags_closed_scan.
  pose proof (tags_closed_scan g pre [] [] cache Hclosed) as Hst.
  pose proof (scan_with_buffer g pre PLAINTEXT [] [] cache
                (λ _, eq_refl) Hst) as Hbuf.
  destruct (scan_with g _ pre) as [st buf out cache'].
  simpl in Hst, Hbuf. subst st buf.
  change (lit "{#" ++ c ++ lit "#}" ++ post)
    with (LBRACE :: HASH :: c ++ lit "#}" ++ post).
  rewrite scan_with_cons, step_plain. cbn [hd_error is_char].
  change (LBRACE =? LBRACE) with true. change (HASH =? LBRACE) with false.
  change (HASH =? HASH) with true. cbn iota.
  by apply scan_with_comment.
Qed.

(** What the scanner does with a comment: when the text passes the tag
    pre-check and the scanner meets the comment opener in plain text (what
    precedes it has its tags closed and does not end on a brace), the
    comment, up to its first [#}], leaves no trace: output and table are
    those of scanning the text with the comment removed, so no placeholder
    and no table entry stand for it; and when the remaining text meets the
    conditions of the round trip, restoring gives that remaining text,
    without the comment. *)
Lemma comment_dropped (pre c post : jsstring) (cache : table) :
  swigTagRegex_test (pre ++ lit "{#" ++ c ++ lit "#}" ++ post) = true →
  tags_closed pre = true →
  last pre ≠ Some LBRACE →
  includes (c ++ [HASH]) (lit "#}") = false →
  escapeAllSwigTags (pre ++ lit "{#" ++ c ++ lit "#}" ++ post) cache
  = (join (output (scanAll (pre ++ post) cache)),
     stored (scanAll (pre ++ post) cache))
  ∧ (tags_closed (pre ++ post) = true →
     has_comment (pre ++ post) = false →
     has_placeholder (lit "swig") (pre ++ post) = false →
     ∃ (escaped : jsstring) (news : list jsstring),
       escapeAllSwigTags (pre ++ lit "{#" ++ c ++ lit "#}" ++ post) cache
       = (escaped, cache ++ (Some <$> news))
       ∧ restoreAllSwigTags escaped (cache ++ (Some <$> news))
         = (Returned (pre ++ post), cache ++ replicate (length news) None)).
Proof.
  intros Htest Hclosed Hlast Hc.
  assert (Hescape :
    escapeAllSwigTags (pre ++ lit "{#" ++ c ++ lit "#}" ++ post) cache
    = (join (output (scanAll (pre ++ post) cache)),
       stored (scanAll (pre ++ post) cache))).
  { unfold escapeAllSwigTags. rewrite Htest. cbn [negb].
    unfold scanAll, scan.
    by rewrite (scan_with_skip_comment _ (isFullTag (pre ++ post))). }
  split; [done|]. intros Hclosed' Hno Hph.
  destruct (scanAll_restore (pre ++ post) cache)
    as (news & Hstored & Hrestore); [done..|].
  exists (join (output (scanAll (pre ++ post) cache))), news.
  rewrite Hescape, <- Hstored. by split.
Qed.

Example comment_dropped_example :
  let pre := lit "a {{x}} " in
  let c := lit " note # {y} " in
  let post := lit " b" in
  escapeAllSwigTags (pre ++ lit "{#" ++ c ++ lit "#}" ++ post) []
  = (join (output (scanAll (pre ++ post) [])),
     stored (scanAll (pre ++ post) []))
  ∧ ∃ (escaped : jsstring) (news : list jsstring),
      escapeAllSwigTags (pre ++ lit "{#" ++ c ++ lit "#}" ++ post) []
      = (escaped, [] ++ (Some <$> news))
      ∧ restoreAllSwigTags escaped ([] ++ (Some <$> news))
        = (Returned (pre ++ post), [] ++ replicate (length news) None).
Proof.
  destruct (comment_dropped (lit "a {{x}} ") (lit " note # {y} ") (lit " b") [])
    as [Hescape Hrestore];
    [reflexivity | reflexivity | by vm_compute | reflexivity |].
  split; [exact Hescape|]. apply Hrestore; reflexivity.
Qed.

(** C4, at the input [{# a #{} #}]: the text is one comment tag, which the
    loop of the scanner drops whole, yet [escapeAllSwigTags] returns the
    text as it is, comment included, and restoring keeps it.  The pre-check
    finds no tag in it: its first alternative wants a pair of braces with no
    brace between them, and its alternatives for a comment and for a block
    tag end on a closing brace that no [#] precedes and on [}%]; they match
    [{# a }] and [{% a }%], not [{# a #}] nor [{% a %}].  The same comment
    is dropped as soon as the text has a tag that the pre-check sees. *)
Theorem comment_not_dropped :
  let text := lit "{# a #{} #}" in
  swigTagRegex_test text = false
  ∧ has_comment text = true
  ∧ currentState (scanAll text []) = PLAINTEXT
  ∧ output (scanAll text []) = []
  ∧ escapeAllSwigTags text [] = (text, [])
  ∧ restoreAllSwigTags text [] = (Returned text, [])
  ∧ includes (escapeAllSwigTags text []).1 (lit " a #{} ") = true
  ∧ escapeAllSwigTags (text ++ lit " {x}") [] = (lit " {x}", [])
  ∧ match_hash (lit "{# a #}") = false
  ∧ match_hash (lit "{# a }") = true
  ∧ match_percent (lit "{% a %}") = false
  ∧ match_percent (lit "{% a }%") = true.
Proof. by vm_compute. Qed.

(** Inside a variable tag or a block tag the opener of comments is part of
    the tag: the tag is stored whole and comes back whole. *)
Example comment_inside_tag_example :
  let text := lit "{{ a {# b #} }}" in
  has_comment text = false
  ∧ escapeAllSwigTags text [] = (swig_placeholder 0, [Some text])
  ∧ restoreAllSwigTags (swig_placeholder 0) [Some text]
    = (Returned text, [None]).
Proof. repeat split; reflexivity. Qed.

(** ** Unclosed tags *)

Lemma app_longer {A} (p q : list A) : q ≠ [] → p ≠ p ++ q.
Proof.
  intros Hq H. apply (f_equal length) in H. rewrite length_app in H.
  destruct q; [done|]. simpl in H. lia.
Qed.

(** C10: a text can pass the tag pre-check and end inside a variable tag or
    a block tag that is never closed; the scan then ends in that tag and the
    opener and everything after it are missing from the output, which is
    the output for the text before the opener; nothing is stored for the
    tag, and restoring gives back the text before the opener, not the
    input. *)
Theorem unclosed_tag_dropped (pre opener x : jsstring) (cache : table) :
  (opener = lit "{{" ∧ includes x (lit "}}") = false)
  ∨ (opener = lit "{%" ∧ includes x (lit "%}") = false) →
  swigTagRegex_test (pre ++ opener ++ x) = true →
  tags_closed pre = true →
  last pre ≠ Some LBRACE →
  has_comment pre = false →
  has_placeholder (lit "swig") pre = false →
  currentState (scanAll (pre ++ opener ++ x) cache) ≠ PLAINTEXT
  ∧ ∃ news : list jsstring,
      escapeAllSwigTags (pre ++ opener ++ x) cache
      = (join (output (scanAll pre cache)), cache ++ (Some <$> news))
      ∧ stored (scanAll pre cache) = cache ++ (Some <$> news)
      ∧ restoreAllSwigTags (join (output (scanAll pre cache)))
          (cache ++ (Some <$> news))
        = (Returned pre, cache ++ replicate (length news) None)
      ∧ pre ≠ pre ++ opener ++ x.
Proof.
  intros Hopen Htest Hclosed Hlast Hno Hph.
  pose proof (tags_closed_scan (isFullTag (pre ++ opener ++ x)) pre [] []
                cache Hclosed) as Hst.
  pose proof (scan_with_buffer _ pre PLAINTEXT [] [] cache
                (λ _, eq_refl) Hst) as Hbuf.
  assert (Hscan : ∃ st buf,
    st ≠ PLAINTEXT
    ∧ scanAll (pre ++ opener ++ x) cache
      = Scanner st buf (output (scanAll pre cache)) (stored (scanAll pre cache))).
  { unfold scanAll, scan.
    rewrite scan_with_app by done.
    rewrite (scan_with_eq (isFullTag pre) (isFullTag (pre ++ opener ++ x))).
    destruct (scan_with _ _ pre) as [st buf out cache'].
    simpl in Hst, Hbuf. subst st buf. cbn [output stored].
    destruct Hopen as [[-> Hx] | [-> Hx]].
    - exists SWIG_VAR, ([] ++ x). split; [done|].
      change (lit "{{" ++ x) with (LBRACE :: LBRACE :: x).
      rewrite scan_with_cons, step_plain. cbn [hd_error is_char].
      change (LBRACE =? LBRACE) with true. cbn iota.
      by apply scan_with_unclosed_var.
    - exists SWIG_TAG, ([] ++ x). split; [done|].
      change (lit "{%" ++ x) with (LBRACE :: PERCENT :: x).
      rewrite scan_with_cons, step_plain. cbn [hd_error is_char].
      change (LBRACE =? LBRACE) with true.
      change (PERCENT =? LBRACE) with false.
      change (PERCENT =? HASH) with false.
      change (PERCENT =? PERCENT) with true. cbn iota.
      by apply scan_with_unclosed_tag. }
  destruct Hscan as (st & buf & Hne & Hscan).
  split; [by rewrite Hscan|].
  destruct (scanAll_restore pre cache) as (news & Hstored & Hrestore);
    [done..|].
  exists news. unfold escapeAllSwigTags. rewrite Htest, Hscan. cbn [negb].
  cbn [output stored]. rewrite <- Hstored. repeat split; try done.
  apply app_longer. by destruct Hopen as [[-> _] | [-> _]].
Qed.

Lemma unclosed_tag_dropped_witness :
  currentState (scanAll (lit "{a} " ++ lit "{{" ++ lit "x") []) ≠ PLAINTEXT
  ∧ ∃ news : list jsstring,
      escapeAllSwigTags (lit "{a} " ++ lit "{{" ++ lit "x") []
      = (join (output (scanAll (lit "{a} ") [])), [] ++ (Some <$> news))
      ∧ stored (scanAll (lit "{a} ") []) = [] ++ (Some <$> news)
      ∧ restoreAllSwigTags (join (output (scanAll (lit "{a} ") [])))
          ([] ++ (Some <$> news))
        = (Returned (lit "{a} "), [] ++ replicate (length news) None)
      ∧ lit "{a} " ≠ lit "{a} " ++ lit "{{" ++ lit "x".
Proof.
  apply (unclosed_tag_dropped (lit "{a} ") (lit "{{") (lit "x") []);
    [left; split; reflexivity | reflexivity | reflexivity | by vm_compute
    | reflexivity | reflexivity].
Defined.

(** The example of C10, evaluated: the output is the four characters before
    the opener, and the table stays empty. *)
Example unclosed_tag_example :
  escapeAllSwigTags (lit "{a} {{x") [] = (lit "{a} ", [])
  ∧ restoreAllSwigTags (lit "{a} ") [] = (Returned (lit "{a} "), [])
  ∧ escapeAllSwigTags (lit "{a} {% if") [] = (lit "{a} ", []).
Proof. by vm_compute. Qed.

(** ** Consistency of restoration *)

(** An escape call hands out the next free index, and no other. *)
Lemma escapeContent_index cache s :
  escapeContent cache (lit "swig") s
  = (swig_placeholder (length cache), cache ++ [Some s]).
Proof. done. Qed.

Lemma restoreContent_absent cache index :
  property cache index = None →
  restoreContent index cache = (Thrown AssertionError, cache).
Proof. unfold restoreContent. by intros ->. Qed.

Lemma property_out_of_range (cache : table) n :
  (length cache ≤ n)%nat → property cache (numberToString n) = None.
Proof.
  intros H. unfold property. rewrite arrayIndex_numberToString.
  cbn [mbind option_bind]. by rewrite lookup_ge_None_2.
Qed.

Lemma restoreContent_Returned cache index value cache' :
  restoreContent index cache = (Returned value, cache') →
  value ≠ []
  ∧ ∃ i, arrayIndex index = Some i ∧ cache !! i = Some (Some value)
         ∧ cache' = <[i := None]> cache.
Proof.
  unfold restoreContent, property, set_null.
  destruct (arrayIndex index) as [i|]; cbn [mbind option_bind]; [|done].
  destruct (cache !! i) as [[v|]|] eqn:Hi; cbn [mjoin option_join]; try done.
  destruct v as [|c v]; [done|]. cbn [truthy default].
  intros [= <- <-]. split; [done|]. by exists i.
Qed.

Lemma restoreContent_twice cache index value cache' (more : table) :
  restoreContent index cache = (Returned value, cache') →
  restoreContent index (cache' ++ more)
  = (Thrown AssertionError, cache' ++ more).
Proof.
  intros H. apply restoreContent_Returned in H as (_ & i & Hi & Hv & ->).
  apply restoreContent_absent. unfold property. rewrite Hi.
  cbn [mbind option_bind]. apply lookup_lt_Some in Hv.
  rewrite lookup_app_l by by rewrite length_insert.
  by rewrite list_lookup_insert_eq.
Qed.

(** C2: restoring an index that no escape call has handed out (the digits
    are not the decimal form of a number, or the number is not below the
    length of the table) fails with the assertion error and leaves the table
    as it was; a restoration that succeeds returns the non-empty text of the
    slot and consumes it, so that restoring the same index again fails with
    the assertion error, also after further escape calls have appended to
    the table; a slot that is missing, consumed or empty is never restored
    as empty text; and a text that starts with a placeholder out of range,
    or in which a placeholder is repeated, makes [restoreAllSwigTags] fail
    in the same way. *)
Theorem restore_consistency :
  (∀ (cache : table) (n : nat),
     (length cache ≤ n)%nat →
     restoreContent (numberToString n) cache = (Thrown AssertionError, cache))
  ∧ (∀ (cache : table) (index : jsstring),
       arrayIndex index = None →
       restoreContent index cache = (Thrown AssertionError, cache))
  ∧ (∀ (cache : table) (index value : jsstring) (cache' more : table),
       restoreContent index cache = (Returned value, cache') →
       value ≠ []
       ∧ property cache index = Some value
       ∧ restoreContent index (cache' ++ more)
         = (Thrown AssertionError, cache' ++ more))
  ∧ (∀ (cache : table) (index : jsstring),
       property cache index = None ∨ property cache index = Some [] →
       restoreContent index cache = (Thrown AssertionError, cache))
  ∧ (∀ (cache : table) (n : nat) (rest : jsstring),
       (length cache ≤ n)%nat →
       restoreAllSwigTags (swig_placeholder n ++ rest) cache
       = (Thrown AssertionError, cache))
  ∧ (∀ (cache : table) (n : nat) (rest : jsstring),
       (restoreAllSwigTags (swig_placeholder n ++ swig_placeholder n ++ rest)
          cache).1
       = Thrown AssertionError).
Proof.
  repeat split.
  - intros cache n Hn.
    by apply restoreContent_absent, property_out_of_range.
  - intros cache index Hi. apply restoreContent_absent.
    unfold property. by rewrite Hi.
  - by apply restoreContent_Returned in H as [? _].
  - apply restoreContent_Returned in H as (_ & i & Hi & Hv & _).
    unfold property. rewrite Hi. cbn [mbind option_bind]. by rewrite Hv.
  - by eapply restoreContent_twice.
  - intros cache index [H | H]; unfold restoreContent; by rewrite H.
  - intros cache n rest Hn. unfold restoreAllSwigTags, swig_placeholder.
    rewrite replace_placeholders_escaped. unfold mbind, M_bind.
    by rewrite restoreContent_absent by by apply property_out_of_range.
  - intros cache n rest. unfold restoreAllSwigTags, swig_placeholder.
    rewrite replace_placeholders_escaped.
    destruct (restoreContent (numberToString n) cache)
      as [[value|e] cache'] eqn:H1.
    + erewrite M_bind_returned by exact H1. unfold mbind, M_bind.
      rewrite replace_placeholders_escaped. unfold mbind, M_bind.
      pose proof (restoreContent_twice _ _ _ _ [] H1) as H2.
      rewrite app_nil_r in H2. by rewrite H2.
    + unfold mbind, M_bind. rewrite H1. unfold restoreContent in H1.
      destruct (truthy _); by inversion H1.
Qed.

Lemma restore_consistency_witness :
  restoreContent (numberToString 2) [Some (lit "{{a}}"); None]
  = (Thrown AssertionError, [Some (lit "{{a}}"); None])
  ∧ restoreContent (lit "00") [Some (lit "{{a}}"); None]
    = (Thrown AssertionError, [Some (lit "{{a}}"); None])
  ∧ restoreContent (lit "0") [Some (lit "{{a}}"); None]
    = (Returned (lit "{{a}}"), [None; None])
  ∧ restoreContent (lit "0") [None; None]
    = (Thrown AssertionError, [None; None])
  ∧ restoreAllSwigTags (swig_placeholder 5 ++ lit "x") [Some (lit "{{a}}")]
    = (Thrown AssertionError, [Some (lit "{{a}}")]).
Proof.
  destruct restore_consistency as (H1 & H2 & H3 & H4 & H5 & H6).
  split; [apply (H1 [Some (lit "{{a}}"); None] 2%nat); simpl; lia|].
  split; [apply (H2 [Some (lit "{{a}}"); None] (lit "00")); reflexivity|].
  split; [reflexivity|].
  split; [apply (H3 [Some (lit "{{a}}"); None] (lit "0") (lit "{{a}}")
                   [None; None] []); reflexivity|].
  apply (H5 [Some (lit "{{a}}")] 5%nat (lit "x")); simpl; lia.
Defined.

(** ** The pre-check, as a set of texts *)

Lemma span_unique f s a b :
  s = a ++ b → Forall (λ c, f c = true) a →
  match b with [] => True | c :: _ => f c = false end →
  span f s = (a, b).
Proof. intros ->. apply span_app. Qed.

Lemma Forall_negb2 (c1 c2 : N) (x : jsstring) :
  Forall (λ c, negb (c =? c1) && negb (c =? c2) = true) x
  ↔ Forall (λ c, c ≠ c1 ∧ c ≠ c2) x.
Proof.
  apply Forall_iff. intros c.
  rewrite andb_true_iff, !negb_true_iff, !N.eqb_neq. done.
Qed.

Lemma Forall_negb1 (c1 : N) (x : jsstring) :
  Forall (λ c, negb (c =? c1) = true) x ↔ Forall (λ c, c ≠ c1) x.
Proof.
  apply Forall_iff. intros c. by rewrite negb_true_iff, N.eqb_neq.
Qed.

Lemma is_char_head c (s : jsstring) :
  is_char c (head s) = true ↔ ∃ r, s = c :: r.
Proof.
  destruct s as [|d s]; cbn [hd_error is_char].
  - split; [done|]. by intros [? ?].
  - rewrite N.eqb_eq. split; [intros ->; eauto|]. by intros [? [= ->]].
Qed.

(** [\{[^{}]+\}] matches at the head of [s] exactly when [s] is a brace, a
    non-empty run without braces, and a closing brace, followed by
    anything. *)
Lemma match_braced_spec s :
  match_braced s = true
  ↔ ∃ x r, s = LBRACE :: x ++ RBRACE :: r ∧ x ≠ []
           ∧ Forall (λ c, c ≠ LBRACE ∧ c ≠ RBRACE) x.
Proof.
  unfold match_braced. split.
  - destruct s as [|c s]; [done|].
    destruct (span _ s) as [run r'] eqn:Hspan.
    rewrite !andb_true_iff, N.eqb_eq, negb_true_iff, bool_decide_eq_false,
      is_char_head.
    intros (-> & Hne & [r ->]). exists run, r.
    pose proof (span_Forall _ _ _ _ Hspan) as Hrun.
    apply span_app_eq in Hspan as ->. by rewrite <- Forall_negb2.
  - intros (x & r & -> & Hne & Hx).
    rewrite (span_unique _ _ x (RBRACE :: r)); [|done|by apply Forall_negb2|done].
    rewrite bool_decide_eq_false_2 by done. done.
Qed.

(** [\{#[^\}\#]+\}] *)
Lemma match_hash_spec s :
  match_hash s = true
  ↔ ∃ x r, s = LBRACE :: HASH :: x ++ RBRACE :: r ∧ x ≠ []
           ∧ Forall (λ c, c ≠ RBRACE ∧ c ≠ HASH) x.
Proof.
  unfold match_hash. split.
  - destruct (strip_prefix _ s) as [r0|] eqn:Hpre; [|done].
    apply strip_prefix_Some in Hpre as ->.
    destruct (span _ r0) as [run r'] eqn:Hspan.
    rewrite !andb_true_iff, negb_true_iff, bool_decide_eq_false, is_char_head.
    intros (Hne & [r ->]). exists run, r.
    pose proof (span_Forall _ _ _ _ Hspan) as Hrun.
    apply span_app_eq in Hspan as ->. by rewrite <- Forall_negb2.
  - intros (x & r & -> & Hne & Hx).
    change (LBRACE :: HASH :: x ++ RBRACE :: r)
      with ([LBRACE; HASH] ++ x ++ RBRACE :: r).
    rewrite strip_prefix_app.
    rewrite (span_unique _ _ x (RBRACE :: r)); [|done|by apply Forall_negb2|done].
    rewrite bool_decide_eq_false_2 by done. done.
Qed.

(** [\{%[^\%]+\}%] *)
Lemma match_percent_spec s :
  match_percent s = true
  ↔ ∃ x r, s = LBRACE :: PERCENT :: x ++ RBRACE :: PERCENT :: r ∧ x ≠ []
           ∧ Forall (λ c, c ≠ PERCENT) x.
Proof.
  unfold match_percent. split.
  - destruct (strip_prefix _ s) as [r0|] eqn:Hpre; [|done].
    apply strip_prefix_Some in Hpre as ->.
    destruct (span _ r0) as [run r'] eqn:Hspan.
    destruct (reverse run) as [|last before] eqn:Hrev; [done|].
    rewrite !andb_true_iff, negb_true_iff, bool_decide_eq_false, N.eqb_eq,
      is_char_head.
    intros ((Hne & ->) & [r ->]).
    apply (f_equal reverse) in Hrev. rewrite reverse_involutive in Hrev.
    rewrite reverse_cons in Hrev. subst run.
    pose proof (span_Forall _ _ _ _ Hspan) as Hrun.
    apply span_app_eq in Hspan as ->.
    apply Forall_app in Hrun as [Hrun _].
    exists (reverse before), r. split; [by rewrite <- app_assoc|].
    split; [|by apply Forall_negb1].
    intros Hnil. apply Hne. apply (f_equal reverse) in Hnil.
    by rewrite reverse_involutive in Hnil.
  - intros (x & r & -> & Hne & Hx).
    change (LBRACE :: PERCENT :: x ++ RBRACE :: PERCENT :: r)
      with ([LBRACE; PERCENT] ++ x ++ [RBRACE] ++ PERCENT :: r).
    rewrite strip_prefix_app, (app_assoc x).
    rewrite (span_unique _ _ (x ++ [RBRACE]) (PERCENT :: r)); [|done| |done].
    + rewrite reverse_app. cbn [reverse rev_append app].
      rewrite bool_decide_eq_false_2; [done|].
      intros Hnil. apply Hne. apply (f_equal reverse) in Hnil.
      by rewrite reverse_involutive in Hnil.
    + apply Forall_app. split; [by apply Forall_negb1|]. by repeat constructor.
Qed.

(** The test succeeds exactly when an alternative matches somewhere. *)
Lemma swigTagRegex_test_spec s :
  swigTagRegex_test s = true ↔ ∃ pre m, s = pre ++ m ∧ match_tag m = true.
Proof.
  split.
  - induction s as [|c s IH]; cbn [swigTagRegex_test];
      rewrite orb_true_iff; intros [Hm|Hs].
    + by exists [], [].
    + done.
    + by exists [], (c :: s).
    + destruct (IH Hs) as (pre & m & -> & Hm). by exists (c :: pre), m.
  - intros (pre & m & -> & Hm). induction pre as [|c pre IH].
    + destruct m; cbn [app swigTagRegex_test]; by rewrite Hm.
    + cbn [app swigTagRegex_test]. rewrite IH. apply orb_true_r.
Qed.

(** ** Front matter *)

Section FrontMatterProperties.
Context `{Collaborators}.





End FrontMatterProperties.


(** A [#] that is not the first character does not make a string quoted
    either. *)
Example prepareFrontMatter_hash_example :
  @prepareItem example_site false (VString (lit "a#b")) = VString (lit "a#b")
  ∧ @prepareItem example_site false (VString (lit "#a"))
    = VString (quoted (lit "#a"))
  ∧ @prepareItem example_site true (VString (lit "a"))
    = VString (quoted (lit "a"))
  ∧ @prepareItem example_site false (VMoment 0)
    = VString (lit "2013-01-02 03:04:05").
Proof. repeat split; reflexivity. Qed.


(** ** The merge of metadata into the parsed front matter *)

Lemma merge_fold_lookup (data : object) keys : ∀ (o : object) k,
  foldl (λ o key, <[key := get data key]> o) o keys !! k
  = if decide (k ∈ keys) then Some (get data k) else o !! k.
Proof.
  induction keys as [|key keys IH]; intros o k; cbn [foldl].
  - rewrite decide_False; [done|]. apply not_elem_of_nil.
  - rewrite IH. destruct (decide (k ∈ keys)) as [Hin|Hin].
    + rewrite decide_True; [done|]. rewrite elem_of_cons. tauto.
    + destruct (decide (k = key)) as [->|Hne].
      * rewrite decide_True by (rewrite elem_of_cons; tauto).
        by rewrite lookup_insert_eq.
      * rewrite decide_False by (rewrite elem_of_cons; tauto).
        by rewrite lookup_insert_ne.
Qed.

Lemma elem_of_merge_keys (obj data : object) k :
  k ∈ merge_keys obj data
  ↔ (k ∉ preservedKeys) ∧ nullish (get_inherited obj k) = true
    ∧ is_Some (data !! k).
Proof.
  unfold merge_keys. rewrite list_elem_of_In, filter_In, <- list_elem_of_In.
  rewrite andb_true_iff, negb_true_iff, bool_decide_eq_false.
  rewrite list_elem_of_fmap.
  split.
  - intros [([k' v] & -> & Hv) [? ?]]. apply elem_of_map_to_list in Hv.
    repeat split; eauto.
  - intros (? & ? & [v Hv]). split; [|done].
    exists (k, v). split; [done|]. by apply elem_of_map_to_list.
Qed.

Lemma mergeMetadata_lookup (obj data : object) k :
  mergeMetadata obj data !! k
  = if decide (k ∈ merge_keys obj data) then data !! k else obj !! k.
Proof.
  unfold mergeMetadata. rewrite merge_fold_lookup.
  destruct (decide (k ∈ merge_keys obj data)) as [Hin|]; [|done].
  apply elem_of_merge_keys in Hin as (_ & _ & [v Hv]).
  unfold get. by rewrite Hv.
Qed.

(** C6: a reserved field name ([title], [slug], [path], [layout], [date],
    [content]) is never among the keys that the merge step of
    [_renderScaffold] copies from the metadata.  At such a key the merged
    object holds what the parsed front matter held there, if anything, and
    supplying or changing that field in the metadata changes nothing in the
    merged object. *)
Theorem merge_skips_reserved (obj data : object) (key : jsstring) :
  key ∈ preservedKeys →
  (key ∉ merge_keys obj data)
  ∧ mergeMetadata obj data !! key = obj !! key
  ∧ ∀ v, mergeMetadata obj (<[key := v]> data) = mergeMetadata obj data.
Proof.
  intros Hkey.
  assert (Hnot : ∀ d, key ∉ merge_keys obj d).
  { intros d Hin. apply elem_of_merge_keys in Hin as (? & _). done. }
  split; [done|]. split.
  - rewrite mergeMetadata_lookup. by rewrite decide_False.
  - intros v. apply map_eq. intros k. rewrite !mergeMetadata_lookup.
    destruct (decide (k = key)) as [->|Hne].
    + by rewrite !decide_False.
    + rewrite lookup_insert_ne by done.
      destruct (decide (k ∈ merge_keys obj data)) as [Hin|Hin].
      * rewrite decide_True; [done|].
        apply elem_of_merge_keys. apply elem_of_merge_keys in Hin.
        by rewrite lookup_insert_ne.
      * rewrite decide_False; [done|]. intros Hin'. apply Hin.
        apply elem_of_merge_keys. apply elem_of_merge_keys in Hin'.
        by rewrite lookup_insert_ne in Hin'.
Qed.

Lemma merge_skips_reserved_witness :
  let obj : object := {[ lit "title" := VString (lit "From the scaffold") ]} in
  let data : object :=
    {[ lit "title" := VString (lit "Mine"); lit "tags" := VString (lit "a") ]} in
  (lit "title" ∉ merge_keys obj data)
  ∧ mergeMetadata obj data !! lit "title" = obj !! lit "title"
  ∧ ∀ v, mergeMetadata obj (<[lit "title" := v]> data) = mergeMetadata obj data.
Proof.
  apply (merge_skips_reserved
           {[ lit "title" := VString (lit "From the scaffold") ]}
           {[ lit "title" := VString (lit "Mine");
              lit "tags" := VString (lit "a") ]}
           (lit "title")).
  apply (bool_decide_unpack _). by vm_compute.
Defined.

(** ** Programs and their calls *)

Lemma calls_satisfy_bind P {A B} (m : prog A) (f : A → prog B) :
  calls_satisfy P m → (∀ a, calls_satisfy P (f a)) →
  calls_satisfy P (m ≫= f).
Proof.
  intros Hm Hf. unfold mbind, prog_mbind.
  induction m as [a|e|X o k IH]; cbn [prog_bind calls_satisfy] in *; auto.
  destruct Hm as [Ho Hk]. split; auto.
Qed.

Lemma run_calls_satisfy P {W} (perform : ∀ X, op X → W → outcome X * W)
    {A} (p : prog A) :
  calls_satisfy P p → ∀ w, Forall P (run perform p w).2.
Proof.
  induction p as [a|e|X o k IH]; intros Hp w; cbn [run].
  - constructor.
  - constructor.
  - destruct Hp as [Ho Hk].
    destruct (perform X o w) as [[x|e] w'].
    + specialize (IH x (Hk x) w').
      destruct (run perform (k x) w') as [[r w''] trace]. by constructor.
    + by repeat constructor.
Qed.

Lemma get_insert_eq (o : object) k v : get (<[k := v]> o) k = v.
Proof. unfold get. by rewrite lookup_insert_eq. Qed.

Lemma get_insert_ne (o : object) k k' v :
  k ≠ k' → get (<[k := v]> o) k' = get o k'.
Proof. intros. unfold get. by rewrite lookup_insert_ne. Qed.

(** ** publish *)

Section PublishProperties.
Context `{Collaborators}.
Context {W : Type} (perform : ∀ X, op X → W → outcome X * W).

Lemma draft_regex_test_prefix slug item :
  draft_regex_test slug item = true → startsWith item slug = true.
Proof.
  unfold draft_regex_test, startsWith.
  by destruct (strip_prefix slug item).
Qed.

Lemma find_no_draft slug (list : list jsstring) :
  Forall (λ item, startsWith item slug = false) list →
  List.find (draft_regex_test slug) list = None.
Proof.
  induction 1 as [|item list Hitem _ IH]; [done|]. cbn [List.find].
  destruct (draft_regex_test slug item) eqn:E; [|done].
  apply draft_regex_test_prefix in E. congruence.
Qed.

(** C7: when the slug of the metadata has the string form [s], the layout,
    or the default layout in its place, is a string, and the listing of the
    drafts directory succeeds with no entry that starts with the slugized
    [s], then [publish] fails with the error that says that the draft of
    that slug does not exist, the slug being part of the message; the
    listing is the one call performed, so that nothing is written, deleted,
    copied or removed. *)
Theorem publish_draft_not_found (data : object) (replace : bool)
    (s layout : jsstring) (w w' : W) (list : list jsstring) :
  let slug := slugize s filename_case in
  let draftDir := path_join source_dir (lit "_drafts") in
  toString_method (get data (lit "slug")) = Returned s →
  value_or (get data (lit "layout")) default_layout = VString layout →
  perform _ (ListDir draftDir) w = (Returned list, w') →
  Forall (λ item, startsWith item slug = false) list →
  run perform (publish data replace) w
  = (Thrown (Error (not_found_message slug)), w', [Performed (ListDir draftDir)])
  ∧ includes (not_found_message slug) slug = true
  ∧ Forall (λ c, is_write c = false) [Performed (ListDir draftDir)].
Proof.
  intros slug draftDir Hslug Hlayout Hlist Hnone.
  split; [|split].
  - unfold publish.
    set (data1 := if bool_decide _ then _ else data).
    assert (Hslug1 : get data1 (lit "slug") = get data (lit "slug")).
    { subst data1. case_bool_decide; [|done].
      by rewrite get_insert_ne by by vm_compute. }
    assert (Hlayout1 : ∃ l, value_or (get data1 (lit "layout")) default_layout
                            = VString l).
    { subst data1. case_bool_decide; [|by eauto].
      rewrite get_insert_eq. by eexists. }
    destruct Hlayout1 as [l Hl].
    rewrite Hslug1, Hslug. cbn [lift mbind prog_mbind prog_bind].
    rewrite get_insert_ne by by vm_compute.
    rewrite Hl. cbn [toLowerCase_method lift mbind prog_mbind prog_bind call run].
    fold draftDir. rewrite Hlist. fold slug.
    rewrite find_no_draft by done. done.
  - unfold not_found_message. rewrite app_assoc. apply includes_middle.
  - by repeat constructor.
Qed.

End PublishProperties.

Lemma publish_draft_not_found_witness :
  let data : object := {[ lit "slug" := VString (lit "my-post") ]} in
  run example_perform (@publish example_site data false) tt
  = (Thrown (Error (not_found_message (lit "my-post"))), tt,
     [Performed (ListDir (lit "source/_drafts"))])
  ∧ includes (not_found_message (lit "my-post")) (lit "my-post") = true
  ∧ Forall (λ c, is_write c = false)
      [Performed (ListDir (lit "source/_drafts"))].
Proof.
  apply (@publish_draft_not_found example_site unit example_perform
           {[ lit "slug" := VString (lit "my-post") ]} false
           (lit "my-post") (lit "post") tt tt [lit "hello-world.md"]).
  - reflexivity.
  - reflexivity.
  - reflexivity.
  - repeat constructor.
Defined.

(** ** render *)

Section RenderProperties.
Context `{Collaborators}.

Lemma render_promise_None source data :
  render_promise source data = None
  ↔ nullish (get data (lit "content")) = true ∧ source_given source = false.
Proof.
  unfold render_promise.
  destruct (nullish (get data (lit "content"))), (source_given source);
    cbn [negb]; split; try done; intros [? ?]; done.
Qed.

(** Once the content is there, the first thing [render] does is a call:
    it does not throw by itself. *)
Lemma render_not_thrown source data promise e :
  render_promise source data = Some promise →
  render source data ≠ Throw e.
Proof.
  intros Hp. unfold render. rewrite Hp.
  unfold render_promise in Hp.
  destruct (nullish (get data (lit "content"))); cbn [negb] in Hp.
  - destruct (source_given source); [|done]. injection Hp as <-.
    by destruct (negb _).
  - injection Hp as <-. by destruct (negb _).
Qed.

Lemma render_inline_calls source data :
  nullish (get data (lit "content")) = false →
  calls_satisfy (λ c, is_read_file c = false) (render source data).
Proof.
  intros Hcontent. unfold render, render_promise. rewrite Hcontent.
  cbn [negb].
  repeat first
    [ progress cbn [calls_satisfy mbind prog_mbind prog_bind call lift
                    mret prog_ret]
    | split | intros ? | done
    | match goal with
      | |- context [lift ?r] => destruct r
      end
    | case_match ].
Qed.

Lemma insert_get_id (o : object) (key : jsstring) :
  nullish (get o key) = false → <[key := get o key]> o = o.
Proof.
  unfold get. destruct (o !! key) as [v|] eqn:Hv; [|done].
  intros _. by apply insert_id.
Qed.

(** C9: [render] fails with the error [No input file or string!] exactly
    when [data.content] is [null] or [undefined] and [source] is missing or
    empty, and it throws nothing else before its first call.  When
    [data.content] is there, it is the content the pipeline starts from,
    whether or not a source path is given, and in no world is a file read:
    for a post, the first call of [render] is the [before_post_render] hook
    on the metadata with that content; for another file, [render] logs,
    gives that content to the renderer as its text, and returns the
    metadata with what the renderer made of it for content.  Only when
    [data.content] is missing is the source read, first of all. *)
Theorem render_no_input (source : option jsstring) (data : object) :
  (render source data = Throw no_input
   ↔ nullish (get data (lit "content")) = true ∧ source_given source = false)
  ∧ (∀ e, render source data = Throw e → e = no_input)
  ∧ (nullish (get data (lit "content")) = false →
     render_promise source data = Some (Ret (get data (lit "content")))
     ∧ ∀ (W : Type) (perform : ∀ X, op X → W → outcome X * W) (w : W),
         Forall (λ c, is_read_file c = false)
           (run perform (render source data) w).2)
  ∧ (nullish (get data (lit "content")) = false →
     let isPost :=
       negb (value_truthy (get data (lit "source")))
       || bool_decide (getOutput (get data (lit "source"))
                         ∈ [lit "html"; lit "htm"]) in
     let options := {| text := get data (lit "content");
                       render_path := source;
                       render_engine := get data (lit "engine") |} in
     if isPost
     then ∃ k, render source data = Do (BeforePostRender data) k
     else render source data
          = (_ ← call (LogDebug (lit "Rendering file: %s") source);
             content ← call (Render options None);
             content ← call (RenderEnd options content);
             Ret (<[lit "content" := VString content]> data)))
  ∧ (nullish (get data (lit "content")) = true →
     ∀ file, source = Some file → file ≠ [] →
     ∃ k, render source data = Do (ReadFile file) k).
Proof.
  split; [|split; [|split; [|split]]].
  - rewrite <- render_promise_None. split.
    + intros Hr. destruct (render_promise source data) eqn:Hp; [|done].
      by eapply render_not_thrown in Hr.
    + intros Hp. unfold render. by rewrite Hp.
  - intros e Hr. destruct (render_promise source data) eqn:Hp.
    + by eapply render_not_thrown in Hr.
    + unfold render in Hr. rewrite Hp in Hr. by injection Hr as <-.
  - intros Hcontent. split.
    + unfold render_promise. by rewrite Hcontent.
    + intros W perform w. by apply run_calls_satisfy, render_inline_calls.
  - intros Hcontent. cbn zeta. unfold render, render_promise.
    rewrite Hcontent. cbn [negb].
    destruct (negb (value_truthy (get data (lit "source"))) || _);
      cbn [negb mbind prog_mbind prog_bind call mret prog_ret];
      rewrite (insert_get_id data (lit "content") Hcontent).
    + by eexists.
    + done.
  - intros Hnull file -> Hfile. unfold render, render_promise.
    rewrite Hnull. destruct file as [|c file]; [done|].
    cbn [negb source_given default].
    destruct (negb (negb (value_truthy (get data (lit "source"))) || _));
      by eexists.
Qed.

End RenderProperties.

Lemma render_no_input_witness :
  let inline : object := {[ lit "content" := VString (lit "inline") ]} in
  @render example_site None ∅ = Throw no_input
  ∧ @render example_site (Some []) ∅ = Throw no_input
  ∧ render_promise (Some (lit "a.md")) inline
    = Some (Ret (VString (lit "inline")))
  ∧ Forall (λ c, is_read_file c = false)
      (run example_perform (@render example_site (Some (lit "a.md")) inline)
         tt).2
  ∧ (∃ k, @render example_site (Some (lit "a.md")) inline
          = Do (BeforePostRender inline) k)
  ∧ ∃ k, @render example_site (Some (lit "a.md")) ∅
         = Do (ReadFile (lit "a.md")) k.
Proof.
  intros inline. split; [|split; [|split; [|split; [|split]]]].
  - apply (proj1 (@render_no_input example_site None ∅)). by split.
  - apply (proj1 (@render_no_input example_site (Some []) ∅)). by split.
  - by apply (proj2 (proj2 (@render_no_input example_site
                              (Some (lit "a.md")) inline))).
  - by apply (proj2 (proj2 (@render_no_input example_site
                              (Some (lit "a.md")) inline))).
  - exact (proj1 (proj2 (proj2 (proj2 (@render_no_input example_site
                                  (Some (lit "a.md")) inline)))) eq_refl).
  - apply (proj2 (proj2 (proj2 (proj2 (@render_no_input example_site
                                  (Some (lit "a.md")) ∅)))));
      [reflexivity|reflexivity|by vm_compute].
Defined.

(** ** The programs on examples *)

(** With a draft of that slug in the directory, [publish] goes on to read
    it. *)
Example publish_found_example :
  run example_perform
    (@publish example_site {[ lit "slug" := VString (lit "hello-world") ]} false)
    tt
  = (Thrown (Error (lit "not available")), tt,
     [Performed (ListDir (lit "source/_drafts"));
      Performed (ReadFile (lit "source/_drafts/hello-world.md"))]).
Proof. reflexivity. Qed.

(** Without a slug, [publish] throws before any call. *)
Example publish_no_slug_example :
  run example_perform (@publish example_site ∅ false) tt
  = (Thrown TypeError, tt, []).
Proof. reflexivity. Qed.

(** Without inline content, [render] reads the source; with it, the first
    call is the hook before rendering. *)
Example render_source_example :
  (run example_perform (@render example_site (Some (lit "a.md")) ∅) tt).2
  = [Performed (ReadFile (lit "a.md"))]
  ∧ (run example_perform
       (@render example_site (Some (lit "a.md"))
          {[ lit "content" := VString (lit "inline") ]}) tt).2
    = [Performed
         (BeforePostRender {[ lit "content" := VString (lit "inline") ]})].
Proof. split; [reflexivity|]. vm_compute. reflexivity. Qed.

(** * Further properties *)

(** ** Code blocks *)

Lemma until_close_Some s inner rest :
  until_close s = Some (inner, rest) → s = inner ++ CODE_CLOSE ++ rest.
Proof.
  revert inner rest; induction s as [|c s IH]; intros inner rest.
  - cbn. done.
  - cbn [until_close].
    destruct (strip_prefix CODE_CLOSE (c :: s)) as [r|] eqn:Hc.
    + intros [= <- <-]. by apply strip_prefix_Some in Hc.
    + destruct (until_close s) as [[i r]|]; [|done]. cbn.
      intros [= <- <-]. by rewrite (IH i r).
Qed.

Lemma until_close_first s inner rest :
  until_close s = Some (inner, rest) →
  ∀ a b, inner = a ++ b → b ≠ [] →
    startsWith (b ++ CODE_CLOSE ++ rest) CODE_CLOSE = false.
Proof.
  revert inner rest; induction s as [|c s IH]; intros inner rest.
  - cbn. done.
  - cbn [until_close].
    destruct (strip_prefix CODE_CLOSE (c :: s)) as [r|] eqn:Hc.
    + intros [= <- <-] a b Hab Hb. by destruct a, b.
    + destruct (until_close s) as [[i r]|] eqn:Hs; [|done]. cbn.
      intros [= <- <-] a b Hab Hb. destruct a as [|x a].
      * cbn in Hab. subst b. unfold startsWith.
        apply until_close_Some in Hs. rewrite <- app_comm_cons, <- Hs.
        by rewrite Hc.
      * injection Hab as <- Hab. by eapply IH.
Qed.

Lemma until_close_intro inner rest :
  (∀ a b, inner = a ++ b → b ≠ [] →
     startsWith (b ++ CODE_CLOSE ++ rest) CODE_CLOSE = false) →
  until_close (inner ++ CODE_CLOSE ++ rest) = Some (inner, rest).
Proof.
  induction inner as [|c inner IH]; intros Hfirst.
  - cbn [app]. destruct (CODE_CLOSE ++ rest) eqn:E; [done|].
    cbn [until_close]. rewrite <- E. by rewrite strip_prefix_app.
  - cbn [app until_close].
    specialize (Hfirst [] (c :: inner) eq_refl ltac:(done)) as Hc.
    unfold startsWith in Hc. cbn [app] in Hc.
    destruct (strip_prefix CODE_CLOSE (c :: inner ++ CODE_CLOSE ++ rest));
      [done|].
    rewrite IH; [done|].
    intros a b -> Hb. by apply (Hfirst (c :: a) b).
Qed.

(** What a match of the code block pattern tells about the text. *)
Lemma rHexoPostRenderEscape_Some (s inner rest : jsstring) :
  rHexoPostRenderEscape s = Some (inner, rest) →
  s = CODE_OPEN ++ inner ++ CODE_CLOSE ++ rest ∧ inner ≠ [].
Proof.
  unfold rHexoPostRenderEscape.
  destruct (strip_prefix CODE_OPEN s) as [r|] eqn:Ho; [cbn|done].
  apply strip_prefix_Some in Ho as ->.
  destruct r as [|c r]; [done|].
  destruct (until_close r) as [[i r']|] eqn:Hr; [cbn|done].
  intros [= <- <-]. split; [|done].
  apply until_close_Some in Hr. by rewrite Hr.
Qed.

(** X1: the pattern of code blocks matches at the head of a text exactly
    when the text is the opening marker, a content that is not empty, the
    closing marker and a rest, and no closing marker begins inside the
    content after its first character.  So the content of a block is never
    empty, and it ends at the first closing marker that leaves it so; a
    block with nothing between its markers is not a match by itself. *)
Theorem code_block_match (s inner rest : jsstring) :
  (rHexoPostRenderEscape s = Some (inner, rest)
   ↔ s = CODE_OPEN ++ inner ++ CODE_CLOSE ++ rest
     ∧ inner ≠ []
     ∧ ∀ a b, inner = a ++ b → a ≠ [] → b ≠ [] →
         startsWith (b ++ CODE_CLOSE ++ rest) CODE_CLOSE = false)
  ∧ rHexoPostRenderEscape (CODE_OPEN ++ CODE_CLOSE) = None.
Proof.
  split; [|reflexivity]. split.
  - intros Hm.
    destruct (rHexoPostRenderEscape_Some _ _ _ Hm) as [Heq Hne].
    split; [done|]. split; [done|].
    unfold rHexoPostRenderEscape in Hm. subst s.
    rewrite strip_prefix_app in Hm. cbn in Hm.
    destruct inner as [|c inner]; [done|]. cbn [app] in Hm.
    destruct (until_close (inner ++ CODE_CLOSE ++ rest)) as [[i r']|] eqn:Hr;
      [cbn in Hm|done].
    injection Hm as <- <-.
    intros a b Hab Ha Hb. destruct a as [|x a]; [done|].
    injection Hab as _ Hab. by eapply until_close_first.
  - intros (-> & Hne & Hfirst). unfold rHexoPostRenderEscape.
    rewrite strip_prefix_app. cbn.
    destruct inner as [|c inner]; [done|]. cbn [app].
    rewrite until_close_intro; [done|].
    intros a b -> Hb. by apply (Hfirst (c :: a) b).
Qed.

Lemma rHexoPostRenderEscape_shorter s inner rest :
  rHexoPostRenderEscape s = Some (inner, rest) → (length rest < length s)%nat.
Proof.
  intros H. apply rHexoPostRenderEscape_Some in H as (-> & _).
  rewrite !length_app. unfold CODE_OPEN. eval_lits. simpl. lia.
Qed.

Lemma escapeCodeBlocks_fuel_enough f1 : ∀ f2 s cache,
  (length s ≤ f1)%nat → (length s ≤ f2)%nat →
  escapeCodeBlocks_fuel f1 s cache = escapeCodeBlocks_fuel f2 s cache.
Proof.
  induction f1 as [|f1 IH]; intros f2 s cache H1 H2.
  - destruct s; [|simpl in H1; lia]. by destruct f2.
  - destruct s as [|c tl]; [by destruct f2|].
    destruct f2 as [|f2]; [simpl in H2; lia|].
    simpl in H1, H2. cbn [escapeCodeBlocks_fuel].
    destruct (rHexoPostRenderEscape (c :: tl)) as [[inner rest]|] eqn:Hm.
    + apply rHexoPostRenderEscape_shorter in Hm. simpl in Hm.
      destruct (escapeContent cache (lit "code") inner) as [p cache1].
      by rewrite (IH f2) by lia.
    + by rewrite (IH f2) by lia.
Qed.

Lemma escapeCodeBlocks_cons c tl cache :
  escapeCodeBlocks (c :: tl) cache
  = match rHexoPostRenderEscape (c :: tl) with
    | Some (inner, rest) =>
        let '(placeholder, cache) := escapeContent cache (lit "code") inner in
        let '(r, cache) := escapeCodeBlocks rest cache in
        (placeholder ++ r, cache)
    | None =>
        let '(r, cache) := escapeCodeBlocks tl cache in (c :: r, cache)
    end.
Proof.
  unfold escapeCodeBlocks. cbn [length escapeCodeBlocks_fuel].
  destruct (rHexoPostRenderEscape (c :: tl)) as [[inner rest]|] eqn:Hm; [|done].
  apply rHexoPostRenderEscape_shorter in Hm. simpl in Hm.
  destruct (escapeContent cache (lit "code") inner) as [p cache1].
  by rewrite (escapeCodeBlocks_fuel_enough (length tl) (length rest)) by lia.
Qed.

Lemma unwrapCodeBlocks_fuel_enough f1 : ∀ f2 s,
  (length s ≤ f1)%nat → (length s ≤ f2)%nat →
  unwrapCodeBlocks_fuel f1 s = unwrapCodeBlocks_fuel f2 s.
Proof.
  induction f1 as [|f1 IH]; intros f2 s H1 H2.
  - destruct s; [|simpl in H1; lia]. by destruct f2.
  - destruct s as [|c tl]; [by destruct f2|].
    destruct f2 as [|f2]; [simpl in H2; lia|].
    simpl in H1, H2. cbn [unwrapCodeBlocks_fuel].
    destruct (rHexoPostRenderEscape (c :: tl)) as [[inner rest]|] eqn:Hm.
    + apply rHexoPostRenderEscape_shorter in Hm. simpl in Hm.
      by rewrite (IH f2) by lia.
    + by rewrite (IH f2) by lia.
Qed.

Lemma unwrapCodeBlocks_cons c tl :
  unwrapCodeBlocks (c :: tl)
  = match rHexoPostRenderEscape (c :: tl) with
    | Some (inner, rest) => inner ++ unwrapCodeBlocks rest
    | None => c :: unwrapCodeBlocks tl
    end.
Proof.
  unfold unwrapCodeBlocks. cbn [length unwrapCodeBlocks_fuel].
  destruct (rHexoPostRenderEscape (c :: tl)) as [[inner rest]|] eqn:Hm; [|done].
  apply rHexoPostRenderEscape_shorter in Hm. simpl in Hm.
  by rewrite (unwrapCodeBlocks_fuel_enough (length tl) (length rest)) by lia.
Qed.

(** A match of the code block pattern needs both markers. *)
Lemma rHexoPostRenderEscape_markers s inner rest :
  rHexoPostRenderEscape s = Some (inner, rest) →
  includes s CODE_OPEN = true ∧ includes s CODE_CLOSE = true.
Proof.
  intros H. apply rHexoPostRenderEscape_Some in H as (-> & _). split.
  - apply (includes_middle []).
  - rewrite app_assoc. apply includes_middle.
Qed.

Lemma includes_tail_false c s p :
  includes (c :: s) p = false → includes s p = false.
Proof. intros H. by apply includes_cons_false in H as [_ ?]. Qed.

(** X2: a text that lacks the opening marker of code blocks, or lacks the
    closing marker, is returned by [escapeCodeBlocks] as it is, and the
    table is left as it was. *)
Theorem escapeCodeBlocks_no_marker (s : jsstring) (cache : table) :
  includes s CODE_OPEN = false ∨ includes s CODE_CLOSE = false →
  escapeCodeBlocks s cache = (s, cache).
Proof.
  induction s as [|c s IH]; intros Hno; [done|].
  rewrite escapeCodeBlocks_cons.
  destruct (rHexoPostRenderEscape (c :: s)) as [[inner rest]|] eqn:Hm.
  - apply rHexoPostRenderEscape_markers in Hm as [H1 H2].
    destruct Hno; congruence.
  - rewrite IH; [done|].
    destruct Hno as [H|H]; [left|right]; by eapply includes_tail_false.
Qed.

Lemma escapeCodeBlocks_no_marker_witness :
  includes (lit "a <hexoPostRenderCodeBlock>b {{ c }}") CODE_CLOSE = false
  ∧ escapeCodeBlocks (lit "a <hexoPostRenderCodeBlock>b {{ c }}")
      [Some (lit "x")]
    = (lit "a <hexoPostRenderCodeBlock>b {{ c }}", [Some (lit "x")]).
Proof.
  split; [reflexivity|].
  apply (escapeCodeBlocks_no_marker
           (lit "a <hexoPostRenderCodeBlock>b {{ c }}") [Some (lit "x")]).
  right. reflexivity.
Defined.

Lemma code_safe : Forall safe (lit "code").
Proof. repeat constructor; by vm_compute. Qed.

Lemma has_placeholder_app flag a b :
  has_placeholder flag (a ++ b) = false → has_placeholder flag b = false.
Proof.
  induction a as [|c a IH]; [done|]. cbn [app]. intros H.
  apply has_placeholder_cons in H as [_ H]. auto.
Qed.

(** Text free of [<] that begins the output of [escapeCodeBlocks] begins
    the input. *)
Lemma code_safe_prefix M : ∀ tl cache X,
  Forall safe M → (escapeCodeBlocks tl cache).1 = M ++ X → ∃ r', tl = M ++ r'.
Proof.
  induction M as [|m M IH]; intros tl cache X HM Hout; [by exists tl|].
  apply Forall_cons in HM as [[_ Hm] HM].
  destruct tl as [|c tl]; [done|].
  rewrite escapeCodeBlocks_cons in Hout.
  destruct (rHexoPostRenderEscape (c :: tl)) as [[inner rest]|].
  - unfold escapeContent in Hout.
    destruct (escapeCodeBlocks rest _) as [r cache2].
    cbn [fst] in Hout. by injection Hout as <- _.
  - destruct (escapeCodeBlocks tl cache) as [r cache2] eqn:E.
    cbn [fst] in Hout. injection Hout as -> Hout.
    destruct (IH tl cache X HM) as [r' ->]; [by rewrite E|]. by exists r'.
Qed.

Lemma code_match_transfer flag c tl cache :
  Forall safe flag →
  match_placeholder flag (c :: tl) = None →
  match_placeholder flag (c :: (escapeCodeBlocks tl cache).1) = None.
Proof.
  intros Hflag Hin.
  destruct (match_placeholder flag (c :: (escapeCodeBlocks tl cache).1))
    as [[index rest]|] eqn:Hm; [exfalso|done].
  apply match_placeholder_inv in Hm as (op & cl & Hop & Hcl & Heq & Hne & Hds).
  destruct (placeholder_text_safe op flag index cl) as (m & M & Htext & HM);
    [done..|].
  rewrite Htext in Heq. injection Heq as -> Hout.
  apply code_safe_prefix in Hout as [r' ->]; [|done].
  rewrite app_comm_cons, <- Htext, match_placeholder_intro in Hin; done.
Qed.

(** The invariant of the round trip of code blocks. *)
Lemma codeblocks_restore n : ∀ s cache,
  (length s ≤ n)%nat →
  has_placeholder (lit "code") s = false →
  ∃ blocks : list jsstring,
    (escapeCodeBlocks s cache).2 = cache ++ (Some <$> blocks)
    ∧ Forall (λ b, b ≠ []) blocks
    ∧ ∀ (pre more : table), length pre = length cache →
        replace_placeholders (lit "code") (escapeCodeBlocks s cache).1
          (pre ++ (Some <$> blocks) ++ more)
        = (Returned (unwrapCodeBlocks s),
           pre ++ replicate (length blocks) None ++ more).
Proof.
  induction n as [|n IH]; intros s cache Hlen Hph.
  { destruct s; [|simpl in Hlen; lia]. exists []. cbn.
    split; [by rewrite app_nil_r|]. split; [done|]. done. }
  destruct s as [|c tl].
  { exists []. cbn. split; [by rewrite app_nil_r|]. split; [done|]. done. }
  simpl in Hlen.
  rewrite escapeCodeBlocks_cons, unwrapCodeBlocks_cons.
  destruct (rHexoPostRenderEscape (c :: tl)) as [[inner rest]|] eqn:Hm.
  - pose proof (rHexoPostRenderEscape_shorter _ _ _ Hm) as Hshort.
    simpl in Hshort.
    apply rHexoPostRenderEscape_Some in Hm as (Heq & Hne).
    assert (Hrest : has_placeholder (lit "code") rest = false).
    { rewrite Heq, !app_assoc in Hph. by apply has_placeholder_app in Hph. }
    unfold escapeContent.
    destruct (IH rest (cache ++ [Some inner])) as (blocks & Hst & Hnes & Hre);
      [lia|done|].
    destruct (escapeCodeBlocks rest (cache ++ [Some inner])) as [r cache2].
    cbn [fst snd] in *.
    exists (inner :: blocks). split; [by rewrite Hst, <- app_assoc|].
    split; [by constructor|].
    intros pre more Hpre. rewrite <- Hpre.
    rewrite replace_placeholders_escaped. cbn [fmap list_fmap app].
    erewrite M_bind_returned; [|by apply restoreContent_slot].
    rewrite (cons_middle None pre), (app_assoc pre [None]).
    erewrite M_bind_returned;
      [|apply Hre; rewrite !length_app; simpl; lia].
    unfold mret, M_ret. cbn [length replicate].
    f_equal. by rewrite <- !app_assoc.
  - apply has_placeholder_cons in Hph as [Hc Hph].
    destruct (IH tl cache) as (blocks & Hst & Hnes & Hre); [lia|done|].
    pose proof (code_match_transfer (lit "code") c tl cache code_safe Hc)
      as Htr.
    destruct (escapeCodeBlocks tl cache) as [r cache2].
    cbn [fst snd] in *.
    exists blocks. split; [done|]. split; [done|].
    intros pre more Hpre.
    rewrite replace_placeholders_copy by done. by rewrite Hre.
Qed.

(** X3: for a text with no text of the form of a code placeholder,
    [restoreCodeBlocks] applied to the result of [escapeCodeBlocks], with
    the table that the escape left, returns the text with the two markers
    of every code block removed and the content of every block as it was.
    The escape appends one entry for each block to the table, whatever the
    table held, none of them empty, and the restoration consumes exactly
    those entries. *)
Theorem codeblocks_roundtrip (s : jsstring) (cache : table) :
  has_placeholder (lit "code") s = false →
  ∃ (escaped : jsstring) (blocks : list jsstring),
    escapeCodeBlocks s cache = (escaped, cache ++ (Some <$> blocks))
    ∧ Forall (λ b, b ≠ []) blocks
    ∧ restoreCodeBlocks escaped (cache ++ (Some <$> blocks))
      = (Returned (unwrapCodeBlocks s),
         cache ++ replicate (length blocks) None).
Proof.
  intros Hph.
  destruct (codeblocks_restore (length s) s cache)
    as (blocks & Hst & Hne & Hre); [done..|].
  exists (escapeCodeBlocks s cache).1, blocks. split; [|split; [done|]].
  - rewrite <- Hst. by destruct (escapeCodeBlocks s cache).
  - specialize (Hre cache [] eq_refl). by rewrite !app_nil_r in Hre.
Qed.

Lemma codeblocks_roundtrip_witness :
  let s := lit "a <hexoPostRenderCodeBlock>{{ b }}</hexoPostRenderCodeBlock> c" in
  unwrapCodeBlocks s = lit "a {{ b }} c"
  ∧ ∃ (escaped : jsstring) (blocks : list jsstring),
      escapeCodeBlocks s [None] = (escaped, [None] ++ (Some <$> blocks))
      ∧ Forall (λ b, b ≠ []) blocks
      ∧ restoreCodeBlocks escaped ([None] ++ (Some <$> blocks))
        = (Returned (unwrapCodeBlocks s),
           [None] ++ replicate (length blocks) None).
Proof.
  intros s. split; [reflexivity|].
  apply (codeblocks_roundtrip s [None]). reflexivity.
Defined.

(** X4: the four steps that [render] applies to a content, on one fresh
    table, compose.  When the content has no text of the form of a code
    placeholder and, once its code blocks are escaped, has its tags closed,
    no comment tag and no text of the form of a swig placeholder, then
    escaping the code blocks, escaping the tags, restoring the tags and
    restoring the code blocks gives the content with the markers of its code
    blocks removed: the tags inside code blocks come back untouched, the two
    kinds of placeholder share the table without clash, and every entry of
    the table ends up consumed. *)
Theorem escape_pipeline_roundtrip (s : jsstring) :
  has_placeholder (lit "code") s = false →
  tags_closed (escapeCodeBlocks s []).1 = true →
  has_comment (escapeCodeBlocks s []).1 = false →
  has_placeholder (lit "swig") (escapeCodeBlocks s []).1 = false →
  ∃ (e1 : jsstring) (c1 : table) (e2 : jsstring) (c2 c3 : table),
    escapeCodeBlocks s [] = (e1, c1)
    ∧ escapeAllSwigTags e1 c1 = (e2, c2)
    ∧ restoreAllSwigTags e2 c2 = (Returned e1, c3)
    ∧ restoreCodeBlocks e1 c3
      = (Returned (unwrapCodeBlocks s), replicate (length c2) None).
Proof.
  intros Hcode Hclosed Hno Hswig.
  destruct (codeblocks_restore (length s) s []) as (blocks & Hst & _ & Hre);
    [done..|].
  destruct (escapeCodeBlocks s []) as [e1 c1] eqn:E. cbn [fst snd] in *.
  rewrite app_nil_l in Hst. subst c1.
  exists e1, (Some <$> blocks). unfold escapeAllSwigTags.
  destruct (swigTagRegex_test e1); cbn [negb].
  - destruct (scanAll_restore e1 (Some <$> blocks))
      as (news & Hstored & Hrestore); [done..|].
    eexists _, _, _. split; [done|]. split; [done|]. split; [exact Hrestore|].
    unfold restoreCodeBlocks.
    specialize (Hre [] (replicate (length news) None) eq_refl).
    cbn [app] in Hre. rewrite Hre.
    by rewrite Hstored, length_app, !length_fmap, replicate_add.
  - eexists _, _, _. split; [done|]. split; [done|].
    split; [by apply replace_placeholders_none|].
    unfold restoreCodeBlocks.
    specialize (Hre [] [] eq_refl). cbn [app] in Hre.
    rewrite !app_nil_r in Hre. by rewrite Hre, length_fmap.
Qed.

Lemma escape_pipeline_roundtrip_witness :
  let s := lit "{{ a }} <hexoPostRenderCodeBlock>{{ b }} {% c</hexoPostRenderCodeBlock> {% d %}" in
  ∃ (e1 : jsstring) (c1 : table) (e2 : jsstring) (c2 c3 : table),
    escapeCodeBlocks s [] = (e1, c1)
    ∧ escapeAllSwigTags e1 c1 = (e2, c2)
    ∧ restoreAllSwigTags e2 c2 = (Returned e1, c3)
    ∧ restoreCodeBlocks e1 c3
      = (Returned (unwrapCodeBlocks s), replicate (length c2) None).
Proof.
  apply (escape_pipeline_roundtrip
    (lit "{{ a }} <hexoPostRenderCodeBlock>{{ b }} {% c</hexoPostRenderCodeBlock> {% d %}"));
    reflexivity.
Defined.

(** ** The output and the table of [escapeAllSwigTags] *)

Lemma has_opener_cons_eq c s :
  has_opener (c :: s)
  = (c =? LBRACE) && (is_char LBRACE (head s) || is_char HASH (head s)
                      || is_char PERCENT (head s))
    || has_opener s.
Proof.
  unfold has_opener. eval_lits. cbn [includes]. unfold startsWith.
  cbn [strip_prefix]. unfold_chars.
  destruct s as [|d s]; cbn [hd_error is_char].
  - destruct (c =? 123); done.
  - destruct (c =? 123), (d =? 123), (d =? 35), (d =? 37); cbn;
      repeat match goal with
             | |- context [startsWith ?a ?b] => destruct (startsWith a b)
             | |- context [includes ?a ?b] => destruct (includes a b)
             end; done.
Qed.

Lemma has_opener_app_plain p s :
  Forall (λ c, c ≠ LBRACE) p → has_opener (p ++ s) = has_opener s.
Proof.
  induction 1 as [|c p Hc _ IH]; [done|]. cbn [app].
  rewrite has_opener_cons_eq, IH.
  by destruct (N.eqb_spec c LBRACE).
Qed.

Lemma swig_placeholder_no_brace n : Forall (λ c, c ≠ LBRACE) (swig_placeholder n).
Proof.
  unfold swig_placeholder. repeat apply Forall_app_2.
  - repeat constructor; by vm_compute.
  - repeat constructor; by vm_compute.
  - repeat constructor; by vm_compute.
  - eapply Forall_impl; [apply numberToString_digits|].
    intros c Hc. by apply digit_safe in Hc as [? _].
  - repeat constructor; by vm_compute.
Qed.

(** The output of a scan has no opener; in plain text, a character other
    than a brace is copied first. *)
Lemma scan_output_no_opener f s : ∀ st buf cache,
  let o := join (output (scan_with f (Scanner st buf [] cache) s)) in
  has_opener o = false
  ∧ (st = PLAINTEXT → ∀ c tl, s = c :: tl → c ≠ LBRACE → head o = Some c).
Proof.
  induction s as [|c tl IH1 IH2] using skip_ind; intros st buf cache o;
    [by split|].
  subst o. rewrite scan_with_cons.
  assert (Hpush :
    (c = LBRACE → is_char LBRACE (head tl) = false
                  ∧ is_char HASH (head tl) = false
                  ∧ is_char PERCENT (head tl) = false) →
    let o := join (output
               (scan_with f (Scanner PLAINTEXT buf ([] ++ [[c]]) cache) tl)) in
    has_opener o = false ∧ head o = Some c).
  { intros Hc. cbn zeta. rewrite scan_with_out. cbn [with_output output].
    rewrite app_nil_l, join_app. cbn [join concat app].
    split; [|done]. rewrite has_opener_cons_eq.
    destruct (IH1 PLAINTEXT buf cache) as [-> Hhead].
    rewrite orb_false_r.
    destruct (N.eqb_spec c LBRACE) as [->|]; [|done]. cbn [andb].
    destruct Hc as (H1 & H2 & H3); [done|].
    destruct tl as [|d tl']; [done|]. cbn [hd_error is_char] in *.
    rewrite (Hhead eq_refl d tl' eq_refl)
      by (intros ->; by rewrite N.eqb_refl in H1).
    cbn [is_char]. by rewrite H1, H2, H3. }
  destruct st; rewrite ?step_plain, ?step_var, ?step_comment, ?step_tag.
  - destruct (N.eqb_spec c LBRACE) as [->|Hne].
    + destruct (is_char LBRACE (head tl)) eqn:E1;
        [split; [apply IH2|by intros _ ? ? [= <- _]]|].
      destruct (is_char HASH (head tl)) eqn:E2;
        [split; [apply IH2|by intros _ ? ? [= <- _]]|].
      destruct (is_char PERCENT (head tl)) eqn:E3;
        [split; [apply IH2|by intros _ ? ? [= <- _]]|].
      destruct Hpush as [? ?]; [done|]. split; [done|].
      by intros _ ? ? [= <- _].
    + destruct Hpush as [? ?]; [done|]. split; [done|].
      by intros _ ? ? [= <- _].
  - split; [|done].
    destruct ((c =? RBRACE) && is_char RBRACE (head tl)); [|apply IH1].
    rewrite push_escaped_eq, scan_with_out. cbn [with_output output].
    rewrite app_nil_l, join_app. cbn [join concat]. rewrite app_nil_r.
    rewrite has_opener_app_plain
      by apply (swig_placeholder_no_brace (length cache)).
    apply IH2.
  - split; [|done].
    destruct ((c =? HASH) && is_char RBRACE (head tl)); [apply IH2|apply IH1].
  - split; [|done].
    destruct ((c =? PERCENT) && is_char RBRACE (head tl)); [|apply IH1].
    rewrite push_escaped_eq, scan_with_out. cbn [with_output output].
    rewrite app_nil_l, join_app. cbn [join concat]. rewrite app_nil_r.
    rewrite has_opener_app_plain
      by apply (swig_placeholder_no_brace (length cache)).
    apply IH2.
Qed.

Lemma escapeAllSwigTags_plain text cache :
  has_opener text = false → escapeAllSwigTags text cache = (text, cache).
Proof.
  intros Hno. unfold escapeAllSwigTags.
  destruct (swigTagRegex_test text); simpl; [|done].
  unfold scanAll, scan. rewrite scan_with_plain by done. simpl.
  by rewrite join_singletons.
Qed.

(** X5: when the pre-check of [escapeAllSwigTags] passes, the text it
    returns has none of the openers [{{], [{#] and [{%]; and in every case
    escaping the returned text again gives it back and appends nothing to
    the table. *)
Theorem escapeAllSwigTags_idempotent (text : jsstring) (cache cache' : table) :
  (swigTagRegex_test text = true →
   has_opener (escapeAllSwigTags text cache).1 = false)
  ∧ escapeAllSwigTags (escapeAllSwigTags text cache).1 cache'
    = ((escapeAllSwigTags text cache).1, cache').
Proof.
  assert (Hout : swigTagRegex_test text = true →
                 has_opener (escapeAllSwigTags text cache).1 = false).
  { intros Htest. unfold escapeAllSwigTags. rewrite Htest. cbn [negb fst].
    apply (scan_output_no_opener (isFullTag text) text PLAINTEXT [] cache). }
  split; [done|].
  destruct (swigTagRegex_test text) eqn:Htest.
  - by apply escapeAllSwigTags_plain, Hout.
  - unfold escapeAllSwigTags at 2 3. rewrite Htest. cbn [negb fst].
    unfold escapeAllSwigTags. by rewrite Htest.
Qed.

Lemma escapeAllSwigTags_idempotent_witness :
  let text := lit "a {{ b }} {c} {% d %}" in
  swigTagRegex_test text = true
  ∧ has_opener (escapeAllSwigTags text []).1 = false
  ∧ escapeAllSwigTags (escapeAllSwigTags text []).1 [Some (lit "x")]
    = ((escapeAllSwigTags text []).1, [Some (lit "x")]).
Proof.
  destruct (escapeAllSwigTags_idempotent (lit "a {{ b }} {c} {% d %}") []
              [Some (lit "x")]) as [H1 H2].
  split; [reflexivity|]. split; [apply H1; reflexivity|exact H2].
Defined.

Lemma scan_with_stored f s : ∀ st buf cache,
  (st = PLAINTEXT → buf = []) →
  ∃ news : list jsstring,
    stored (scan_with f (Scanner st buf [] cache) s) = cache ++ (Some <$> news)
    ∧ Forall (λ t, (∃ b, t = lit "{{" ++ b ++ lit "}}"
                        ∨ t = lit "{%" ++ b ++ lit "%}")
                   ∧ includes (buffered st buf ++ s) t = true) news.
Proof.
  induction s as [|c tl IH1 IH2] using skip_ind; intros st buf cache Hbuf.
  { exists []. split; [by rewrite app_nil_r|done]. }
  rewrite scan_with_cons.
  assert (Htl2 : ∀ t,
    includes (match tl with [] => tl | _ :: tl' => tl' end) t = true →
    includes (c :: tl) t = true).
  { intros t H. apply includes_cons_true. destruct tl; [done|].
    by apply includes_cons_true. }
  (* the scan goes on in another state, nothing being stored *)
  assert (Hgo : ∀ st' buf' out' s',
    (st' = PLAINTEXT → buf' = []) →
    (s' = tl ∨ s' = match tl with [] => tl | _ :: tl' => tl' end) →
    (∀ t, includes (buffered st' buf' ++ s') t = true →
          includes (buffered st buf ++ c :: tl) t = true) →
    ∃ news : list jsstring,
      stored (scan_with f (Scanner st' buf' out' cache) s')
      = cache ++ (Some <$> news)
      ∧ Forall (λ t, (∃ b, t = lit "{{" ++ b ++ lit "}}"
                          ∨ t = lit "{%" ++ b ++ lit "%}")
                     ∧ includes (buffered st buf ++ c :: tl) t = true) news).
  { intros st' buf' out' s' Hbuf' Hs' Hinc. rewrite scan_with_out.
    cbn [with_output stored].
    destruct Hs' as [-> | ->].
    - destruct (IH1 st' buf' cache Hbuf') as (news & Hst & Hnews).
      exists news. split; [done|].
      eapply Forall_impl; [exact Hnews|]. intros t [? ?]. auto.
    - destruct (IH2 st' buf' cache Hbuf') as (news & Hst & Hnews).
      exists news. split; [done|].
      eapply Forall_impl; [exact Hnews|]. intros t [? ?]. auto. }
  (* a tag is closed and stored *)
  assert (Hclose : ∀ tag out' d tl',
    tl = d :: tl' →
    (∃ b, tag = lit "{{" ++ b ++ lit "}}" ∨ tag = lit "{%" ++ b ++ lit "%}") →
    buffered st buf ++ [c; d] = tag →
    ∃ news : list jsstring,
      stored (scan_with f (Scanner PLAINTEXT [] out' (cache ++ [Some tag])) tl')
      = cache ++ (Some <$> news)
      ∧ Forall (λ t, (∃ b, t = lit "{{" ++ b ++ lit "}}"
                          ∨ t = lit "{%" ++ b ++ lit "%}")
                     ∧ includes (buffered st buf ++ c :: tl) t = true) news).
  { intros tag out' d tl' -> Htag Heq. rewrite scan_with_out.
    cbn [with_output stored].
    destruct (IH2 PLAINTEXT [] (cache ++ [Some tag])) as (news & Hst & Hnews);
      [done|].
    cbn [buffered app] in Hnews.
    exists (tag :: news). split; [by rewrite Hst, <- app_assoc|].
    replace (buffered st buf ++ c :: d :: tl') with (tag ++ tl')
      by (by rewrite <- Heq, <- app_assoc).
    constructor.
    - split; [done|]. apply (includes_middle []).
    - eapply Forall_impl; [exact Hnews|]. intros t [? ?]. split; [done|].
      by apply includes_app_r. }
  destruct st; rewrite ?step_plain, ?step_var, ?step_comment, ?step_tag.
  - specialize (Hbuf eq_refl) as ->. cbn [buffered app] in *.
    destruct (N.eqb_spec c LBRACE) as [->|Hne];
      [|apply Hgo; auto using includes_cons_true].
    destruct tl as [|d tl']; cbn [hd_error is_char];
      [apply Hgo; auto using includes_cons_true|].
    destruct (N.eqb_spec d LBRACE) as [->|]; [by apply Hgo; auto|].
    destruct (N.eqb_spec d HASH) as [->|]; [by apply Hgo; auto|].
    destruct (N.eqb_spec d PERCENT) as [->|];
      [by apply Hgo; auto|apply Hgo; auto using includes_cons_true].
  - destruct ((c =? RBRACE) && is_char RBRACE (head tl)) eqn:Hc.
    + apply andb_true_iff in Hc as [Hc1 Hc2]. apply N.eqb_eq in Hc1 as ->.
      destruct tl as [|d tl']; [done|]. cbn [hd_error is_char] in Hc2.
      apply N.eqb_eq in Hc2 as ->. rewrite push_escaped_eq.
      eapply Hclose; [done|by eauto|].
      cbn [buffered opened]. by rewrite <- !app_assoc.
    + apply Hgo; [done|by left|]. intros t. cbn [buffered opened].
      by rewrite <- !app_assoc.
  - cbn [buffered app] in *.
    destruct ((c =? HASH) && is_char RBRACE (head tl));
      apply Hgo; auto using includes_cons_true.
  - destruct ((c =? PERCENT) && is_char RBRACE (head tl)) eqn:Hc.
    + apply andb_true_iff in Hc as [Hc1 Hc2]. apply N.eqb_eq in Hc1 as ->.
      destruct tl as [|d tl']; [done|]. cbn [hd_error is_char] in Hc2.
      apply N.eqb_eq in Hc2 as ->. rewrite push_escaped_eq.
      eapply Hclose; [done|by eauto|].
      cbn [buffered opened]. by rewrite <- !app_assoc.
    + apply Hgo; [done|by left|]. intros t. cbn [buffered opened].
      by rewrite <- !app_assoc.
Qed.

(** X6: [escapeAllSwigTags] only appends to the table: the entries it
    found there stay in place.  Every entry that it appends is a variable
    tag or a block tag with its two delimiters, [{{ ... }}] or [{% ... %}],
    so never empty, and is a piece of the text, character for character. *)
Theorem escapeAllSwigTags_stored (text : jsstring) (cache : table) :
  ∃ news : list jsstring,
    (escapeAllSwigTags text cache).2 = cache ++ (Some <$> news)
    ∧ Forall (λ t, (∃ b, t = lit "{{" ++ b ++ lit "}}"
                        ∨ t = lit "{%" ++ b ++ lit "%}")
                   ∧ t ≠ [] ∧ includes text t = true) news.
Proof.
  unfold escapeAllSwigTags. destruct (swigTagRegex_test text); cbn [negb snd].
  - destruct (scan_with_stored (isFullTag text) text PLAINTEXT [] cache)
      as (news & Hst & Hnews); [done|].
    exists news. split; [done|].
    eapply Forall_impl; [exact Hnews|].
    intros t [Htag Hinc]. split; [done|]. split; [|done].
    by destruct Htag as [b [-> | ->]].
  - exists []. split; [by rewrite app_nil_r|done].
Qed.

(** ** What restoration does to the table *)

Lemma consumed_from_refl cache : consumed_from cache cache.
Proof. split; [done|]. by left. Qed.

Lemma consumed_from_trans c1 c2 c3 :
  consumed_from c1 c2 → consumed_from c2 c3 → consumed_from c1 c3.
Proof.
  intros [L1 H1] [L2 H2]. split; [congruence|]. intros i.
  destruct (H2 i) as [E2|[E2 (v & Hv & Hne)]].
  - rewrite E2. apply H1.
  - destruct (H1 i) as [E1|[E1 _]].
    + right. split; [done|]. exists v. by rewrite <- E1.
    + congruence.
Qed.

Lemma restoreContent_consumed index cache r cache' :
  restoreContent index cache = (r, cache') →
  consumed_from cache cache' ∧ (∀ e, r = Thrown e → e = AssertionError).
Proof.
  intros H. destruct r as [value|e].
  - apply restoreContent_Returned in H as (Hne & i & Hi & Hv & ->).
    split; [|done]. split; [by rewrite length_insert|]. intros j.
    destruct (decide (j = i)) as [->|Hji].
    + right. rewrite list_lookup_insert_eq by by eapply lookup_lt_Some.
      split; [done|]. by exists value.
    + left. by rewrite list_lookup_insert_ne.
  - unfold restoreContent in H. destruct (truthy _); [done|].
    injection H as <- <-. split; [apply consumed_from_refl|].
    by intros e [= <-].
Qed.

Lemma replace_fuel_consumed flag fuel : ∀ s cache r cache',
  replace_fuel fuel flag s cache = (r, cache') →
  consumed_from cache cache' ∧ (∀ e, r = Thrown e → e = AssertionError).
Proof.
  induction fuel as [|fuel IH]; intros s cache r cache'.
  { cbn. intros [= <- <-]. split; [apply consumed_from_refl|done]. }
  destruct s as [|c tl].
  { cbn. intros [= <- <-]. split; [apply consumed_from_refl|done]. }
  cbn [replace_fuel].
  destruct (match_placeholder flag (c :: tl)) as [[index rest]|].
  - unfold mbind, M_bind, mret, M_ret.
    destruct (restoreContent index cache) as [[value|e] cache1] eqn:H1;
      apply restoreContent_consumed in H1 as [Hc1 He1].
    + destruct (replace_fuel fuel flag rest cache1) as [[r2|e] cache2] eqn:H2;
        apply IH in H2 as [Hc2 He2]; intros [= <- <-];
        (split; [by eapply consumed_from_trans|]); [done|].
      intros e' [= <-]. by apply He2.
    + intros [= <- <-]. split; [done|]. intros e' [= <-]. by apply He1.
  - unfold mbind, M_bind, mret, M_ret.
    destruct (replace_fuel fuel flag tl cache) as [[r2|e] cache2] eqn:H2;
      apply IH in H2 as [Hc2 He2]; intros [= <- <-]; (split; [done|]);
      [done|]. intros e' [= <-]. by apply He2.
Qed.

(** X7: whatever the text and the table, [restoreAllSwigTags] and
    [restoreCodeBlocks] keep the length of the table, and leave every slot
    as it was or turn it from a non-empty string into [null]; they never
    write a string into the table.  When they fail, it is with the assertion
    error. *)
Theorem restore_table_invariant (s : jsstring) (cache : table) :
  (∀ r cache', restoreAllSwigTags s cache = (r, cache') →
     consumed_from cache cache' ∧ ∀ e, r = Thrown e → e = AssertionError)
  ∧ (∀ r cache', restoreCodeBlocks s cache = (r, cache') →
       consumed_from cache cache' ∧ ∀ e, r = Thrown e → e = AssertionError).
Proof. split; intros r cache'; apply replace_fuel_consumed. Qed.

Lemma restore_table_invariant_witness :
  let s := swig_placeholder 1 ++ swig_placeholder 0 ++ swig_placeholder 1 in
  let cache := [Some (lit "{{a}}"); Some (lit "{{b}}"); Some (lit "c")] in
  restoreAllSwigTags s cache
  = (Thrown AssertionError, [None; None; Some (lit "c")])
  ∧ consumed_from cache [None; None; Some (lit "c")]
  ∧ ∀ e, Thrown (A := jsstring) AssertionError = Thrown e → e = AssertionError.
Proof.
  intros s cache. split; [reflexivity|].
  apply (proj1 (restore_table_invariant s cache) (Thrown AssertionError)).
  reflexivity.
Defined.

Lemma consumed_from_None c1 c2 i :
  consumed_from c1 c2 → c1 !! i = Some None → c2 !! i = Some None.
Proof.
  intros [_ H] Hi. destruct (H i) as [E|[E _]]; congruence.
Qed.

Lemma replace_placeholders_touches flag s cache r :
  has_placeholder flag s = true →
  replace_placeholders flag s cache ≠ (Returned r, cache).
Proof.
  induction s as [|c s IH] in r |- *; [done|]. cbn [has_placeholder].
  rewrite replace_placeholders_cons.
  destruct (match_placeholder flag (c :: s)) as [[index rest]|] eqn:Hm.
  - intros _. unfold mbind, M_bind, mret, M_ret.
    destruct (restoreContent index cache) as [[value|e] cache1] eqn:H1; [|done].
    apply restoreContent_Returned in H1 as (Hne & i & Hi & Hv & ->).
    destruct (replace_placeholders flag rest (<[i:=None]> cache))
      as [[r2|e] cache2] eqn:H2; [|done].
    apply replace_fuel_consumed in H2 as [Hc2 _].
    intros [= _ ->].
    eapply (consumed_from_None _ _ i) in Hc2;
      [|by rewrite list_lookup_insert_eq by by eapply lookup_lt_Some].
    congruence.
  - cbn [orb]. intros Hs. unfold mbind, M_bind, mret, M_ret.
    destruct (replace_placeholders flag s cache) as [[r2|e] cache2] eqn:H2;
      [|done].
    intros [= <- ->]. by eapply IH.
Qed.

(** X8: [restoreAllSwigTags] returns the text it was given and leaves the
    table untouched exactly when the text has no match of the swig
    placeholder pattern, and so does [restoreCodeBlocks] for the code
    placeholder pattern.  The two kinds do not mix: a swig placeholder is no
    code placeholder, and a code placeholder is no swig placeholder. *)
Theorem restore_untouched (s : jsstring) (cache : table) :
  (restoreAllSwigTags s cache = (Returned s, cache)
   ↔ has_placeholder (lit "swig") s = false)
  ∧ (restoreCodeBlocks s cache = (Returned s, cache)
     ↔ has_placeholder (lit "code") s = false)
  ∧ (∀ n, has_placeholder (lit "code") (swig_placeholder n) = false)
  ∧ (∀ n, has_placeholder (lit "swig") (code_placeholder n) = false).
Proof.
  assert (Hiff : ∀ flag,
    replace_placeholders flag s cache = (Returned s, cache)
    ↔ has_placeholder flag s = false).
  { intros flag. split.
    - intros H. destruct (has_placeholder flag s) eqn:E; [|done].
      by eapply replace_placeholders_touches in E.
    - apply replace_placeholders_none. }
  split; [apply Hiff|]. split; [apply Hiff|].
  split; intros n.
  - unfold swig_placeholder.
    generalize (numberToString_digits n). generalize (numberToString n).
    intros ds Hds. eval_lits. unfold OBJ.
    repeat (cbn [app has_placeholder]; first [done | rewrite orb_false_l]).
    induction Hds as [|d ds Hd _ IH]; cbn [app has_placeholder].
    + reflexivity.
    + rewrite IH, orb_false_r. unfold isDigit in Hd.
      apply andb_true_iff in Hd as [H1 H2]. apply N.leb_le in H1, H2.
      unfold match_placeholder, match_open. eval_lits. cbn [strip_prefix].
      destruct (N.eqb_spec d 60); [lia|]. by destruct (N.eqb_spec d 38); [lia|].
  - unfold code_placeholder.
    generalize (numberToString_digits n). generalize (numberToString n).
    intros ds Hds. eval_lits. unfold OBJ.
    repeat (cbn [app has_placeholder]; first [done | rewrite orb_false_l]).
    induction Hds as [|d ds Hd _ IH]; cbn [app has_placeholder].
    + reflexivity.
    + rewrite IH, orb_false_r. unfold isDigit in Hd.
      apply andb_true_iff in Hd as [H1 H2]. apply N.leb_le in H1, H2.
      unfold match_placeholder, match_open. eval_lits. cbn [strip_prefix].
      destruct (N.eqb_spec d 60); [lia|]. by destruct (N.eqb_spec d 38); [lia|].
Qed.

Lemma restoreContent_lookup (cache : table) n v :
  cache !! n = Some (Some v) → v ≠ [] →
  restoreContent (numberToString n) cache = (Returned v, <[n := None]> cache).
Proof.
  intros Hn Hv. unfold restoreContent, property, set_null.
  rewrite arrayIndex_numberToString. cbn [mbind option_bind].
  rewrite Hn. cbn [mjoin option_join].
  destruct v as [|c v]; [done|]. done.
Qed.

Lemma replace_placeholders_match flag s index rest cache :
  match_placeholder flag s = Some (index, rest) →
  replace_placeholders flag s cache
  = (value ← restoreContent index;
     r ← replace_placeholders flag rest;
     mret (value ++ r)) cache.
Proof.
  intros Hm. destruct s as [|c tl]; [done|].
  by rewrite replace_placeholders_cons, Hm.
Qed.

(** X9: a placeholder is restored in each of its four spellings, with
    [<] or [&lt;] in front and [>] or [&gt;] behind, as a renderer that
    escapes HTML may leave it: when the slot holds a non-empty string and no
    other placeholder follows, the placeholder is replaced by the string of
    the slot, which is not scanned again, and the slot is set to [null]. *)
Theorem restore_escaped_forms (op cl v rest : jsstring) (n : nat)
    (cache : table) :
  op = lit "<" ∨ op = lit "&lt;" →
  cl = lit ">" ∨ cl = lit "&gt;" →
  cache !! n = Some (Some v) → v ≠ [] →
  has_placeholder (lit "swig") rest = false →
  restoreAllSwigTags
    (op ++ lit "!--swig" ++ [OBJ] ++ numberToString n ++ lit "--" ++ cl ++ rest)
    cache
  = (Returned (v ++ rest), <[n := None]> cache).
Proof.
  intros Hop Hcl Hn Hv Hrest. unfold restoreAllSwigTags.
  rewrite (replace_placeholders_match _ _ (numberToString n) rest).
  - erewrite M_bind_returned; [|by apply restoreContent_lookup].
    erewrite M_bind_returned; [|by apply replace_placeholders_none].
    done.
  - rewrite <- (match_placeholder_intro (lit "swig") op cl (numberToString n)
                  rest);
      auto using numberToString_nonempty, numberToString_digits.
    f_equal. unfold placeholder_text.
    destruct Hop as [-> | ->]; by rewrite <- !app_assoc.
Qed.

Lemma restore_escaped_forms_witness :
  restoreAllSwigTags
    (lit "&lt;" ++ lit "!--swig" ++ [OBJ] ++ numberToString 1 ++ lit "--"
     ++ lit "&gt;" ++ lit "</p>")
    [Some (lit "{{ a }}"); Some (lit "{% b %}")]
  = (Returned (lit "{% b %}" ++ lit "</p>"),
     <[1%nat := None]> [Some (lit "{{ a }}"); Some (lit "{% b %}")]).
Proof.
  apply (restore_escaped_forms (lit "&lt;") (lit "&gt;") (lit "{% b %}")
           (lit "</p>") 1 [Some (lit "{{ a }}"); Some (lit "{% b %}")]).
  - by right.
  - by right.
  - reflexivity.
  - done.
  - reflexivity.
Defined.

(** X10: [escapeContent] appends one entry to the table and returns a
    placeholder that the pattern of its flag matches whole, whatever
    follows, capturing the index of the new entry.  [restoreContent] at that
    index returns the string that was escaped and sets the slot to [null],
    unless that string is empty, in which case the assertion fails; at the
    index of an older entry it does what it did before the escape. *)
Theorem escapeContent_restoreContent (cache : table) (flag s rest : jsstring) :
  let placeholder := (escapeContent cache flag s).1 in
  let cache' := (escapeContent cache flag s).2 in
  length cache' = S (length cache)
  ∧ match_placeholder flag (placeholder ++ rest)
    = Some (numberToString (length cache), rest)
  ∧ restoreContent (numberToString (length cache)) cache'
    = (if bool_decide (s = []) then (Thrown AssertionError, cache')
       else (Returned s, cache ++ [None]))
  ∧ ∀ n, (n < length cache)%nat →
         restoreContent (numberToString n) cache'
         = match restoreContent (numberToString n) cache with
           | (r, c) => (r, c ++ [Some s])
           end.
Proof.
  cbn zeta. unfold escapeContent. cbn [fst snd].
  split; [rewrite length_app; simpl; lia|].
  split; [apply match_placeholder_escaped|]. split.
  - case_bool_decide as Hs.
    + subst s. unfold restoreContent, property.
      rewrite arrayIndex_numberToString. cbn [mbind option_bind].
      by rewrite list_lookup_middle.
    + by apply restoreContent_slot.
  - intros n Hn. unfold restoreContent, property, set_null.
    rewrite arrayIndex_numberToString. cbn [mbind option_bind].
    rewrite lookup_app_l by done.
    destruct (truthy (mjoin (cache !! n))); [|done].
    by rewrite insert_app_l.
Qed.

Lemma escapeContent_restoreContent_witness :
  let cache := [Some (lit "{{ a }}")] in
  (0 < length cache)%nat
  ∧ restoreContent (numberToString 0)
      (escapeContent cache (lit "code") (lit "x")).2
    = match restoreContent (numberToString 0) cache with
      | (r, c) => (r, c ++ [Some (lit "x")])
      end.
Proof.
  intros cache. split; [simpl; lia|].
  apply (escapeContent_restoreContent cache (lit "code") (lit "x") []).
  simpl. lia.
Defined.

(** ** More on the merge of metadata *)

Lemma mergeMetadata_get (obj data : object) (key : jsstring) :
  get (mergeMetadata obj data) key
  = if decide (key ∈ merge_keys obj data) then get data key else get obj key.
Proof.
  unfold get at 1. rewrite mergeMetadata_lookup.
  by destruct (decide (key ∈ merge_keys obj data)).
Qed.

Lemma get_inherited_own (obj : object) (key : jsstring) :
  key ∉ objectPrototype → get_inherited obj key = get obj key.
Proof.
  intros Hkey. unfold get_inherited, get.
  destruct (obj !! key); [done|]. by rewrite bool_decide_eq_false_2.
Qed.

Lemma nullish_get_inherited (obj : object) (key : jsstring) :
  nullish (get_inherited obj key) = true
  ↔ (obj !! key = None ∧ key ∉ objectPrototype)
    ∨ (∃ v, obj !! key = Some v ∧ nullish v = true).
Proof.
  unfold get_inherited. destruct (obj !! key) as [v|].
  - split; [intros Hv; right; by exists v|].
    intros [[? _]|(v' & [= <-] & Hv)]; done.
  - case_bool_decide as Hin; cbn [nullish].
    + split; [done|]. intros [[_ ?]|(v & ? & _)]; done.
    + split; [by left|done].
Qed.

(** The merge loses no metadata: a value that is supplied for a field that
    is neither reserved nor the name of an inherited property is in the
    merged object, unless the front matter has its own. *)
Lemma mergeMetadata_supplied (obj data : object) (key : jsstring) :
  key ∉ preservedKeys → key ∉ objectPrototype →
  nullish (get data key) = false →
  nullish (get (mergeMetadata obj data) key) = false.
Proof.
  intros Hres Hproto Hdata. rewrite mergeMetadata_get.
  destruct (decide (key ∈ merge_keys obj data)) as [Hin|Hin]; [done|].
  rewrite elem_of_merge_keys, get_inherited_own in Hin by done.
  destruct (nullish (get obj key)) eqn:E; [|done].
  exfalso. apply Hin. split; [done|]. split; [done|].
  unfold get in Hdata. by destruct (data !! key).
Qed.

(** X11: what the merge step of [_renderScaffold] leaves at a key, where
    [obj[key]] is the own property of the parsed front matter or, for a name
    such as [constructor] or [toString], the property that every object
    inherits.  When [obj[key]] is neither [null] nor [undefined] the front
    matter is left as it is at that key, whatever the metadata supplies: so
    a value of the front matter is kept, and a key of the metadata that is
    the name of an inherited property is not copied.  When [obj[key]] is
    [null] or [undefined] and the key is not a reserved one, the value of
    the metadata is copied, as it is before any quoting.  A key that the
    metadata does not have keeps what the front matter had.  The merged
    object lacks a key exactly when the front matter lacks it and the key
    is reserved, or the name of an inherited property, or absent from the
    metadata. *)
Theorem mergeMetadata_spec (obj data : object) (key : jsstring) :
  (nullish (get_inherited obj key) = false →
   mergeMetadata obj data !! key = obj !! key)
  ∧ (key ∉ preservedKeys → nullish (get_inherited obj key) = true →
     is_Some (data !! key) → mergeMetadata obj data !! key = data !! key)
  ∧ (data !! key = None → mergeMetadata obj data !! key = obj !! key)
  ∧ (mergeMetadata obj data !! key = None
     ↔ obj !! key = None
       ∧ (key ∈ preservedKeys ∨ key ∈ objectPrototype ∨ data !! key = None))
  ∧ (nullish (get_inherited obj key) = true
     ↔ (obj !! key = None ∧ key ∉ objectPrototype)
       ∨ (∃ v, obj !! key = Some v ∧ nullish v = true)).
Proof.
  split; [|split; [|split; [|split; [|apply nullish_get_inherited]]]];
    rewrite mergeMetadata_lookup;
    destruct (decide (key ∈ merge_keys obj data)) as [Hin|Hin]; try done.
  - apply elem_of_merge_keys in Hin as (_ & Hnull & _). congruence.
  - rewrite elem_of_merge_keys in Hin. tauto.
  - apply elem_of_merge_keys in Hin as (_ & _ & [v Hv]). congruence.
  - apply elem_of_merge_keys in Hin as (Hres & Hnull & [v Hv]).
    rewrite Hv. split; [done|]. intros [Hobj [?|[Hproto|?]]]; [done| |congruence].
    apply nullish_get_inherited in Hnull as [[_ ?]|(v' & ? & _)]; congruence.
  - rewrite elem_of_merge_keys, nullish_get_inherited in Hin.
    split; [|tauto]. intros Hobj. split; [done|].
    destruct (decide (key ∈ preservedKeys)); [by left|right].
    destruct (decide (key ∈ objectPrototype)); [by left|right].
    destruct (data !! key) as [v|] eqn:Hv; [|done].
    exfalso. apply Hin. split; [done|]. split; [by left|by eauto].
Qed.

Lemma mergeMetadata_spec_witness :
  let obj : object :=
    {[ lit "tags" := VNull; lit "categories" := VString (lit "given") ]} in
  let data : object :=
    {[ lit "tags" := VString (lit "a: b");
       lit "categories" := VString (lit "mine");
       lit "constructor" := VString (lit "c");
       lit "title" := VString (lit "T") ]} in
  mergeMetadata obj data !! lit "categories" = Some (VString (lit "given"))
  ∧ mergeMetadata obj data !! lit "tags" = Some (VString (lit "a: b"))
  ∧ mergeMetadata obj data !! lit "constructor" = None
  ∧ mergeMetadata obj data !! lit "title" = None.
Proof.
  intros obj data.
  destruct (mergeMetadata_spec obj data (lit "categories")) as (H1 & _).
  destruct (mergeMetadata_spec obj data (lit "tags")) as (_ & H2 & _).
  destruct (mergeMetadata_spec obj data (lit "constructor"))
    as (_ & _ & _ & H3 & _).
  destruct (mergeMetadata_spec obj data (lit "title")) as (_ & _ & _ & H4 & _).
  split; [apply H1; reflexivity|].
  split; [apply H2; [apply (bool_decide_unpack _); by vm_compute
                    |reflexivity|by eexists]|].
  split.
  - apply H3. split; [reflexivity|right; left].
    apply (bool_decide_unpack _). by vm_compute.
  - apply H4. split; [reflexivity|left].
    apply (bool_decide_unpack _). by vm_compute.
Defined.

(** ** removeExtname *)

Section RemoveExtname.
Context `{Collaborators}.

(** X12: [removeExtname] returns a prefix of its argument, shorter by the
    length of the extension, so that, when the extension is an ending of the
    argument, as [path.extname] has it, the result followed by the extension
    is the argument; the result is empty when the extension is at least as
    long as the argument. *)
Theorem removeExtname_spec (s : jsstring) :
  removeExtname s `prefix_of` s
  ∧ length (removeExtname s) = (length s - length (extname s))%nat
  ∧ (extname s `suffix_of` s → removeExtname s ++ extname s = s)
  ∧ ((length s ≤ length (extname s))%nat → removeExtname s = []).
Proof.
  unfold removeExtname. split; [apply prefix_take|].
  split; [rewrite length_take; lia|]. split.
  - generalize (extname s). intros e [k ->]. rewrite length_app.
    replace (length k + length e - length e)%nat with (length k) by lia.
    by rewrite take_app_length.
  - intros Hlen. replace (length s - length (extname s))%nat with 0%nat by lia.
    done.
Qed.

End RemoveExtname.

Lemma removeExtname_spec_witness :
  @removeExtname blog_site (lit "source/_posts/a.b.md")
  = lit "source/_posts/a.b"
  ∧ @removeExtname blog_site (lit "source/_posts/a.b.md")
    ++ @extname blog_site (lit "source/_posts/a.b.md")
    = lit "source/_posts/a.b.md".
Proof.
  split; [reflexivity|].
  apply (@removeExtname_spec blog_site (lit "source/_posts/a.b.md")).
  by exists (lit "source/_posts/a.b").
Defined.

(** ** Running a chain of calls *)

Section RunLemmas.
Context {W : Type} (perform : ∀ X, op X → W → outcome X * W).

Lemma run_bind {A B} (m : prog A) (f : A → prog B) (w : W) :
  run perform (m ≫= f) w
  = match run perform m w with
    | (Returned a, w', t) =>
        let '(r, w'', t') := run perform (f a) w' in (r, w'', t ++ t')
    | (Thrown e, w', t) => (Thrown e, w', t)
    end.
Proof.
  unfold mbind, prog_mbind. revert w.
  induction m as [a|e|X o k IH]; intros w; cbn [prog_bind run].
  - by destruct (run perform (f a) w) as [[r w''] t'].
  - done.
  - destruct (perform X o w) as [[x|e] w1]; [|done].
    rewrite IH. destruct (run perform (k x) w1) as [[[a|e] w2] t]; [|done].
    by destruct (run perform (f a) w2) as [[r w3] t'].
Qed.

Lemma run_bind_Returned {A B} (m : prog A) (f : A → prog B) w b w'' t :
  run perform (m ≫= f) w = (Returned b, w'', t) →
  ∃ a w' t1 t2,
    run perform m w = (Returned a, w', t1)
    ∧ run perform (f a) w' = (Returned b, w'', t2)
    ∧ t = t1 ++ t2.
Proof.
  rewrite run_bind.
  destruct (run perform m w) as [[[a|e] w'] t1]; [|done].
  destruct (run perform (f a) w') as [[r w2] t2] eqn:E.
  intros [= -> -> <-]. by exists a, w', t1, t2.
Qed.

Lemma run_call_Returned {X B} (o : op X) (f : X → prog B) w b w'' t :
  run perform (call o ≫= f) w = (Returned b, w'', t) →
  ∃ x w' t2,
    perform X o w = (Returned x, w')
    ∧ run perform (f x) w' = (Returned b, w'', t2)
    ∧ t = Performed o :: t2.
Proof.
  intros H. apply run_bind_Returned in H as (x & w' & t1 & t2 & H1 & H2 & ->).
  cbn [call run] in H1. destruct (perform X o w) as [[x'|e] w1]; [|done].
  injection H1 as -> -> <-. by exists x, w', t2.
Qed.

Lemma run_lift_Returned {A B} (r : outcome A) (f : A → prog B) w b w'' t :
  run perform (lift r ≫= f) w = (Returned b, w'', t) →
  ∃ a, r = Returned a ∧ run perform (f a) w = (Returned b, w'', t).
Proof.
  destruct r as [a|e]; [|done]. intros H. by exists a.
Qed.

Lemma run_trace_Forall P {A} (p : prog A) w :
  calls_satisfy P p → Forall P (run perform p w).2.
Proof. intros H. by apply run_calls_satisfy. Qed.

End RunLemmas.

(** The calls of a chain all satisfy a property that the calls of its parts
    satisfy. *)
Ltac prog_calls :=
  repeat first
    [ progress cbn [calls_satisfy mbind prog_mbind prog_bind call lift
                    mret prog_ret]
    | split | intros ? | done
    | match goal with
      | |- context [lift ?r] => destruct r
      end
    | case_match ].

(** ** createAssetFolder *)

Section CreateAssetFolder.
Context `{Collaborators}.

Lemma createAssetFolder_quiet file assetFolder :
  calls_satisfy (λ c, written c = None ∧ is_removal c = false
                      ∧ is_read c = false)
    (createAssetFolder file assetFolder).
Proof. unfold createAssetFolder. prog_calls. Qed.

(** X13: [createAssetFolder] makes no call when the option is off, or when
    the post file without its extension is named [index].  Otherwise, in
    every world, it first asks whether the folder named after the post file
    without its extension exists: when the answer is that it does, that is
    the only call; when the answer is that it does not, the folder is
    created next, and the outcome is that of the creation; when the question
    fails, the failure is the outcome and nothing is created. *)
Theorem createAssetFolder_calls (file : jsstring) (assetFolder : bool) :
  let target := removeExtname file in
  (assetFolder = false ∨ basename target = lit "index" →
   createAssetFolder file assetFolder = Ret tt)
  ∧ (assetFolder = true → basename target ≠ lit "index" →
     ∀ (W : Type) (perform : ∀ X, op X → W → outcome X * W) (w w1 : W),
       (perform _ (Exists target) w = (Returned true, w1) →
        run perform (createAssetFolder file assetFolder) w
        = (Returned tt, w1, [Performed (Exists target)]))
       ∧ (perform _ (Exists target) w = (Returned false, w1) →
          run perform (createAssetFolder file assetFolder) w
          = ((perform _ (Mkdirs target) w1).1, (perform _ (Mkdirs target) w1).2,
             [Performed (Exists target); Performed (Mkdirs target)]))
       ∧ (∀ e, perform _ (Exists target) w = (Thrown e, w1) →
          run perform (createAssetFolder file assetFolder) w
          = (Thrown e, w1, [Performed (Exists target)]))).
Proof.
  intros target. unfold createAssetFolder. fold target. split.
  - intros [-> | Hindex]; [done|].
    destruct assetFolder; [|done]. cbn [negb].
    by rewrite bool_decide_eq_true_2.
  - intros -> Hindex W perform w w1. cbn [negb].
    rewrite bool_decide_eq_false_2 by done.
    cbn [mbind prog_mbind prog_bind call run].
    split; [|split].
    + by intros ->.
    + intros ->. cbn [negb call run].
      by destruct (perform unit (Mkdirs target) w1) as [[[]|e] w2].
    + by intros e ->.
Qed.

End CreateAssetFolder.

(** ** _renderScaffold *)

Section RenderScaffold.
Context `{Collaborators}.
Context {W : Type} (perform : ∀ X, op X → W → outcome X * W).

(** The calls of [_renderScaffold] are to the scaffolds and to the tag
    engine. *)
Lemma renderScaffold_quiet data :
  calls_satisfy (λ c, is_write c = false ∧ is_read c = false
                      ∧ is_hook c = false)
    (_renderScaffold data).
Proof. unfold _renderScaffold, _getScaffold. prog_calls. Qed.

(** The content of the metadata ends the text that [_renderScaffold]
    returns. *)
Lemma renderScaffold_Returned_body data w r w' trace :
  run perform (_renderScaffold data) w = (Returned r, w', trace) →
  value_truthy (get data (lit "content")) = true →
  ∃ front, r = front ++ [NEWLINE] ++ template (get data (lit "content")).
Proof.
  unfold _renderScaffold. intros Hrun Hcontent.
  apply run_bind_Returned in Hrun as (scaffold & w1 & t1 & t2 & _ & Hrun & ->).
  apply run_lift_Returned in Hrun as (sp & _ & Hrun).
  apply run_call_Returned in Hrun as (fm & w2 & t3 & _ & Hrun & ->).
  apply run_lift_Returned in Hrun as (obj & _ & Hrun).
  apply run_bind_Returned in Hrun as (obj' & w3 & t4 & t5 & _ & Hrun & ->).
  rewrite Hcontent in Hrun. cbn in Hrun. injection Hrun as <- _ _.
  by eexists.
Qed.

(** X14: a run of [_renderScaffold] that returns has looked up the
    scaffold of the layout, split it, and made one more call, its last: the
    rendering, by the tag engine, of the front matter part of the scaffold
    with the prepared metadata as its variables.  What the tag engine
    answered was parsed, as JSON between braces when the separator starts
    with a semicolon and as YAML otherwise, and the metadata was merged into
    the object parsed; when nothing was parsed, the metadata has reserved
    keys only.  The text returned is the separator and a line feed, when
    the scaffold begins with the separator, then the merged object as
    [stringify] prints it, then the content part of the scaffold and, when
    the metadata has a content that is not falsy, a line feed and that
    content, as it is.  The object printed has every value that the metadata
    supplies for a key that is neither reserved nor the name of an inherited
    property, unless it has its own. *)
Theorem renderScaffold_content (data : object) (w w' : W) (r : jsstring)
    (trace : list performed) :
  run perform (_renderScaffold data) w = (Returned r, w', trace) →
  ∃ (scaffold : option jsstring) (splitted : Splitted) (w1 : W)
    (t1 : list performed) (frontMatter : jsstring) (parsed : option object),
    let jsonMode := startsWith (separator splitted) (lit ";") in
    let rendering :=
      TagRender (split_data splitted) (prepareFrontMatter data jsonMode) in
    run perform (_getScaffold (get data (lit "layout"))) w
    = (Returned scaffold, w1, t1)
    ∧ yfmSplit scaffold = Returned splitted
    ∧ perform _ rendering w1 = (Returned frontMatter, w')
    ∧ trace = t1 ++ [Performed rendering]
    ∧ (if jsonMode then JSON_parse (lit "{" ++ frontMatter ++ lit "}")
       else yaml_load frontMatter) = Returned parsed
    ∧ (parsed = None → ∀ key, is_Some (data !! key) → key ∈ preservedKeys)
    ∧ r = (if prefixSeparator splitted
           then separator splitted ++ [NEWLINE] else [])
          ++ yfmStringify ((λ o, mergeMetadata o data) <$> parsed) jsonMode
          ++ split_content splitted
          ++ (if value_truthy (get data (lit "content"))
              then [NEWLINE] ++ template (get data (lit "content")) else [])
    ∧ (∀ o key, parsed = Some o →
         key ∉ preservedKeys → key ∉ objectPrototype →
         nullish (get data key) = false →
         nullish (get (mergeMetadata o data) key) = false).
Proof.
  unfold _renderScaffold. intros Hrun.
  apply run_bind_Returned in Hrun as (scaffold & w1 & t1 & t2 & H1 & Hrun & ->).
  apply run_lift_Returned in Hrun as (sp & Hsp & Hrun).
  apply run_call_Returned in Hrun as (fm & w2 & t3 & H2 & Hrun & ->).
  apply run_lift_Returned in Hrun as (obj & Hobj & Hrun).
  apply run_bind_Returned in Hrun as (obj' & w3 & t4 & t5 & H3 & Hrun & ->).
  exists scaffold, sp, w1, t1, fm, obj. cbn zeta.
  assert (Hmerged : obj' = (λ o, mergeMetadata o data) <$> obj ∧ w3 = w2
                    ∧ t4 = []
                    ∧ (obj = None →
                       ∀ key, is_Some (data !! key) → key ∈ preservedKeys)).
  { destruct obj as [o|].
    - cbn in H3. by injection H3 as <- <- <-.
    - destruct (forallb _ _) eqn:Hall; [|done]. cbn in H3.
      injection H3 as <- <- <-. repeat split; try done.
      intros _ key [v Hv]. rewrite forallb_forall in Hall.
      specialize (Hall key). rewrite bool_decide_eq_true in Hall.
      apply Hall, list_elem_of_In, list_elem_of_fmap.
      exists (key, v). split; [done|]. by apply elem_of_map_to_list. }
  destruct Hmerged as (-> & -> & -> & Hnone).
  assert (Hend : w' = w2 ∧ t5 = []
    ∧ r = (if prefixSeparator sp then separator sp ++ [NEWLINE] else [])
          ++ yfmStringify ((λ o, mergeMetadata o data) <$> obj)
               (startsWith (separator sp) (lit ";"))
          ++ split_content sp
          ++ (if value_truthy (get data (lit "content"))
              then [NEWLINE] ++ template (get data (lit "content")) else [])).
  { destruct (value_truthy (get data (lit "content")));
      cbn in Hrun; injection Hrun as <- <- <-;
      by rewrite <- ?app_assoc, ?app_nil_r. }
  destruct Hend as (-> & -> & ->).
  repeat split; try done.
  intros o key _. apply mergeMetadata_supplied.
Qed.

End RenderScaffold.

Section RenderScaffoldErrors.
Context `{Collaborators}.
Context {W : Type} (perform : ∀ X, op X → W → outcome X * W).

Lemma forallb_reserved_false (data : object) key :
  is_Some (data !! key) → key ∉ preservedKeys →
  forallb (λ k, bool_decide (k ∈ preservedKeys)) (map_to_list data).*1 = false.
Proof.
  intros [v Hv] Hres.
  destruct (forallb _ _) eqn:E; [exfalso|done].
  rewrite forallb_forall in E. specialize (E key).
  rewrite bool_decide_eq_true in E. apply Hres, E.
  apply list_elem_of_In, list_elem_of_fmap. exists (key, v).
  split; [done|]. by apply elem_of_map_to_list.
Qed.

(** X15: when the scaffold of the layout is found and is in YAML mode, and
    the parser returns no object for what the tag engine rendered, as for
    an empty front matter, then [_renderScaffold] fails with a type error
    as soon as the metadata has one key that is not reserved: the merge
    step reads a property of nothing.  The two calls made are the lookup of
    the scaffold and the rendering. *)
Theorem renderScaffold_no_front_matter (data : object) (w w1 w2 : W)
    (scaffold frontMatter key : jsstring) (splitted : Splitted) :
  perform _ (ScaffoldGet (get data (lit "layout"))) w
  = (Returned (Some scaffold), w1) →
  yfmSplit (Some scaffold) = Returned splitted →
  startsWith (separator splitted) (lit ";") = false →
  perform _ (TagRender (split_data splitted) (prepareFrontMatter data false)) w1
  = (Returned frontMatter, w2) →
  yaml_load frontMatter = Returned None →
  is_Some (data !! key) → key ∉ preservedKeys →
  run perform (_renderScaffold data) w
  = (Thrown TypeError, w2,
     [Performed (ScaffoldGet (get data (lit "layout")));
      Performed (TagRender (split_data splitted)
                   (prepareFrontMatter data false))]).
Proof.
  intros Hget Hsplit Hmode Htag Hload Hkey Hres.
  unfold _renderScaffold, _getScaffold.
  cbn [mbind prog_mbind prog_bind call run lift]. rewrite Hget.
  cbn [mbind prog_mbind prog_bind call run lift]. rewrite Hsplit.
  cbn [mbind prog_mbind prog_bind call run lift]. rewrite Hmode, Htag.
  cbn [mbind prog_mbind prog_bind call run lift]. rewrite Hload.
  cbn [mbind prog_mbind prog_bind call run lift].
  by rewrite (forallb_reserved_false data key).
Qed.

End RenderScaffoldErrors.

Lemma renderScaffold_no_front_matter_witness :
  let data : object :=
    {[ lit "layout" := VString (lit "empty"); lit "tags" := VString (lit "a") ]} in
  run blog_perform (@_renderScaffold blog_site data) tt
  = (Thrown TypeError, tt,
     [Performed (ScaffoldGet (VString (lit "empty")));
      Performed (TagRender [] (@prepareFrontMatter blog_site data false))]).
Proof.
  intros data.
  apply (@renderScaffold_no_front_matter blog_site unit blog_perform data
           tt tt tt [] [] (lit "tags")
           {| separator := lit "---"; prefixSeparator := false;
              split_data := []; split_content := lit "---" |}).
  - reflexivity.
  - reflexivity.
  - reflexivity.
  - reflexivity.
  - reflexivity.
  - by eexists.
  - apply (bool_decide_unpack _). by vm_compute.
Defined.

(** ** create *)

Section Create.
Context `{Collaborators}.
Context {W : Type} (perform : ∀ X, op X → W → outcome X * W).

(** X16: [create] throws a type error, before any call, when the metadata
    has neither a slug nor a title to take the slug from, and when the
    layout, or the default layout in its place, is not a string.  In every
    other case it throws nothing before its first call. *)
Theorem create_type_errors (data : object) (replace : bool) :
  (nullish (value_or (get data (lit "slug")) (get data (lit "title"))) = true →
   create data replace = Throw TypeError)
  ∧ ((∀ s, value_or (get data (lit "layout")) default_layout ≠ VString s) →
     create data replace = Throw TypeError)
  ∧ (nullish (value_or (get data (lit "slug")) (get data (lit "title"))) = false →
     (∃ s, value_or (get data (lit "layout")) default_layout = VString s) →
     ∀ e, create data replace ≠ Throw e).
Proof.
  unfold create. split; [|split].
  - intros Hnull. by destruct (value_or _ _).
  - intros Hlayout.
    destruct (toString_method _) as [slug|e] eqn:Hslug.
    + cbn [lift mbind prog_mbind prog_bind].
      rewrite get_insert_ne by by vm_compute.
      destruct (value_or (get data (lit "layout")) default_layout) eqn:E;
        try done.
      by destruct (Hlayout s).
    + cbn. destruct (value_or (get data (lit "slug")) _); cbn in Hslug;
        congruence.
  - intros Hnull [s Hs] e.
    destruct (toString_method _) as [slug|e'] eqn:Hslug;
      [|by destruct (value_or (get data (lit "slug")) _)].
    cbn [lift mbind prog_mbind prog_bind].
    rewrite get_insert_ne by by vm_compute. rewrite Hs.
    cbn [toLowerCase_method lift mbind prog_mbind prog_bind].
    by destruct (value_truthy _).
Qed.

Lemma create_quiet data replace :
  calls_satisfy (λ c, is_removal c = false ∧ is_read c = false
                      ∧ is_hook c = false)
    (create data replace).
Proof.
  unfold create, _renderScaffold, _getScaffold, createAssetFolder. prog_calls.
Qed.

(** X17: in no world does [create] delete, copy or remove anything, read a
    file or list a directory, or run a hook of rendering. *)
Theorem create_never_removes (data : object) (replace : bool) (w : W) :
  Forall (λ c, is_removal c = false ∧ is_read c = false ∧ is_hook c = false)
    (run perform (create data replace) w).2.
Proof.
  apply run_calls_satisfy.
  unfold create, _renderScaffold, _getScaffold, createAssetFolder.
  prog_calls.
Qed.

(** A run of [create] that returns has written the result. *)
Lemma create_Returned_written data replace w result w' trace :
  run perform (create data replace) w = (Returned result, w', trace) →
  List.Exists (λ c, written c = Some (path result, content result)) trace.
Proof.
  unfold create. intros Hrun.
  apply run_lift_Returned in Hrun as (slug & _ & Hrun).
  apply run_lift_Returned in Hrun as (layout & _ & Hrun).
  apply run_bind_Returned in Hrun as (date & w1 & t1 & t2 & _ & Hrun & ->).
  apply run_call_Returned in Hrun as (file & w2 & t3 & _ & Hrun & ->).
  apply run_bind_Returned in Hrun as (text & w3 & t4 & t5 & _ & Hrun & ->).
  apply run_call_Returned in Hrun as ([] & w4 & t6 & _ & Hrun & ->).
  apply run_bind_Returned in Hrun as ([] & w5 & t7 & t8 & _ & Hrun & ->).
  apply run_call_Returned in Hrun as ([] & w6 & t9 & _ & Hrun & ->).
  cbn in Hrun. injection Hrun as <- <- <-. cbn [path content].
  apply Exists_app. right. apply Exists_cons_tl, Exists_app. right.
  by apply Exists_cons_hd.
Qed.

(** The content of the metadata ends the content that [create] returns. *)
Lemma create_Returned_body data replace w result w' trace :
  run perform (create data replace) w = (Returned result, w', trace) →
  value_truthy (get data (lit "content")) = true →
  ∃ front, content result
           = front ++ [NEWLINE] ++ template (get data (lit "content")).
Proof.
  unfold create. intros Hrun Hcontent.
  apply run_lift_Returned in Hrun as (slug & _ & Hrun).
  apply run_lift_Returned in Hrun as (layout & _ & Hrun).
  apply run_bind_Returned in Hrun as (date & w1 & t1 & t2 & _ & Hrun & ->).
  apply run_call_Returned in Hrun as (file & w2 & t3 & _ & Hrun & ->).
  apply run_bind_Returned in Hrun as (text & w3 & t4 & t5 & H3 & Hrun & ->).
  apply run_call_Returned in Hrun as ([] & w4 & t6 & _ & Hrun & ->).
  apply run_bind_Returned in Hrun as ([] & w5 & t7 & t8 & _ & Hrun & ->).
  apply run_call_Returned in Hrun as ([] & w6 & t9 & _ & Hrun & ->).
  cbn in Hrun. injection Hrun as <- _ _. cbn [content].
  apply renderScaffold_Returned_body in H3.
  - by rewrite !get_insert_ne in H3 by by vm_compute.
  - by rewrite !get_insert_ne by by vm_compute.
Qed.

(** X18: in a run of [create] that returns, the [new_post_path] filter was
    asked for the path with the metadata in which the slug is slugized, the
    layout in lower case and the date set, and the content returned is what
    was written to the path returned.  Before that file is written, nothing
    is written or removed; after it come calls that write no file and remove
    nothing, and last the event [new] with the result. *)
Theorem create_writes_result (data : object) (replace : bool) (w w' : W)
    (result : Result) (trace : list performed) :
  run perform (create data replace) w = (Returned result, w', trace) →
  ∃ (slug layout : jsstring) (date : Z) (before after : list performed),
    toString_method (value_or (get data (lit "slug")) (get data (lit "title")))
    = Returned slug
    ∧ toLowerCase_method (value_or (get data (lit "layout")) default_layout)
      = Returned layout
    ∧ Performed
        (NewPostPath
           (<[lit "date" := VMoment date]>
              (<[lit "layout" := VString layout]>
                 (<[lit "slug" := VString (slugize slug filename_case)]> data)))
           replace) ∈ before
    ∧ trace = before
              ++ Performed (WriteFile (path result) (content result))
              :: after ++ [Performed (Emit (lit "new") result)]
    ∧ Forall (λ c, is_write c = false ∧ is_removal c = false) before
    ∧ Forall (λ c, written c = None ∧ is_removal c = false) after.
Proof.
  unfold create. intros Hrun.
  apply run_lift_Returned in Hrun as (slug & Hslug & Hrun).
  apply run_lift_Returned in Hrun as (layout & Hlayout & Hrun).
  rewrite get_insert_ne in Hlayout by by vm_compute.
  apply run_bind_Returned in Hrun as (date & w1 & t1 & t2 & H1 & Hrun & ->).
  apply run_call_Returned in Hrun as (file & w2 & t3 & H2 & Hrun & ->).
  apply run_bind_Returned in Hrun as (text & w3 & t4 & t5 & H3 & Hrun & ->).
  apply run_call_Returned in Hrun as ([] & w4 & t6 & H4 & Hrun & ->).
  apply run_bind_Returned in Hrun as ([] & w5 & t7 & t8 & H5 & Hrun & ->).
  apply run_call_Returned in Hrun as ([] & w6 & t9 & H6 & Hrun & ->).
  cbn in Hrun. injection Hrun as <- <- <-. cbn [path content].
  exists slug, layout, date. eexists (t1 ++ _ :: t4), t7.
  split; [done|]. split; [done|].
  split; [rewrite elem_of_app, elem_of_cons; by eauto|].
  split; [by rewrite <- !app_assoc|]. split.
  - apply Forall_app_2; [|constructor; [done|]].
    + destruct (value_truthy _); cbn [run call] in H1.
      * by injection H1 as <- <- <-.
      * destruct (perform _ Now w) as [[x|e] w'']; [|done].
        injection H1 as <- <- <-. by constructor.
    + epose proof (run_trace_Forall perform _ _ w2 (renderScaffold_quiet _))
        as Hq.
      erewrite H3 in Hq. eapply Forall_impl; [exact Hq|].
      intros c (Hw & _). split; [done|]. by destruct c as [X []].
  - pose proof (run_trace_Forall perform _ _ w4
                  (createAssetFolder_quiet file post_asset_folder)) as Hq.
    rewrite H5 in Hq. eapply Forall_impl; [exact Hq|]. by intros c (? & ? & _).
Qed.

End Create.

(** ** publish, when the draft is there *)

Lemma split_after {A} (P : A → Prop) (a b t1 : list A) c (t2 : list A) :
  Forall (λ x, ¬ P x) a → a ++ b = t1 ++ c :: t2 → P c →
  ∃ t1', t1 = a ++ t1' ∧ b = t1' ++ c :: t2.
Proof.
  intros Ha. revert t1. induction Ha as [|x a Hx Ha IH]; intros t1 Heq Hc.
  - by exists t1.
  - destruct t1 as [|y t1]; cbn [app] in Heq.
    + injection Heq as -> _. done.
    + injection Heq as -> Heq. destruct (IH t1 Heq Hc) as (t1' & -> & ->).
      by exists t1'.
Qed.

Section Publish.
Context `{Collaborators}.
Context {W : Type} (perform : ∀ X, op X → W → outcome X * W).

Lemma draft_layout_slug (data : object) :
  get (if bool_decide (get data (lit "layout") = VString (lit "draft"))
       then <[lit "layout" := VString (lit "post")]> data else data)
    (lit "slug")
  = get data (lit "slug").
Proof.
  case_bool_decide; [|done]. by rewrite get_insert_ne by by vm_compute.
Qed.

(** X19: [publish] throws a type error, before any call, when the metadata
    has no slug, whether or not it has a title, and when the layout, or the
    default layout in its place, is not a string. *)
Theorem publish_type_errors (data : object) (replace : bool) :
  (nullish (get data (lit "slug")) = true →
   publish data replace = Throw TypeError)
  ∧ ((∀ s, value_or (get data (lit "layout")) default_layout ≠ VString s) →
     publish data replace = Throw TypeError).
Proof.
  unfold publish. rewrite draft_layout_slug. split.
  - intros Hnull. by destruct (get data (lit "slug")).
  - intros Hlayout.
    destruct (toString_method (get data (lit "slug"))) as [s|e] eqn:Hs.
    + cbn [lift mbind prog_mbind prog_bind].
      rewrite get_insert_ne by by vm_compute.
      case_bool_decide as Hd.
      * rewrite Hd in Hlayout. by destruct (Hlayout (lit "draft")).
      * destruct (value_or (get data (lit "layout")) default_layout) eqn:E;
          try done.
        by destruct (Hlayout s0).
    + cbn. destruct (get data (lit "slug")); cbn in Hs; congruence.
Qed.

Lemma draft_regex_test_iff slug item :
  draft_regex_test slug item = true
  ↔ ∃ c x, item = slug ++ c :: x ∧ c ≠ SLASH ∧ c ≠ BACKSLASH.
Proof.
  unfold draft_regex_test. split.
  - destruct (strip_prefix slug item) as [[|c x]|] eqn:E; try done.
    apply strip_prefix_Some in E as ->. intros Hc.
    apply andb_true_iff in Hc as [H1 H2].
    apply negb_true_iff, N.eqb_neq in H1, H2. by exists c, x.
  - intros (c & x & -> & H1 & H2). rewrite strip_prefix_app.
    apply N.eqb_neq in H1, H2. by rewrite H1, H2.
Qed.

Lemma find_first {A} (f : A → bool) l1 x l2 :
  Forall (λ y, f y = false) l1 → f x = true →
  List.find f (l1 ++ x :: l2) = Some x.
Proof.
  induction 1 as [|y l1 Hy _ IH]; intros Hx; cbn [app List.find].
  - by rewrite Hx.
  - rewrite Hy. auto.
Qed.

(** X20: [publish] takes the first entry of the drafts directory, in the
    order of the listing, that begins with the slug and goes on with a
    character other than a slash and a backslash, and reads that file next.
    The entry need not be the slug with an extension: a draft whose name
    only begins with the slug is taken when it comes first. *)
Theorem publish_reads_first_match (data : object) (replace : bool)
    (s layout : jsstring) (w w1 : W) (l1 l2 : list jsstring)
    (c : N) (x : jsstring) :
  let slug := slugize s filename_case in
  let draftDir := path_join source_dir (lit "_drafts") in
  toString_method (get data (lit "slug")) = Returned s →
  value_or (get data (lit "layout")) default_layout = VString layout →
  perform _ (ListDir draftDir) w = (Returned (l1 ++ (slug ++ c :: x) :: l2), w1) →
  Forall (λ item, draft_regex_test slug item = false) l1 →
  c ≠ SLASH → c ≠ BACKSLASH →
  take 2 (run perform (publish data replace) w).2
  = [Performed (ListDir draftDir);
     Performed (ReadFile (path_join draftDir (slug ++ c :: x)))].
Proof.
  intros slug draftDir Hslug Hlayout Hlist Hl1 Hc1 Hc2.
  unfold publish. rewrite draft_layout_slug, Hslug.
  cbn [lift mbind prog_mbind prog_bind].
  rewrite get_insert_ne by by vm_compute.
  assert (Hl : ∃ l, value_or
            (get (if bool_decide (get data (lit "layout") = VString (lit "draft"))
                  then <[lit "layout" := VString (lit "post")]> data else data)
               (lit "layout")) default_layout = VString l).
  { case_bool_decide; [|by eauto]. rewrite get_insert_eq. by eexists. }
  destruct Hl as [l ->].
  cbn [toLowerCase_method lift mbind prog_mbind prog_bind call run].
  fold draftDir. rewrite Hlist. fold slug.
  rewrite find_first; [|done|apply draft_regex_test_iff; by eauto].
  cbn [prog_bind run].
  destruct (perform _ (ReadFile _) w1) as [[content|e] w2]; [|done].
  by destruct (run perform _ w2) as [[r w3] t].
Qed.

(** Every run of [publish]: what removes or moves comes after the post is
    written. *)
Lemma publish_run data replace w r w' trace :
  run perform (publish data replace) w = (r, w', trace) →
  ∃ a b,
    trace = a ++ b
    ∧ Forall (λ c, is_removal c = false) a
    ∧ (b = [] ∨ List.Exists (λ c, is_Some (written c)) a).
Proof.
  unfold publish.
  destruct (toString_method _) as [s|e]; cbn [lift mbind prog_mbind prog_bind];
    [|cbn [run]; intros [= <- <- <-]; exists [], []; by auto].
  destruct (toLowerCase_method _) as [layout|e];
    cbn [lift mbind prog_mbind prog_bind];
    [|cbn [run]; intros [= <- <- <-]; exists [], []; by auto].
  cbn [lift mbind prog_mbind prog_bind call run].
  set (draftDir := path_join source_dir (lit "_drafts")).
  destruct (perform _ (ListDir draftDir) w) as [[list|e] w1];
    [|intros [= <- <- <-]; eexists _, []; rewrite app_nil_r;
      split; [done|]; split; [by repeat constructor|by left]].
  destruct (List.find _ list) as [item|];
    [|cbn [run]; intros [= <- <- <-]; eexists _, []; rewrite app_nil_r;
      split; [done|]; split; [by repeat constructor|by left]].
  cbn [lift mbind prog_mbind prog_bind call run].
  destruct (perform _ (ReadFile _) w1) as [[content|e] w2];
    [|intros [= <- <- <-]; eexists _, []; rewrite app_nil_r;
      split; [done|]; split; [by repeat constructor|by left]].
  match goal with
  | |- context [create ?d replace ≫= _] => set (d6 := d)
  end.
  rewrite run_bind.
  pose proof (run_trace_Forall perform _ _ w2 (create_quiet d6 replace)) as Hq.
  destruct (run perform (create d6 replace) w2) as [[[post|e] w3] t_c] eqn:Hc.
  - apply create_Returned_written in Hc.
    destruct (run perform _ w3) as [[r' w4] t_k].
    intros [= <- <- <-].
    exists (Performed (ListDir draftDir) :: Performed (ReadFile (path_join draftDir item)) :: t_c), t_k.
    split; [done|]. split.
    + repeat (constructor; [done|]). eapply Forall_impl; [exact Hq|].
      by intros c [? _].
    + right. do 2 apply Exists_cons_tl.
      eapply Exists_impl; [exact Hc|].
      intros c Hw. cbn beta in Hw. rewrite Hw. by eexists.
  - intros [= <- <- <-]. eexists _, []. rewrite app_nil_r. split; [done|].
    split; [|by left]. repeat (constructor; [done|]).
    eapply Forall_impl; [exact Hq|]. by intros c [? _].
Qed.

(** X21: in every run of [publish], whether it returns or fails, a call
    that deletes, copies or removes comes after a call that writes a file:
    the draft is not touched before the post is written. *)
Theorem publish_removes_after_write (data : object) (replace : bool) (w : W)
    (t1 t2 : list performed) (c : performed) :
  (run perform (publish data replace) w).2 = t1 ++ c :: t2 →
  is_removal c = true →
  List.Exists (λ c', is_Some (written c')) t1.
Proof.
  destruct (run perform (publish data replace) w) as [[r w'] trace] eqn:Hrun.
  cbn [snd]. intros Heq Hc.
  apply publish_run in Hrun as (a & b & -> & Ha & Hb).
  destruct (split_after (λ c, is_removal c = true) a b t1 c t2)
    as (t1' & -> & Hb'); [|done..|].
  { eapply Forall_impl; [exact Ha|]. intros x Hx. by rewrite Hx. }
  destruct Hb as [-> | Hw]; [by destruct t1'|].
  apply Exists_app. by left.
Qed.

(** X22: a run of [publish] that returns has listed the drafts directory
    and, of the names that the listing answered, taken the first that
    matches the slug; it has read that draft, and run [create] on the
    metadata over which the parsed draft is laid, with the body of the draft
    for content: the post that [create] returned is the result, and its
    content was written to its path.  Then the draft was deleted.  Without
    asset folders nothing follows.  With them, the folder named after the
    draft is looked for: when the answer is that it does not exist, that is
    the last call; when it exists, it is copied to the folder named after
    the post and then removed. *)
Theorem publish_success (data : object) (replace : bool) (w w' : W)
    (result : Result) (trace : list performed) :
  run perform (publish data replace) w = (Returned result, w', trace) →
  ∃ (s layout text : jsstring) (names : list jsstring) (item : jsstring)
    (w1 w2 w3 w4 : W) (t_create t_assets : list performed),
    let slug := slugize s filename_case in
    let draftDir := path_join source_dir (lit "_drafts") in
    let src := path_join draftDir item in
    let assetSrc := removeExtname src in
    let data0 :=
      if bool_decide (get data (lit "layout") = VString (lit "draft"))
      then <[lit "layout" := VString (lit "post")]> data else data in
    let assigned :=
      yfmParse text
      ∪ <[lit "layout" := VString layout]>
          (<[lit "slug" := VString slug]> data0) in
    let post_data :=
      <[lit "_content" := VUndefined]>
        (<[lit "content" := get assigned (lit "_content")]> assigned) in
    toString_method (get data (lit "slug")) = Returned s
    ∧ toLowerCase_method (value_or (get data0 (lit "layout")) default_layout)
      = Returned layout
    ∧ perform _ (ListDir draftDir) w = (Returned names, w1)
    ∧ List.find (draft_regex_test slug) names = Some item
    ∧ perform _ (ReadFile src) w1 = (Returned text, w2)
    ∧ run perform (create post_data replace) w2 = (Returned result, w3, t_create)
    ∧ perform _ (Unlink src) w3 = (Returned tt, w4)
    ∧ trace = Performed (ListDir draftDir) :: Performed (ReadFile src)
              :: t_create ++ Performed (Unlink src) :: t_assets
    ∧ Forall (λ c, is_removal c = false) t_create
    ∧ List.Exists (λ c, written c = Some (path result, content result)) t_create
    ∧ (if post_asset_folder
       then ∃ (exist : bool) (w5 : W),
              perform _ (Exists assetSrc) w4 = (Returned exist, w5)
              ∧ if exist
                then ∃ w6,
                       perform _ (CopyDir assetSrc (removeExtname (path result)))
                         w5 = (Returned tt, w6)
                       ∧ perform _ (Rmdir assetSrc) w6 = (Returned tt, w')
                       ∧ t_assets
                         = [Performed (Exists assetSrc);
                            Performed (CopyDir assetSrc
                                         (removeExtname (path result)));
                            Performed (Rmdir assetSrc)]
                else w' = w5 ∧ t_assets = [Performed (Exists assetSrc)]
       else w' = w4 ∧ t_assets = []).
Proof.
  unfold publish. rewrite draft_layout_slug. intros Hrun.
  apply run_lift_Returned in Hrun as (s & Hs & Hrun).
  apply run_lift_Returned in Hrun as (layout & Hlayout & Hrun).
  rewrite get_insert_ne in Hlayout by by vm_compute.
  apply run_call_Returned in Hrun as (names & w1 & t1 & Hlist & Hrun & ->).
  destruct (List.find _ names) as [item|] eqn:Hfind; [|done].
  apply run_call_Returned in Hrun as (text & w2 & t2 & Hread & Hrun & ->).
  apply run_bind_Returned in Hrun as (post & w3 & t3 & t4 & Hc & Hrun & ->).
  apply run_call_Returned in Hrun as ([] & w4 & t5 & Hunlink & Hrun & ->).
  epose proof (run_trace_Forall perform _ _ w2 (create_quiet _ replace)) as Hq.
  erewrite Hc in Hq.
  pose proof (create_Returned_written _ _ _ _ _ _ _ Hc) as Hwritten.
  exists s, layout, text, names, item, w1, w2, w3, w4, t3, t5. cbn zeta.
  set (assetSrc := removeExtname
                     (path_join (path_join source_dir (lit "_drafts")) item))
    in *.
  assert (Hassets : post = result ∧
    if post_asset_folder
    then ∃ (exist : bool) (w5 : W),
           perform _ (Exists assetSrc) w4 = (Returned exist, w5)
           ∧ if exist
             then ∃ w6,
                    perform _ (CopyDir assetSrc (removeExtname (path post)))
                      w5 = (Returned tt, w6)
                    ∧ perform _ (Rmdir assetSrc) w6 = (Returned tt, w')
                    ∧ t5 = [Performed (Exists assetSrc);
                            Performed (CopyDir assetSrc
                                         (removeExtname (path post)));
                            Performed (Rmdir assetSrc)]
             else w' = w5 ∧ t5 = [Performed (Exists assetSrc)]
    else w' = w4 ∧ t5 = []).
  { destruct post_asset_folder; cbn [negb] in Hrun.
    - apply run_call_Returned in Hrun as (exist & w5 & t6 & Hex & Hrun & ->).
      split; [|exists exist, w5; split; [done|]];
        destruct exist; cbn [negb] in Hrun.
      + apply run_call_Returned in Hrun as ([] & w6 & t7 & _ & Hrun & ->).
        apply run_call_Returned in Hrun as ([] & w7 & t8 & _ & Hrun & ->).
        cbn in Hrun. by injection Hrun as -> <- <-.
      + cbn in Hrun. by injection Hrun as -> <- <-.
      + apply run_call_Returned in Hrun as ([] & w6 & t7 & Hcopy & Hrun & ->).
        apply run_call_Returned in Hrun as ([] & w7 & t8 & Hrm & Hrun & ->).
        cbn in Hrun. injection Hrun as -> <- <-. by exists w6.
      + cbn in Hrun. by injection Hrun as -> <- <-.
    - cbn in Hrun. by injection Hrun as -> <- <-. }
  destruct Hassets as [-> Hassets].
  repeat (split; [done|]). split; [|by split].
  eapply Forall_impl; [exact Hq|]. by intros c [? _].
Qed.

(** X27: [publish] keeps the body of the draft.  When the draft that is
    read is parsed with a body, [_content], that is not falsy, the content of
    the post that a run of [publish] returns, which is what was written,
    ends with a line feed and that body, as it is. *)
Theorem publish_keeps_body (data : object) (replace : bool)
    (s text : jsstring) (body : value) (names : list jsstring)
    (item : jsstring) (w w1 w2 w' : W) (result : Result)
    (trace : list performed) :
  let slug := slugize s filename_case in
  let draftDir := path_join source_dir (lit "_drafts") in
  toString_method (get data (lit "slug")) = Returned s →
  perform _ (ListDir draftDir) w = (Returned names, w1) →
  List.find (draft_regex_test slug) names = Some item →
  perform _ (ReadFile (path_join draftDir item)) w1 = (Returned text, w2) →
  yfmParse text !! lit "_content" = Some body →
  value_truthy body = true →
  run perform (publish data replace) w = (Returned result, w', trace) →
  ∃ front, content result = front ++ [NEWLINE] ++ template body.
Proof.
  intros slug draftDir Hslug Hlist Hfind Hread Hbody Htruthy.
  unfold publish. rewrite draft_layout_slug, Hslug. intros Hrun.
  cbn [lift mbind prog_mbind prog_bind] in Hrun.
  apply run_lift_Returned in Hrun as (layout & _ & Hrun).
  cbn [lift mbind prog_mbind prog_bind call run] in Hrun.
  fold draftDir in Hrun. rewrite Hlist in Hrun. fold slug in Hrun.
  rewrite Hfind in Hrun.
  cbn [lift mbind prog_mbind prog_bind call run] in Hrun.
  rewrite Hread in Hrun.
  match type of Hrun with
  | context [run perform (create ?d replace ≫= ?k) w2] =>
      set (d6 := d) in Hrun; set (k6 := k) in Hrun
  end.
  destruct (run perform (create d6 replace ≫= k6) w2) as [[r6 w6] t6] eqn:Hc.
  injection Hrun as -> _ _.
  apply run_bind_Returned in Hc as (post & w3 & t3 & t4 & Hc & Hk & _).
  assert (Hpost : post = result).
  { subst k6. cbn [call run] in Hk.
    destruct (perform _ (Unlink _) w3) as [[[]|e] w4]; [|done].
    destruct post_asset_folder; cbn [negb] in Hk.
    - cbn [mbind prog_mbind prog_bind call run] in Hk.
      destruct (perform _ (Exists _) w4) as [[[]|e] w5]; [| |done];
        cbn [negb mbind prog_mbind prog_bind call run] in Hk.
      + destruct (perform _ (CopyDir _ _) w5) as [[[]|e] w7]; [|done].
        destruct (perform _ (Rmdir _) w7) as [[[]|e] w8]; [|done].
        cbn in Hk. congruence.
      + cbn in Hk. congruence.
    - cbn in Hk. congruence. }
  subst post.
  assert (Hcontent : get d6 (lit "content") = body).
  { subst d6. rewrite get_insert_ne by by vm_compute.
    rewrite get_insert_eq. unfold get.
    by erewrite lookup_union_Some_l by exact Hbody. }
  apply create_Returned_body in Hc; [|by rewrite Hcontent].
  by rewrite Hcontent in Hc.
Qed.

End Publish.

Lemma create_writes_result_witness :
  let data : object := {[ lit "title" := VString (lit "hello") ]} in
  let result := {| path := lit "source/_posts/hello.md";
                   content := lit "title: x" ++ [NEWLINE] ++ lit "---" |} in
  ∃ (slug layout : jsstring) (date : Z) (before after : list performed),
    @toString_method blog_site
      (value_or (get data (lit "slug")) (get data (lit "title")))
    = Returned slug
    ∧ @toLowerCase_method blog_site
        (value_or (get data (lit "layout")) (@default_layout blog_site))
      = Returned layout
    ∧ Performed
        (NewPostPath
           (<[lit "date" := VMoment date]>
              (<[lit "layout" := VString layout]>
                 (<[lit "slug" := VString (@slugize blog_site slug
                                             (@filename_case blog_site))]> data)))
           false) ∈ before
    ∧ (run blog_perform (@create blog_site data false) tt).2
      = before
        ++ Performed (WriteFile (path result) (content result))
        :: after ++ [Performed (Emit (lit "new") result)]
    ∧ Forall (λ c, is_write c = false ∧ is_removal c = false) before
    ∧ Forall (λ c, written c = None ∧ is_removal c = false) after.
Proof.
  intros data result.
  apply (@create_writes_result blog_site unit blog_perform data false tt tt).
  vm_compute. reflexivity.
Defined.

(** ** render, for posts and for other files *)

Section Render.
Context `{Collaborators}.
Context {W : Type} (perform : ∀ X, op X → W → outcome X * W).

(** X23: for a file that is not a post, that is, when the metadata has a
    source whose output is neither [html] nor [htm], [render] runs no hook
    of rendering and never calls the tag engine; and when the content is
    given with the metadata, the renderer receives it as it is, no code
    block and no tag being escaped. *)
Theorem render_other_files (source : option jsstring) (data : object) (w : W) :
  value_truthy (get data (lit "source")) = true →
  getOutput (get data (lit "source")) ∉ [lit "html"; lit "htm"] →
  Forall (λ c, is_hook c = false ∧ is_tag_render c = false
               ∧ (nullish (get data (lit "content")) = false →
                  ∀ v, rendered_text c = Some v → v = get data (lit "content")))
    (run perform (render source data) w).2.
Proof.
  intros Hsource Houtput. apply run_trace_Forall.
  unfold render, render_promise. rewrite Hsource.
  rewrite bool_decide_eq_false_2 by done. cbn [negb orb].
  destruct (nullish (get data (lit "content"))) eqn:Hnull; cbn [negb].
  - destruct (source_given source); prog_calls.
  - cbn [calls_satisfy mbind prog_mbind prog_bind call lift mret prog_ret].
    rewrite get_insert_eq. prog_calls.
    cbn [rendered_text text] in *. congruence.
Qed.


(** X25: when the [before_post_render] hook leaves a content that is not a
    string, [render] fails with a type error right after the hook: the
    renderer is not called. *)
Theorem render_content_not_string (source : option jsstring)
    (data data' : object) (w w1 : W) :
  nullish (get data (lit "content")) = false →
  value_truthy (get data (lit "source")) = false
  ∨ getOutput (get data (lit "source")) ∈ [lit "html"; lit "htm"] →
  perform _ (BeforePostRender
               (<[lit "content" := get data (lit "content")]> data)) w
  = (Returned data', w1) →
  (∀ s, get data' (lit "content") ≠ VString s) →
  run perform (render source data) w
  = (Thrown TypeError, w1,
     [Performed (BeforePostRender
                   (<[lit "content" := get data (lit "content")]> data))]).
Proof.
  intros Hnull Hpost Hhook Hcontent.
  unfold render, render_promise. rewrite Hnull. cbn [negb].
  assert (HisPost :
    negb (value_truthy (get data (lit "source")))
    || bool_decide (getOutput (get data (lit "source"))
                      ∈ [lit "html"; lit "htm"]) = true).
  { destruct Hpost as [-> | Hin]; [done|].
    rewrite (bool_decide_eq_true_2 _ Hin). apply orb_true_r. }
  rewrite HisPost. cbn [negb].
  cbn [mbind prog_mbind prog_bind call lift mret prog_ret run].
  rewrite Hhook.
  destruct (get data' (lit "content")) eqn:E; try done.
  by destruct (Hcontent s).
Qed.

(** X26: a run of [render] on a post that returns made its calls in this
    order: the reading of the source, when the content was not given; the
    [before_post_render] hook; calls that are no hook and write nothing,
    among them the renderer; and last the [after_post_render] hook, whose
    metadata has a string for content. *)
Theorem render_hooks (source : option jsstring) (data result : object)
    (w w' : W) (trace : list performed) :
  value_truthy (get data (lit "source")) = false
  ∨ getOutput (get data (lit "source")) ∈ [lit "html"; lit "htm"] →
  run perform (render source data) w = (Returned result, w', trace) →
  ∃ (pre mid : list performed) (before after : object) (content : jsstring),
    trace = pre ++ Performed (BeforePostRender before)
            :: mid ++ [Performed (AfterPostRender after)]
    ∧ (pre = [] ∨ ∃ file, source = Some file ∧ pre = [Performed (ReadFile file)])
    ∧ Forall (λ c, is_hook c = false ∧ is_write c = false) mid
    ∧ List.Exists (λ c, is_Some (rendered_text c)) mid
    ∧ get after (lit "content") = VString content.
Proof.
  intros Hpost. unfold render.
  assert (HisPost :
    negb (value_truthy (get data (lit "source")))
    || bool_decide (getOutput (get data (lit "source"))
                      ∈ [lit "html"; lit "htm"]) = true).
  { destruct Hpost as [-> | Hin]; [done|].
    rewrite (bool_decide_eq_true_2 _ Hin). apply orb_true_r. }
  rewrite HisPost. cbn [negb].
  destruct (render_promise source data) as [promise|] eqn:Hpromise; [|done].
  intros Hrun.
  apply run_bind_Returned in Hrun as (c0 & w1 & pre & t & Hpre & Hrun & ->).
  assert (Hpre' : pre = []
                  ∨ ∃ file, source = Some file ∧ pre = [Performed (ReadFile file)]).
  { unfold render_promise in Hpromise.
    destruct (negb (nullish _)).
    - injection Hpromise as <-. cbn in Hpre. injection Hpre as _ _ <-.
      by left.
    - destruct source as [[|c file]|]; try done. injection Hpromise as <-.
      cbn [default mbind prog_mbind prog_bind call run] in Hpre.
      destruct (perform _ (ReadFile (c :: file)) w) as [[x|e] w2]; [|done].
      cbn in Hpre. injection Hpre as _ _ <-. right. by eexists. }
  apply run_call_Returned in Hrun as (d1 & w2 & t1 & _ & Hrun & ->).
  apply run_lift_Returned in Hrun as (s & _ & Hrun).
  destruct (escapeCodeBlocks s []) as [e1 c1].
  match type of Hrun with
  | context [if ?b then escapeAllSwigTags e1 c1 else (e1, c1)] =>
      destruct (if b then escapeAllSwigTags e1 c1 else (e1, c1)) as [e2 c2]
  end.
  apply run_call_Returned in Hrun as ([] & w3 & t2 & _ & Hrun & ->).
  apply run_call_Returned in Hrun as (x & w4 & t3 & _ & Hrun & ->).
  destruct (restoreAllSwigTags x c2) as [[x1|e] c3]; [|done].
  apply run_bind_Returned in Hrun as (x2 & w5 & t4 & t5 & Htag & Hrun & ->).
  apply run_call_Returned in Hrun as (x3 & w6 & t6 & _ & Hrun & ->).
  destruct (restoreCodeBlocks x3 c3) as [[x4|e] c4]; [|done].
  cbn [call run] in Hrun.
  destruct (perform _ (AfterPostRender _) w6) as [[d2|e] w7]; [|done].
  injection Hrun as _ _ <-.
  eexists pre, (_ :: _ :: t4 ++ [_]), _, _, x4.
  split; [cbn [app]; by rewrite <- !app_assoc|].
  split; [done|]. split; [|split].
  - repeat (constructor; [done|]). apply Forall_app_2; [|by repeat constructor].
    match type of Htag with
    | context [if ?b then Ret _ else _] => destruct b
    end; cbn [call run] in Htag.
    + by injection Htag as _ _ <-.
    + destruct (perform _ (TagRender _ _) w4) as [[y|e] w8]; [|done].
      injection Htag as _ _ <-. by repeat constructor.
  - apply Exists_cons_tl, Exists_cons_hd. by eexists.
  - by rewrite get_insert_eq.
Qed.

End Render.

(** ** The chains in a world where every call succeeds *)

Lemma createAssetFolder_calls_witness :
  @createAssetFolder blog_site (lit "source/_posts/index.md") true = Ret tt
  ∧ @createAssetFolder blog_site (lit "source/_posts/a.md") false = Ret tt
  ∧ run blog_perform
      (@createAssetFolder blog_site (lit "source/_posts/a.md") true) tt
    = (Returned tt, tt,
       [Performed (Exists (lit "source/_posts/a"));
        Performed (Mkdirs (lit "source/_posts/a"))]).
Proof.
  split; [|split].
  - apply (proj1 (@createAssetFolder_calls blog_site
                    (lit "source/_posts/index.md") true)).
    right. reflexivity.
  - apply (proj1 (@createAssetFolder_calls blog_site
                    (lit "source/_posts/a.md") false)).
    by left.
  - assert (Hname : @basename blog_site
                      (@removeExtname blog_site (lit "source/_posts/a.md"))
                    ≠ lit "index") by by vm_compute.
    exact (proj1 (proj2 (proj2 (@createAssetFolder_calls blog_site
                    (lit "source/_posts/a.md") true) eq_refl Hname
                    unit blog_perform tt tt)) eq_refl).
Defined.

Lemma renderScaffold_content_witness :
  let data : object :=
    {[ lit "layout" := VString (lit "post");
       lit "content" := VString (lit "Hello {{ x }}") ]} in
  let r := lit "title: x" ++ [NEWLINE] ++ lit "---" ++ [NEWLINE]
           ++ lit "Hello {{ x }}" in
  ∃ (scaffold : option jsstring) (splitted : Splitted) (w1 : unit)
    (t1 : list performed) (frontMatter : jsstring) (parsed : option object),
    let jsonMode := startsWith (separator splitted) (lit ";") in
    let rendering :=
      TagRender (split_data splitted)
        (@prepareFrontMatter blog_site data jsonMode) in
    run blog_perform (_getScaffold (get data (lit "layout"))) tt
    = (Returned scaffold, w1, t1)
    ∧ @yfmSplit blog_site scaffold = Returned splitted
    ∧ blog_perform _ rendering w1 = (Returned frontMatter, tt)
    ∧ [Performed (ScaffoldGet (VString (lit "post")));
       Performed (TagRender (lit "title: {{ title }}")
                    (@prepareFrontMatter blog_site data false))]
      = t1 ++ [Performed rendering]
    ∧ (if jsonMode
       then @JSON_parse blog_site (lit "{" ++ frontMatter ++ lit "}")
       else @yaml_load blog_site frontMatter) = Returned parsed
    ∧ (parsed = None → ∀ key, is_Some (data !! key) → key ∈ preservedKeys)
    ∧ r = (if prefixSeparator splitted
           then separator splitted ++ [NEWLINE] else [])
          ++ @yfmStringify blog_site
               ((λ o, mergeMetadata o data) <$> parsed) jsonMode
          ++ split_content splitted
          ++ (if value_truthy (get data (lit "content"))
              then [NEWLINE] ++ @template blog_site (get data (lit "content"))
              else [])
    ∧ (∀ o key, parsed = Some o →
         key ∉ preservedKeys → key ∉ objectPrototype →
         nullish (get data key) = false →
         nullish (get (mergeMetadata o data) key) = false).
Proof.
  intros data r.
  apply (@renderScaffold_content blog_site unit blog_perform data tt tt).
  vm_compute. reflexivity.
Defined.

Lemma create_type_errors_witness :
  @create blog_site {[ lit "layout" := VString (lit "post") ]} false
  = Throw TypeError
  ∧ @create blog_site
      {[ lit "title" := VString (lit "t"); lit "layout" := VNumber 5 ]} true
    = Throw TypeError.
Proof.
  split.
  - apply (proj1 (@create_type_errors blog_site
                    {[ lit "layout" := VString (lit "post") ]} false)).
    reflexivity.
  - apply (proj1 (proj2 (@create_type_errors blog_site
                    {[ lit "title" := VString (lit "t");
                       lit "layout" := VNumber 5 ]} true))).
    intros s. vm_compute. discriminate.
Defined.

Lemma publish_type_errors_witness :
  @publish blog_site {[ lit "title" := VString (lit "hello") ]} false
  = Throw TypeError.
Proof.
  apply (proj1 (@publish_type_errors blog_site
                  {[ lit "title" := VString (lit "hello") ]} false)).
  reflexivity.
Defined.

Lemma publish_reads_first_match_witness :
  let data : object := {[ lit "slug" := VString (lit "hello-world") ]} in
  take 2 (run blog_perform (@publish blog_site data false) tt).2
  = [Performed (ListDir (lit "source/_drafts"));
     Performed (ReadFile (lit "source/_drafts/hello-world-2.md"))].
Proof.
  intros data.
  apply (@publish_reads_first_match blog_site unit blog_perform data false
           (lit "hello-world") (lit "post") tt tt [] [lit "hello-world.md"]
           DASH (lit "2.md")).
  - reflexivity.
  - reflexivity.
  - reflexivity.
  - constructor.
  - by vm_compute.
  - by vm_compute.
Defined.

Lemma publish_removes_after_write_witness :
  let data : object := {[ lit "slug" := VString (lit "hello-world") ]} in
  let trace := (run blog_perform (@publish blog_site data false) tt).2 in
  trace = take 10 trace
          ++ Performed (Unlink (lit "source/_drafts/hello-world-2.md"))
          :: drop 11 trace
  ∧ List.Exists (λ c', is_Some (written c')) (take 10 trace).
Proof.
  intros data trace.
  assert (Htrace : trace
    = take 10 trace
      ++ Performed (Unlink (lit "source/_drafts/hello-world-2.md"))
      :: drop 11 trace) by (vm_compute; reflexivity).
  split; [exact Htrace|].
  exact (@publish_removes_after_write blog_site unit blog_perform data false
           tt (take 10 trace) (drop 11 trace)
           (Performed (Unlink (lit "source/_drafts/hello-world-2.md")))
           Htrace eq_refl).
Defined.

Lemma publish_success_witness :
  let data : object := {[ lit "slug" := VString (lit "hello-world") ]} in
  let result := {| path := lit "source/_posts/hello-world.md";
                   content := lit "title: x" ++ [NEWLINE] ++ lit "---"
                              ++ [NEWLINE] ++ lit "draft text" |} in
  ∃ (s layout text : jsstring) (names : list jsstring) (item : jsstring)
    (w1 w2 w3 w4 : unit) (t_create t_assets : list performed),
    let slug := @slugize blog_site s (@filename_case blog_site) in
    let draftDir := @path_join blog_site (@source_dir blog_site) (lit "_drafts") in
    let src := @path_join blog_site draftDir item in
    let assetSrc := @removeExtname blog_site src in
    let data0 :=
      if bool_decide (get data (lit "layout") = VString (lit "draft"))
      then <[lit "layout" := VString (lit "post")]> data else data in
    let assigned :=
      @yfmParse blog_site text
      ∪ <[lit "layout" := VString layout]>
          (<[lit "slug" := VString slug]> data0) in
    let post_data :=
      <[lit "_content" := VUndefined]>
        (<[lit "content" := get assigned (lit "_content")]> assigned) in
    @toString_method blog_site (get data (lit "slug")) = Returned s
    ∧ @toLowerCase_method blog_site
        (value_or (get data0 (lit "layout")) (@default_layout blog_site))
      = Returned layout
    ∧ blog_perform _ (ListDir draftDir) tt = (Returned names, w1)
    ∧ List.find (draft_regex_test slug) names = Some item
    ∧ blog_perform _ (ReadFile src) w1 = (Returned text, w2)
    ∧ run blog_perform (@create blog_site post_data false) w2
      = (Returned result, w3, t_create)
    ∧ blog_perform _ (Unlink src) w3 = (Returned tt, w4)
    ∧ (run blog_perform (@publish blog_site data false) tt).2
      = Performed (ListDir draftDir) :: Performed (ReadFile src)
        :: t_create ++ Performed (Unlink src) :: t_assets
    ∧ Forall (λ c, is_removal c = false) t_create
    ∧ List.Exists (λ c, written c = Some (path result, content result)) t_create
    ∧ (if @post_asset_folder blog_site
       then ∃ (exist : bool) (w5 : unit),
              blog_perform _ (Exists assetSrc) w4 = (Returned exist, w5)
              ∧ if exist
                then ∃ w6,
                       blog_perform _
                         (CopyDir assetSrc
                            (@removeExtname blog_site (path result)))
                         w5 = (Returned tt, w6)
                       ∧ blog_perform _ (Rmdir assetSrc) w6 = (Returned tt, tt)
                       ∧ t_assets
                         = [Performed (Exists assetSrc);
                            Performed (CopyDir assetSrc
                                         (@removeExtname blog_site
                                            (path result)));
                            Performed (Rmdir assetSrc)]
                else tt = w5 ∧ t_assets = [Performed (Exists assetSrc)]
       else tt = w4 ∧ t_assets = []).
Proof.
  intros data result.
  apply (@publish_success blog_site unit blog_perform data false tt tt).
  vm_compute. reflexivity.
Defined.


Lemma render_content_not_string_witness :
  let data : object := {[ lit "content" := VNumber 5 ]} in
  run blog_perform (@render blog_site None data) tt
  = (Thrown TypeError, tt,
     [Performed (BeforePostRender
                   (<[lit "content" := get data (lit "content")]> data))]).
Proof.
  intros data.
  apply (@render_content_not_string blog_site unit blog_perform None data data
           tt tt).
  - reflexivity.
  - by left.
  - vm_compute. reflexivity.
  - intros s. vm_compute. discriminate.
Defined.

Lemma render_other_files_witness :
  let data : object :=
    {[ lit "source" := VString (lit "css/style.styl");
       lit "content" := VString (lit "a {{ b }}") ]} in
  Forall (λ c, is_hook c = false ∧ is_tag_render c = false
               ∧ (nullish (get data (lit "content")) = false →
                  ∀ v, rendered_text c = Some v → v = get data (lit "content")))
    (run blog_perform (@render blog_site (Some (lit "css/style.styl")) data)
       tt).2.
Proof.
  intros data.
  apply (@render_other_files blog_site unit blog_perform
           (Some (lit "css/style.styl")) data tt).
  - reflexivity.
  - apply (bool_decide_unpack _). by vm_compute.
Defined.

Lemma render_hooks_witness :
  let data : object := {[ lit "disableNunjucks" := VBool false ]} in
  ∃ (pre mid : list performed) (before after : object) (content : jsstring),
    (run blog_perform (@render blog_site (Some (lit "a.md")) data) tt).2
    = pre ++ Performed (BeforePostRender before)
      :: mid ++ [Performed (AfterPostRender after)]
    ∧ (pre = []
       ∨ ∃ file, Some (lit "a.md") = Some file
                 ∧ pre = [Performed (ReadFile file)])
    ∧ Forall (λ c, is_hook c = false ∧ is_write c = false) mid
    ∧ List.Exists (λ c, is_Some (rendered_text c)) mid
    ∧ get after (lit "content") = VString content.
Proof.
  intros data.
  eapply (@render_hooks blog_site unit blog_perform (Some (lit "a.md")) data
            _ tt tt).
  - by left.
  - vm_compute. reflexivity.
Defined.

Lemma publish_keeps_body_witness :
  let data : object := {[ lit "slug" := VString (lit "hello-world") ]} in
  let result := {| path := lit "source/_posts/hello-world.md";
                   content := lit "title: x" ++ [NEWLINE] ++ lit "---"
                              ++ [NEWLINE] ++ lit "draft text" |} in
  (run blog_perform (@publish blog_site data false) tt).1.1 = Returned result
  ∧ ∃ front,
      content result
      = front ++ [NEWLINE] ++ @template blog_site (VString (lit "draft text")).
Proof.
  intros data result. split; [vm_compute; reflexivity|].
  apply (@publish_keeps_body blog_site unit blog_perform data false
           (lit "hello-world") (lit "draft text") (VString (lit "draft text"))
           [lit "hello-world-2.md"; lit "hello-world.md"]
           (lit "hello-world-2.md") tt tt tt tt result
           (run blog_perform (@publish blog_site data false) tt).2).
  - reflexivity.
  - reflexivity.
  - reflexivity.
  - reflexivity.
  - reflexivity.
  - reflexivity.
  - vm_compute. reflexivity.
Defined.
